(** * ClueWeb22 reader: a shallow embedding of [clueweb22.py]

    The development follows the layout of the Python module: the string
    primitives the module relies on, the record and document types, the
    combiners, the identifier codecs, the record-count catalog, the offset
    sidecar reader, the slice planner, the identifier lookup, the version
    file, the rows of the catalog files and the registration of the
    datasets.  The readers that decode JSON lines and WARC records are not
    modelled: a shard is given as the list of its decoded records.

    Conventions.
    - A Python [str] is a [string]; a character is a code point below 256.
    - A Python [int] is a [Z]; the interpreter's configurable limit on the
      number of digits of an [int]/[str] conversion is not modelled.
    - A raised exception is [None] (or a tagged error where a claim needs to
      tell assertions apart); [assert] statements are taken to be enabled.
    - A generator is the list of the values it yields. *)

From Stdlib Require Import String Ascii List ZArith Lia Bool.
Import ListNotations.

Local Open Scope string_scope.
Local Open Scope Z_scope.

(* ===================================================================== *)
(** * Part I: definitions *)
(* ===================================================================== *)

(** ** Python string primitives *)

Module PyStr.

Fixpoint take (n : nat) (s : string) : string :=
  match n, s with
  | S k, String c r => String c (take k r)
  | _, _ => ""
  end.

Fixpoint drop (n : nat) (s : string) : string :=
  match n, s with
  | S k, String _ r => drop k r
  | _, _ => s
  end.

Definition len (s : string) : Z := Z.of_nat (String.length s).

(** Clamping of one slice bound, as [slice.indices] does for step 1. *)
Definition norm_index (n i : Z) : Z :=
  if i <? 0 then Z.max 0 (n + i) else Z.min i n.

(** [s[lo:hi]]; [None] is an omitted bound. *)
Definition slice (lo hi : option Z) (s : string) : string :=
  let n := len s in
  let a := match lo with None => 0 | Some i => norm_index n i end in
  let b := match hi with None => n | Some i => norm_index n i end in
  take (Z.to_nat (b - a)) (drop (Z.to_nat a) s).

(** [s.split(sep)] for a one-character separator. *)
Fixpoint split (sep : ascii) (s : string) : list string :=
  match s with
  | "" => [""]
  | String c r =>
      if Ascii.eqb c sep then "" :: split sep r
      else match split sep r with
           | h :: t => String c h :: t
           | [] => [String c ""]
           end
  end.

(** [sep.join(parts)]. *)
Fixpoint join (sep : string) (parts : list string) : string :=
  match parts with
  | [] => ""
  | [p] => p
  | p :: rest => p ++ sep ++ join sep rest
  end.

Fixpoint contains_char (c : ascii) (s : string) : bool :=
  match s with
  | "" => false
  | String d r => Ascii.eqb d c || contains_char c r
  end.

Definition startswith (p s : string) : bool := String.prefix p s.

Definition endswith (suffix s : string) : bool :=
  String.eqb (drop (String.length s - String.length suffix) s) suffix
  && (String.length suffix <=? String.length s)%nat.

(** [s.replace(old, new)] for a non-empty [old]: non-overlapping matches,
    leftmost first.  [skip] counts the characters of a match still to be
    dropped. *)
Fixpoint replace_from (old new : string) (skip : nat) (s : string) : string :=
  match s with
  | "" => ""
  | String c r =>
      match skip with
      | S k => replace_from old new k r
      | O =>
          if String.prefix old s
          then new ++ replace_from old new (String.length old - 1) r
          else String c (replace_from old new 0 r)
      end
  end.

Definition replace (old new s : string) : string := replace_from old new 0 s.

Definition is_digit (c : ascii) : bool :=
  let n := nat_of_ascii c in ((48 <=? n) && (n <=? 57))%nat.

Definition digit_value (c : ascii) : Z := Z.of_nat (nat_of_ascii c) - 48.

Definition digit_char (d : Z) : ascii := ascii_of_nat (Z.to_nat (48 + d)).

(** White space that [int] strips: the ASCII white space and, above 127,
    the code points [str.isspace] accepts (NEL and NBSP below 256). *)
Definition is_space (c : ascii) : bool :=
  let n := nat_of_ascii c in
  (((9 <=? n) && (n <=? 13)) || (n =? 32) || (n =? 133) || (n =? 160))%nat.

Fixpoint lstrip (s : string) : string :=
  match s with
  | String c r => if is_space c then lstrip r else s
  | "" => ""
  end.

Fixpoint rstrip (s : string) : string :=
  match s with
  | "" => ""
  | String c r =>
      let r' := rstrip r in
      if is_space c && String.eqb r' "" then "" else String c r'
  end.

Definition strip (s : string) : string := rstrip (lstrip s).

(** Digits with single underscores between them; [prev] tells whether the
    previous character was a digit. *)
Fixpoint digits_acc (s : string) (acc : Z) (prev : bool) : option Z :=
  match s with
  | "" => if prev then Some acc else None
  | String c r =>
      if is_digit c then digits_acc r (10 * acc + digit_value c) true
      else if Ascii.eqb c "_" then
             if prev then digits_acc r acc false else None
           else None
  end.

(** [int(s)] in base 10; [None] is [ValueError]. *)
Definition int (s : string) : option Z :=
  match strip s with
  | String c r =>
      if Ascii.eqb c "+" then digits_acc r 0 false
      else if Ascii.eqb c "-" then option_map Z.opp (digits_acc r 0 false)
      else digits_acc (String c r) 0 false
  | "" => None
  end.

(** Strings of decimal digits and the number they denote after [acc]. *)
Fixpoint all_digits (s : string) : bool :=
  match s with
  | "" => true
  | String c r => is_digit c && all_digits r
  end.

Fixpoint value_from (acc : Z) (s : string) : Z :=
  match s with
  | "" => acc
  | String c r => value_from (10 * acc + digit_value c) r
  end.

(** Whether the last character of a string is a decimal digit. *)
Fixpoint last_is_digit (s : string) : bool :=
  match s with
  | "" => false
  | String c r =>
      match r with
      | "" => is_digit c
      | String _ _ => last_is_digit r
      end
  end.

(** Decimal digits of a non-negative integer, most significant first. *)
Fixpoint dec_digits (fuel : nat) (n : Z) (acc : string) : string :=
  match fuel with
  | O => acc
  | S f =>
      let acc' := String (digit_char (n mod 10)) acc in
      if n <? 10 then acc' else dec_digits f (n / 10) acc'
  end.

Definition digits_fuel (n : Z) : nat := S (Z.to_nat (Z.log2 n)).

(** [str(n)] for an [int]. *)
Definition str (n : Z) : string :=
  if n <? 0 then String "-" (dec_digits (digits_fuel (- n)) (- n) "")
  else dec_digits (digits_fuel n) n "".

Fixpoint repeat_char (c : ascii) (n : nat) : string :=
  match n with
  | O => ""
  | S k => String c (repeat_char c k)
  end.

(** The format specification [0>w] applied to a string: fill with ["0"],
    align right, minimum width [w]. *)
Definition pad_left (w : nat) (s : string) : string :=
  repeat_char "0" (w - String.length s) ++ s.

(** [f"{n:0>w}"] for an [int]. *)
Definition fmt (w : nat) (n : Z) : string := pad_left w (str n).

(** [os.path.join] of two components (POSIX). *)
Definition path_join2 (a b : string) : string :=
  if startswith "/" b then b
  else if String.eqb a "" || endswith "/" a then a ++ b
  else a ++ "/" ++ b.

Definition path_join (a : string) (rest : list string) : string :=
  fold_left path_join2 rest a.

(** The final component of a path: [Path(p).name]. *)
Definition path_name (p : string) : string := last (split "/" p) "".

(** The path with its final component replaced: [Path(p).with_name(n)]. *)
Definition path_with_name (p n : string) : string :=
  take (String.length p - String.length (path_name p)) p ++ n.

End PyStr.

(** ** Base records, one per record format *)

Module Txt.
Record t : Type := mk {
  doc_id : string;
  url : string;
  url_hash : string;
  language : string;
  text : string
}.
End Txt.

Inductive AnnotationType : Type :=
| NONE | PRIMARY | HEADING | TITLE | PARAGRAPH | TABLE | LIST.

Record datetime : Type := mk_datetime {
  year : Z; month : Z; day : Z;
  hour : Z; minute : Z; second : Z; microsecond : Z
}.

Record UUID : Type := mk_UUID { uuid_int : Z }.

Definition bytes : Type := list Byte.byte.

Module Html.
Record t : Type := mk {
  doc_id : string;
  url : string;
  url_hash : string;
  language : string;
  date : datetime;
  record_id : UUID;
  payload_digest : string;
  html : bytes;
  vdom_nodes : list (AnnotationType * list Z)
}.
End Html.

Module Anchor.
Record t : Type := mk {
  url : string;
  url_hash : string;
  text : string;
  language : string
}.
End Anchor.

Module Link.
Record t : Type := mk {
  doc_id : string;
  url : string;
  url_hash : string;
  anchors : list Anchor.t
}.
End Link.

Module Vdom.
Record t : Type := mk { vdom : bytes }.
End Vdom.

(** ** Documents, one per subset *)

Module LDoc.
Record t : Type := mk {
  doc_id : string;
  url : string;
  url_hash : string;
  language : string;
  text : string
}.
End LDoc.

Module ADoc.
Record t : Type := mk {
  doc_id : string;
  url : string;
  url_hash : string;
  language : string;
  text : string;
  date : datetime;
  html : bytes;
  record_id : UUID;
  payload_digest : string;
  vdom_nodes : list (AnnotationType * list Z);
  vdom : bytes;
  inlink_anchors : list Anchor.t;
  outlink_anchors : list Anchor.t
}.
End ADoc.

Module BDoc.
Record t : Type := mk {
  doc_id : string;
  url : string;
  url_hash : string;
  language : string;
  text : string;
  date : datetime;
  html : bytes;
  record_id : UUID;
  payload_digest : string;
  vdom_nodes : list (AnnotationType * list Z);
  vdom : bytes;
  inlink_anchors : list Anchor.t;
  outlink_anchors : list Anchor.t
}.
End BDoc.

(** ** Combiners *)

(** The [assert] statements of a combiner, in source order. *)
Inductive AssertionError : Type :=
| TxtDocIdAssertion
| TxtUrlAssertion
| LanguageAssertion
| InlinkDocIdAssertion
| OutlinkDocIdAssertion.

Inductive LogLevel : Type := DEBUG | WARN.

Definition LogEntry : Type := (LogLevel * string)%type.

(** What a combiner generator has done when it stops: the documents it
    yielded, the messages it logged, and the assertion that ended it, if
    one did. *)
Record Run (D : Type) : Type := mkRun {
  yielded : list D;
  logged : list LogEntry;
  raised : option AssertionError
}.
Arguments mkRun {D} _ _ _.
Arguments yielded {D} _.
Arguments logged {D} _.
Arguments raised {D} _.

(** The tuple [zip] hands to the A and B combiners. *)
Definition Aligned : Type :=
  (Txt.t * Html.t * option Link.t * option Link.t * Vdom.t)%type.

Fixpoint zip5 (a : list Txt.t) (b : list Html.t) (c d : list (option Link.t))
  (e : list Vdom.t) : list Aligned :=
  match a, b, c, d, e with
  | x :: a', y :: b', z :: c', u :: d', v :: e' =>
      (x, y, z, u, v) :: zip5 a' b' c' d' e'
  | _, _, _, _, _ => []
  end.

(** [_combine_l_docs]. *)
Definition _combine_l_docs (txts : list Txt.t) : list LDoc.t :=
  map (fun txt =>
         LDoc.mk (Txt.doc_id txt) (Txt.url txt) (Txt.url_hash txt)
           (Txt.language txt) (Txt.text txt)) txts.

Definition str_neq (a b : string) : bool := negb (String.eqb a b).

(** [txt.language == "other" or txt.language == html.language]. *)
Definition language_check (txt : Txt.t) (html : Html.t) : bool :=
  String.eqb (Txt.language txt) "other"
  || String.eqb (Txt.language txt) (Html.language html).

(** ["," in html.url and html.url.split(",")[0] == txt.url]. *)
Definition truncated_url_check (txt : Txt.t) (html : Html.t) : bool :=
  PyStr.contains_char "," (Html.url html)
  && String.eqb (hd "" (PyStr.split "," (Html.url html))) (Txt.url txt).

(** The checks on one link record: the [inlink]/[outlink] blocks of the
    loop body, which differ only in the name they log. *)
Definition link_checks (name : string) (err : AssertionError)
  (txt : Txt.t) (html : Html.t) (link : option Link.t)
  : AssertionError + list LogEntry :=
  match link with
  | None => inr []
  | Some l =>
      if str_neq (Link.doc_id l) (Html.doc_id html) then inl err
      else
        inr (app
             (if str_neq (Link.url l) (Html.url html)
              then [(WARN, "URL mismatch for " ++ Html.doc_id html ++ ": "
                           ++ name ++ " URL was " ++ Link.url l ++ " but "
                           ++ "html URL was " ++ Html.url html)]
              else [])
             (if str_neq (Link.url_hash l) (Html.url_hash html)
              then [(WARN, "URL hash mismatch for " ++ Txt.doc_id txt ++ ": "
                           ++ name ++ " URL hash was " ++ Txt.url_hash txt
                           ++ " but " ++ "html URL hash was "
                           ++ Html.url_hash html)]
              else []))
  end.

(** The checks of one loop iteration, shared verbatim by [_combine_a_docs]
    and [_combine_b_docs]: the messages logged before the iteration either
    raises or reaches its [yield]. *)
Definition checks (t : Aligned) : list LogEntry * option AssertionError :=
  let '(txt, html, inlink, outlink, _) := t in
  if str_neq (Txt.doc_id txt) (Html.doc_id html) then ([], Some TxtDocIdAssertion)
  else
    let log1 :=
      if str_neq (Txt.url txt) (Html.url html)
      then [(DEBUG, "URL mismatch for " ++ Txt.doc_id txt ++ ": "
                    ++ "txt URL was " ++ Txt.url txt ++ " but "
                    ++ "html URL was " ++ Html.url html)]
      else [] in
    if str_neq (Txt.url txt) (Html.url html) && negb (truncated_url_check txt html)
    then (log1, Some TxtUrlAssertion)
    else
      let log2 :=
        if str_neq (Txt.url_hash txt) (Html.url_hash html)
        then [(WARN, "URL hash mismatch for " ++ Txt.doc_id txt ++ ": "
                     ++ "txt URL hash was " ++ Txt.url_hash txt ++ " but "
                     ++ "html URL hash was " ++ Html.url_hash html)]
        else [] in
      if negb (language_check txt html)
      then ((log1 ++ log2)%list, Some LanguageAssertion)
      else
        match link_checks "inlink" InlinkDocIdAssertion txt html inlink with
        | inl e => ((log1 ++ log2)%list, Some e)
        | inr log3 =>
            match link_checks "outlink" OutlinkDocIdAssertion txt html outlink with
            | inl e => ((log1 ++ log2 ++ log3)%list, Some e)
            | inr log4 => ((log1 ++ log2 ++ log3 ++ log4)%list, None)
            end
        end.

Definition link_anchors (link : option Link.t) : list Anchor.t :=
  match link with
  | Some l => Link.anchors l
  | None => []
  end.

Definition make_a_doc (t : Aligned) : ADoc.t :=
  let '(txt, html, inlink, outlink, vdom) := t in
  ADoc.mk (Html.doc_id html) (Html.url html) (Html.url_hash html)
    (Html.language html) (Txt.text txt) (Html.date html) (Html.html html)
    (Html.record_id html) (Html.payload_digest html) (Html.vdom_nodes html)
    (Vdom.vdom vdom) (link_anchors inlink) (link_anchors outlink).

Definition make_b_doc (t : Aligned) : BDoc.t :=
  let '(txt, html, inlink, outlink, vdom) := t in
  BDoc.mk (Html.doc_id html) (Html.url html) (Html.url_hash html)
    (Html.language html) (Txt.text txt) (Html.date html) (Html.html html)
    (Html.record_id html) (Html.payload_digest html) (Html.vdom_nodes html)
    (Vdom.vdom vdom) (link_anchors inlink) (link_anchors outlink).

(** The loop of a combiner over the zipped tuples. *)
Fixpoint combine_loop {D : Type} (make : Aligned -> D) (zipped : list Aligned)
  : Run D :=
  match zipped with
  | [] => mkRun [] [] None
  | t :: rest =>
      match checks t with
      | (log, Some e) => mkRun [] log (Some e)
      | (log, None) =>
          let r := combine_loop make rest in
          mkRun (make t :: yielded r) (log ++ logged r)%list (raised r)
      end
  end.

(** [_combine_a_docs]. *)
Definition _combine_a_docs (txt : list Txt.t) (html : list Html.t)
  (inlink outlink : list (option Link.t)) (vdom : list Vdom.t) : Run ADoc.t :=
  combine_loop make_a_doc (zip5 txt html inlink outlink vdom).

(** [_combine_b_docs]. *)
Definition _combine_b_docs (txt : list Txt.t) (html : list Html.t)
  (inlink outlink : list (option Link.t)) (vdom : list Vdom.t) : Run BDoc.t :=
  combine_loop make_b_doc (zip5 txt html inlink outlink vdom).

(** ** Formats, languages and subsets *)

Inductive ClueWeb22Compression : Type := GZIP | ZIP.

(** A configuration attribute: a value, [None], or [NotImplemented]. *)
Inductive attr (A : Type) : Type :=
| Is (a : A)
| PyNone
| PyNotImplemented.
Arguments Is {A} _.
Arguments PyNone {A}.
Arguments PyNotImplemented {A}.

Inductive ClueWeb22Format : Type :=
| HTML | INLINK | OUTLINK | TXT | JPG | VDOM.

Module Format.

Definition eq_dec (a b : ClueWeb22Format) : {a = b} + {a <> b}.
Proof. decide equality. Defined.

Definition eqb (a b : ClueWeb22Format) : bool :=
  if eq_dec a b then true else false.

Definition id (f : ClueWeb22Format) : string :=
  match f with
  | HTML => "html" | INLINK => "inlink" | OUTLINK => "outlink"
  | TXT => "txt" | JPG => "jpg" | VDOM => "vdom"
  end.

Definition extension (f : ClueWeb22Format) : attr string :=
  match f with
  | HTML => Is ".warc.gz"
  | INLINK | OUTLINK | TXT => Is ".json.gz"
  | JPG => PyNotImplemented
  | VDOM => Is ".zip"
  end.

Definition offset_extension (f : ClueWeb22Format) : attr string :=
  match f with
  | HTML => Is ".warc.offset"
  | INLINK | OUTLINK | TXT => Is ".offset"
  | JPG => PyNotImplemented
  | VDOM => PyNone
  end.

(** The extension as an f-string interpolates it. *)
Definition extension_str (f : ClueWeb22Format) : string :=
  match extension f with
  | Is e => e
  | PyNone => "None"
  | PyNotImplemented => "NotImplemented"
  end.

Definition compression (f : ClueWeb22Format) : attr ClueWeb22Compression :=
  match f with
  | HTML | INLINK | OUTLINK | TXT => Is GZIP
  | JPG => PyNotImplemented
  | VDOM => Is ZIP
  end.

Definition compression_extension (f : ClueWeb22Format) : attr string :=
  match f with
  | HTML | INLINK | OUTLINK | TXT => PyNone
  | JPG => PyNotImplemented
  | VDOM => Is ".bin"
  end.

End Format.

Inductive ClueWeb22Language : Type :=
| DE | EN | ES | FR | IT | JA | NL | PO | PT | ZH | OTHER.

Module Language.

Definition all : list ClueWeb22Language :=
  [DE; EN; ES; FR; IT; JA; NL; PO; PT; ZH; OTHER].

Definition id (l : ClueWeb22Language) : string :=
  match l with
  | DE => "de" | EN => "en" | ES => "es" | FR => "fr" | IT => "it"
  | JA => "ja" | NL => "nl" | PO => "po" | PT => "pt"
  | ZH => "zh_chs" | OTHER => "other"
  end.

Definition tag (l : ClueWeb22Language) : string :=
  match l with
  | ZH => "zh"
  | OTHER => "other-languages"
  | _ => id l
  end.

End Language.

(** A Python [set] is kept as the list of its members without repetition;
    the order in which the interpreter iterates over it depends on hashes
    and is not fixed by the language.  An iteration order is any function
    that lists each member once. *)
Record SetOrder (A : Type) : Type := mkSetOrder {
  iter : list A -> list A;
  iter_NoDup : forall l, NoDup (iter l);
  iter_In : forall l x, In x (iter l) <-> In x l
}.
Arguments iter {A} _ _.
Arguments iter_NoDup {A} _ _.
Arguments iter_In {A} _ _ _.

(** The iteration order that lists members as [nodup] leaves them. *)
Definition nodup_order {A : Type} (dec : forall x y : A, {x = y} + {x <> y})
  : SetOrder A :=
  mkSetOrder A (nodup dec) (NoDup_nodup dec) (fun l x => nodup_In dec l x).

Inductive ClueWeb22Subset : Type := L | A | B.

Module Subset.

Definition eq_dec (a b : ClueWeb22Subset) : {a = b} + {a <> b}.
Proof. decide equality. Defined.

Definition all : list ClueWeb22Subset := [L; A; B].

Definition id (s : ClueWeb22Subset) : string :=
  match s with L => "L" | A => "A" | B => "B" end.

Definition tag (s : ClueWeb22Subset) : string :=
  match s with L => "l" | A => "a" | B => "b" end.

Definition formats (s : ClueWeb22Subset) : list ClueWeb22Format :=
  match s with
  | L => [TXT]
  | A => [TXT; HTML; INLINK; OUTLINK; VDOM]
  | B => [TXT; HTML; INLINK; OUTLINK; VDOM]
  end.

Definition extends (s : ClueWeb22Subset) : option string :=
  match s with L => None | A => Some "L" | B => Some "A" end.

Definition hide (s : ClueWeb22Subset) : bool :=
  match s with L | A => true | B => false end.

(** [subset_views]: the recursion follows [extends]; [fuel] bounds its
    depth, and [None] is the [StopIteration] of a dangling [extends]. *)
Fixpoint subset_views_fuel (fuel : nat) (s : ClueWeb22Subset)
  : option (list ClueWeb22Subset) :=
  match extends s with
  | None => Some [s]
  | Some e =>
      match fuel with
      | O => None
      | S f =>
          match find (fun x => String.eqb (id x) e) all with
          | None => None
          | Some x =>
              match subset_views_fuel f x with
              | None => None
              | Some views =>
                  Some (if in_dec eq_dec s views then views else s :: views)
              end
          end
      end
  end.

Definition subset_views (s : ClueWeb22Subset) : list ClueWeb22Subset :=
  match subset_views_fuel (List.length all) s with
  | Some views => views
  | None => []
  end.

(** [diff_formats]: the formats of the subset that none of the subsets it
    extends has. *)
Definition diff_formats (s : ClueWeb22Subset) : list ClueWeb22Format :=
  fold_left
    (fun fs view =>
       filter (fun f => negb (existsb (Format.eqb f) (formats view))) fs)
    (remove eq_dec s (subset_views s))
    (nodup Format.eq_dec (formats s)).

End Subset.

(** ** Identifier codecs *)

Definition _MAX_SUBDIRECTORIES_PER_STREAM : Z := 80.
Definition _MAX_FILES_PER_SUBDIRECTORY : Z := 100.

(** The [path] property shared by [ClueWeb22DocId] and [ClueWeb22FileId]. *)
Definition id_path (language : string) (stream subdirectory file : Z) : string :=
  let language_path := language in
  let stream_path := language_path ++ PyStr.fmt 2 stream in
  let subdirectory_path := stream_path ++ PyStr.fmt 2 subdirectory in
  let file_path := subdirectory_path ++ "-" ++ PyStr.fmt 2 file in
  PyStr.path_join language_path [stream_path; subdirectory_path; file_path].

Module DocId.

Record t : Type := mk {
  language : string;
  stream : Z;
  subdirectory : Z;
  file : Z;
  doc : Z
}.

Definition eq_dec (a b : t) : {a = b} + {a <> b}.
Proof. decide equality; try apply Z.eq_dec; apply string_dec. Defined.

(** [ClueWeb22DocId.from_string]; [None] is [ValueError]. *)
Definition from_string (doc_id : string) : option t :=
  match PyStr.split "-" doc_id with
  | [dataset; subdirectory; file; doc_index] =>
      if negb (String.eqb dataset "clueweb22") then None
      else
        let language := PyStr.slice None (Some (-4)) subdirectory in
        if negb (existsb (fun l => String.eqb language (Language.id l))
                   Language.all)
        then None
        else
          match PyStr.int (PyStr.slice (Some (-4)) (Some (-2)) subdirectory) with
          | None => None
          | Some stream_id =>
              match PyStr.int (PyStr.slice (Some (-2)) None subdirectory) with
              | None => None
              | Some subdirectory_id =>
                  if subdirectory_id >? _MAX_SUBDIRECTORIES_PER_STREAM then None
                  else
                    match PyStr.int file with
                    | None => None
                    | Some file_id =>
                        if file_id >? _MAX_FILES_PER_SUBDIRECTORY then None
                        else
                          match PyStr.int doc_index with
                          | None => None
                          | Some doc =>
                              Some (mk language stream_id subdirectory_id
                                      file_id doc)
                          end
                    end
              end
          end
  | _ => None
  end.

(** [ClueWeb22DocId.path]. *)
Definition path (d : t) : string :=
  id_path (language d) (stream d) (subdirectory d) (file d).

(** [ClueWeb22DocId.__str__]. *)
Definition to_string (d : t) : string :=
  PyStr.join "-"
    [ "clueweb22";
      language d ++ PyStr.fmt 2 (stream d) ++ PyStr.fmt 2 (subdirectory d);
      PyStr.fmt 2 (file d);
      PyStr.fmt 5 (doc d) ].

End DocId.

Module FileId.

Record t : Type := mk {
  language : string;
  stream : Z;
  subdirectory : Z;
  file : Z
}.

(** Equality of the named tuples, field by field. *)
Definition eqb (a b : t) : bool :=
  String.eqb (language a) (language b)
  && (stream a =? stream b)
  && (subdirectory a =? subdirectory b)
  && (file a =? file b).

(** [ClueWeb22FileId.path]. *)
Definition path (f : t) : string :=
  id_path (language f) (stream f) (subdirectory f) (file f).

End FileId.

(** ** The reader and its record-count catalog *)

(** A [ClueWeb22Docs] object together with what it finds on disk:
    [_record_counts f] lists the rows the method of that name yields for
    format [f], that is the [(FileId, count)] rows of the CSV catalogs of
    [f] under the reader's language filter, in file order. *)
Record ClueWeb22Docs : Type := mkDocs {
  docs_path : string;
  _subset : ClueWeb22Subset;
  _subset_view : ClueWeb22Subset;
  _language : option ClueWeb22Language;
  _record_counts : ClueWeb22Format -> list (FileId.t * Z)
}.

(** [diff_format_record_counts]: [next(iter(diff_formats))] takes the first
    format in the set's iteration order; an empty set raises
    [StopIteration], which falls back to the HTML counts. *)
Definition diff_format_record_counts (order : SetOrder ClueWeb22Format)
  (docs : ClueWeb22Docs) : list (FileId.t * Z) :=
  match iter order (Subset.diff_formats (_subset docs)) with
  | diff_format_type :: _ => _record_counts docs diff_format_type
  | [] => _record_counts docs HTML
  end.

(** The inner loop of [record_counts]: advance the iterator [counts] up to
    and including the first row whose file is [diff_file_id]; what is left
    of the iterator is returned along with whether a row was found. *)
Fixpoint scan_counts (diff_file_id : FileId.t) (counts : list (FileId.t * Z))
  : option FileId.t * list (FileId.t * Z) :=
  match counts with
  | [] => (None, [])
  | (file_id, _) :: rest =>
      if FileId.eqb file_id diff_file_id then (Some file_id, rest)
      else scan_counts diff_file_id rest
  end.

(** The outer loop of [record_counts]; [counts] is the single iterator the
    inner loop keeps consuming. *)
Fixpoint record_counts_loop (diff : list (FileId.t * Z))
  (counts : list (FileId.t * Z)) : list (FileId.t * Z) :=
  match diff with
  | [] => []
  | (diff_file_id, diff_count) :: diff' =>
      match scan_counts diff_file_id counts with
      | (Some file_id, rest) =>
          (file_id, diff_count) :: record_counts_loop diff' rest
      | (None, rest) => record_counts_loop diff' rest
      end
  end.

(** [record_counts]. *)
Definition record_counts (order : SetOrder ClueWeb22Format)
  (docs : ClueWeb22Docs) (format_type : ClueWeb22Format)
  : list (FileId.t * Z) :=
  record_counts_loop (diff_format_record_counts order docs)
    (_record_counts docs format_type).

(** [sum] over a generator: left to right from 0. *)
Definition py_sum (l : list Z) : Z := fold_left Z.add l 0.

(** [docs_count]. *)
Definition docs_count (order : SetOrder ClueWeb22Format)
  (docs : ClueWeb22Docs) : Z :=
  py_sum (map snd (diff_format_record_counts order docs)).

(** ** Offset sidecars *)

(** [_fix_missing_line_break]. *)
Definition _fix_missing_line_break (lines : list string) : list string :=
  flat_map
    (fun line =>
       if PyStr.len line >? 10 + 1
       then [PyStr.slice None (Some 10) line; PyStr.slice (Some 10) None line]
       else [line])
    lines.

(** [int] over every line; [None] as soon as one line is not an integer. *)
Fixpoint ints (lines : list string) : option (list Z) :=
  match lines with
  | [] => Some []
  | line :: rest =>
      match PyStr.int line, ints rest with
      | Some n, Some ns => Some (n :: ns)
      | _, _ => None
      end
  end.

(** The name of the sidecar next to a shard:
    [(name[:-len(extension)] + offset_extension) if offset_extension else ""];
    [None] is the [TypeError] of adding [NotImplemented] to a string. *)
Definition offsets_name_of (name extension : string)
  (offset_extension : attr string) : option string :=
  match offset_extension with
  | Is oe =>
      if String.eqb oe "" then Some ""
      else Some (PyStr.slice None (Some (- PyStr.len extension)) name ++ oe)
  | PyNone => Some ""
  | PyNotImplemented => None
  end.

(** Whether [_read_offsets] routes the lines of the sidecar of [file_path]
    through [_fix_missing_line_break]. *)
Definition repairs_line_breaks (file_path : string)
  (format_type : ClueWeb22Format) : bool :=
  match Format.extension format_type with
  | Is extension =>
      match offsets_name_of (PyStr.path_name file_path) extension
              (Format.offset_extension format_type) with
      | Some offsets_name => String.eqb offsets_name "ja0009-57.warc.offset"
      | None => false
      end
  | _ => false
  end.

(** [_read_offsets], consumed to its end.  [open_text p] gives the lines of
    the text file at [p], or [None] when it cannot be opened.  The result
    is [None] when an assertion fails or an exception is raised. *)
Definition _read_offsets (open_text : string -> option (list string))
  (file_path : string) (format_type : ClueWeb22Format) : option (list Z) :=
  match Format.extension format_type with
  | Is extension =>
      if negb (PyStr.endswith extension (PyStr.path_name file_path)) then None
      else
        match offsets_name_of (PyStr.path_name file_path) extension
                (Format.offset_extension format_type) with
        | None => None
        | Some offsets_name =>
            if String.eqb offsets_name "" then None
            else
              match open_text (PyStr.path_with_name file_path offsets_name) with
              | None => None
              | Some offsets_file =>
                  if String.eqb offsets_name "ja0009-57.warc.offset"
                  then ints (_fix_missing_line_break offsets_file)
                  else ints offsets_file
              end
        end
  | _ => None
  end.

(** [_fix_path]. *)
Definition _fix_path (path : string) (format_type : ClueWeb22Format) : string :=
  if Format.eqb format_type OUTLINK && PyStr.contains_char "_" path
  then PyStr.replace "zh_chs/zh_chs" "zh_chs/zh" path
  else path.

(** [Path / str], without pathlib's normalisation of the result. *)
Definition path_div (a b : string) : string := PyStr.path_join2 a b.

(** The shard file of a file identifier for a format, as both
    [_ClueWeb22Iterator._file_paths] and the docstore build it:
    [format_path / f"{path}{extension}"]. *)
Definition shard_file_path (root : string) (format_type : ClueWeb22Format)
  (id_path : string) : string :=
  path_div (path_div root (Format.id format_type))
    (_fix_path id_path format_type ++ Format.extension_str format_type).

(** [_ClueWeb22Iterator._file_paths]. *)
Definition _file_paths (order : SetOrder ClueWeb22Format)
  (docs : ClueWeb22Docs) (format_type : ClueWeb22Format)
  : list (string * Z) :=
  map (fun '(file_id, count) =>
         (shard_file_path (docs_path docs) format_type (FileId.path file_id),
          count))
    (record_counts order docs format_type).

(** ** The slice planner *)

Section Planner.

(** The type of decoded records of the format at hand. *)
Variable R : Type.

(** What a generator of file objects does, in order: it opens a shard, it
    yields a file object from which the format reader decodes [records], or
    it raises. *)
Inductive IOEvent : Type :=
| Opened (path : string)
| YieldedFile (path : string) (records : list R)
| Raised.

(** The shards on disk: the members of the file at a path, in order, each
    with its decoded record.  For a gzip shard these are its gzip members
    (the name is unused); for a ZIP archive they are the entries of
    [namelist()]. *)
Variable disk : string -> list (string * R).

(** [read_records]: the records decoded from the files a generator yields. *)
Fixpoint read_records (events : list IOEvent) : list R :=
  match events with
  | [] => []
  | YieldedFile _ records :: rest => (records ++ read_records rest)%list
  | Raised :: _ => []
  | Opened _ :: rest => read_records rest
  end.

Definition opened_paths (events : list IOEvent) : list string :=
  flat_map (fun e => match e with Opened p => [p] | _ => [] end) events.

(** [range(count)]. *)
Definition range (count : Z) : list Z :=
  map Z.of_nat (seq 0 (Z.to_nat count)).

(** [enumerate(l, start)] and [enumerate(l)]. *)
Fixpoint enumerate_from {X : Type} (start : Z) (l : list X) : list (Z * X) :=
  match l with
  | [] => []
  | x :: rest => (start, x) :: enumerate_from (start + 1) rest
  end.

Definition enumerate {X : Type} (l : list X) : list (Z * X) :=
  enumerate_from 0 l.

(** Modelled from the spec: [OffsetIOWrapper.from_offsets], whose module
    [ir_datasets_clueweb22.io] is not part of the sources at hand.  The
    wrapped file presents the members at the included indices, in sorted
    order of the indices, so the gzip decoder yields exactly those records
    in that order. *)
Definition offset_select (members : list (string * R)) (indices : list Z)
  : list R :=
  map (fun '(_, m) => snd m)
    (filter (fun '(i, _) => existsb (Z.eqb i) indices) (enumerate members)).

(** [in_slice]. *)
Definition in_slice (start stop step index : Z) : bool :=
  if negb ((start <=? index) && (index <? stop)) then false
  else (index - start) mod step =? 0.

(** [overlaps_slice]. *)
Definition overlaps_slice (start stop index_start index_end : Z) : bool :=
  Z.max index_start start <? Z.min index_end stop.

(** The local indices of a shard the slice selects: the set comprehension
    over [range(count)]. *)
Definition file_indices (start stop step index_offset count : Z) : list Z :=
  filter (fun file_index => in_slice start stop step (index_offset + file_index))
    (range count).

(** The generator of [_file_iterator_all].  A gzip shard is read through
    from its first offset, which yields all its records; of a ZIP archive
    every member with the inner extension is yielded. *)
Fixpoint file_iterator_all (format_type : ClueWeb22Format)
  (file_paths : list (string * Z)) : list IOEvent :=
  match file_paths with
  | [] => []
  | (file_path, _) :: rest =>
      Opened file_path ::
      match Format.compression format_type,
            Format.compression_extension format_type with
      | Is GZIP, PyNone =>
          YieldedFile file_path (map snd (disk file_path))
          :: file_iterator_all format_type rest
      | Is ZIP, Is compression_extension =>
          (map (fun m => YieldedFile file_path [snd m])
             (filter (fun m => PyStr.endswith compression_extension (fst m))
                (disk file_path))
           ++ file_iterator_all format_type rest)%list
      | _, _ => [Raised]
      end
  end.

(** The generator of [_file_iterator_slice]; [index_offset] is the loop's
    running variable. *)
Fixpoint file_iterator_slice (format_type : ClueWeb22Format)
  (start stop step : Z) (file_paths : list (string * Z)) (index_offset : Z)
  : list IOEvent :=
  match file_paths with
  | [] => []
  | (file_path, count) :: rest =>
      if negb (overlaps_slice start stop index_offset (index_offset + count))
      then file_iterator_slice format_type start stop step rest
             (index_offset + count)
      else
        Opened file_path ::
        match Format.compression format_type,
              Format.compression_extension format_type with
        | Is GZIP, PyNone =>
            let indices := file_indices start stop step index_offset count in
            if (List.length indices =? 0)%nat
            then file_iterator_slice format_type start stop step rest
                   index_offset
            else
              YieldedFile file_path (offset_select (disk file_path) indices)
              :: file_iterator_slice format_type start stop step rest
                   (index_offset + count)
        | Is ZIP, Is _ =>
            (map (fun '(_, m) => YieldedFile file_path [snd m])
               (filter (fun '(index, _) =>
                          in_slice start stop step (index_offset + index))
                  (enumerate (disk file_path)))
             ++ file_iterator_slice format_type start stop step rest
                  (index_offset + count))%list
        | _, _ => [Raised]
        end
  end.

(** The records the full iteration decodes for a format. *)
Definition iterate_records (format_type : ClueWeb22Format)
  (file_paths : list (string * Z)) : list R :=
  read_records (file_iterator_all format_type file_paths).

(** The records [__getitem__] decodes for a format and a slice whose
    normalised bounds are [start], [stop] and [step]. *)
Definition getitem_records (format_type : ClueWeb22Format)
  (start stop step : Z) (file_paths : list (string * Z)) : list R :=
  read_records (file_iterator_slice format_type start stop step file_paths 0).

(** As the claim words it: every [step]-th element of [full] among the
    positions in [[start, stop)], counted from [start]. *)
Definition spec_every_step (full : list R) (start stop step : Z) : list R :=
  map snd
    (filter (fun '(i, _) =>
               (start <=? i) && (i <? stop) && ((i - start) mod step =? 0))
       (enumerate full)).

(** As the claim words it: the shard is opened if and only if its set of
    selected local indices is not empty. *)
Definition spec_opened (start stop step running count : Z) : bool :=
  negb (List.length (file_indices start stop step running count) =? 0)%nat.

End Planner.

Arguments Opened {R} _.
Arguments YieldedFile {R} _ _.
Arguments Raised {R}.

(** ** Lookup by identifier *)

(** [itertools.groupby]: one group per maximal run of consecutive elements
    with the same key. *)
Fixpoint groupby {X : Type} (key : X -> string) (l : list X)
  : list (string * list X) :=
  match l with
  | [] => []
  | x :: rest =>
      match groupby key rest with
      | (k, g) :: gs =>
          if String.eqb (key x) k then (k, x :: g) :: gs
          else (key x, [x]) :: (k, g) :: gs
      | [] => [(key x, [x])]
      end
  end.

(** The set comprehension of [get_many_iter]: the parsed identifiers in the
    order they are added to the set; [None] when one does not parse. *)
Fixpoint typed_doc_ids (doc_ids : list string) : option (list DocId.t) :=
  match doc_ids with
  | [] => Some []
  | doc_id :: rest =>
      match DocId.from_string doc_id, typed_doc_ids rest with
      | Some d, Some ds => Some (d :: ds)
      | _, _ => None
      end
  end.

(** [ClueWeb22Docstore._file_paths] over the identifiers in the order the
    set hands them out; [None] is the [ValueError] of the language filter. *)
Definition docstore_file_paths (docs : ClueWeb22Docs)
  (format_type : ClueWeb22Format) (doc_ids : list DocId.t)
  : option (list (string * list DocId.t)) :=
  let invalid_doc_ids :=
    match _language docs with
    | Some l =>
        filter (fun d => str_neq (DocId.language d) (Language.id l)) doc_ids
    | None => []
    end in
  if (0 <? List.length invalid_doc_ids)%nat then None
  else
    Some (groupby
            (fun d => shard_file_path (docs_path docs) format_type (DocId.path d))
            doc_ids).

Section Docstore.

Variable R : Type.
Variable disk : string -> list (string * R).

(** [ZipFile.open(name)]: the entry registered last under the name. *)
Definition zip_member (entries : list (string * R)) (name : string)
  : option R :=
  option_map snd (find (fun m => String.eqb (fst m) name) (rev entries)).

Fixpoint yield_members (path : string) (members : list (option R))
  : list (IOEvent R) :=
  match members with
  | [] => []
  | Some r :: rest => YieldedFile path [r] :: yield_members path rest
  | None :: _ => [Raised]
  end.

(** The generator of [ClueWeb22Docstore._file_iterator] over the groups of
    [_file_paths]. *)
Fixpoint docstore_file_iterator (names_order : SetOrder string)
  (format_type : ClueWeb22Format) (groups : list (string * list DocId.t))
  : list (IOEvent R) :=
  match groups with
  | [] => []
  | (file_path, file_path_doc_ids) :: rest =>
      Opened file_path ::
      match Format.compression format_type,
            Format.compression_extension format_type with
      | Is GZIP, PyNone =>
          YieldedFile file_path
            (offset_select R (disk file_path)
               (map DocId.doc file_path_doc_ids))
          :: docstore_file_iterator names_order format_type rest
      | Is ZIP, Is compression_extension =>
          let names :=
            iter names_order
              (map (fun d => DocId.to_string d ++ compression_extension)
                 file_path_doc_ids) in
          let namelist := map fst (disk file_path) in
          if forallb (fun n => existsb (String.eqb n) namelist) names
          then
            (yield_members file_path
               (map (zip_member (disk file_path)) names)
             ++ docstore_file_iterator names_order format_type rest)%list
          else [Raised]
      | _, _ => [Raised]
      end
  end.

(** [get_many_iter] for one format: the events of the generator that
    [_ClueWeb22Iterable] drives, or [None] when the call itself raises. *)
Definition get_many_events (ids_order : SetOrder DocId.t)
  (names_order : SetOrder string) (docs : ClueWeb22Docs)
  (format_type : ClueWeb22Format) (doc_ids : list string)
  : option (list (IOEvent R)) :=
  match typed_doc_ids doc_ids with
  | None => None
  | Some ids =>
      match docstore_file_paths docs format_type (iter ids_order ids) with
      | None => Some [Raised]
      | Some groups =>
          Some (docstore_file_iterator names_order format_type groups)
      end
  end.

End Docstore.

(** ** Notions used in the statements *)






(** The order of a sequence kept when elements are dropped from it. *)
Inductive Subseq {X : Type} : list X -> list X -> Prop :=
| Subseq_nil : Subseq [] []
| Subseq_skip : forall xs y ys, Subseq xs ys -> Subseq xs (y :: ys)
| Subseq_take : forall x xs ys, Subseq xs ys -> Subseq (x :: xs) (x :: ys).

(** As the claim words it: the pairs of the diff catalog whose file also
    occurs in the broader catalog. *)
Definition spec_record_counts (diff broader : list (FileId.t * Z))
  : list (FileId.t * Z) :=
  filter (fun '(diff_file_id, _) =>
            existsb (fun '(file_id, _) => FileId.eqb file_id diff_file_id)
              broader)
    diff.

(** Where the fields of an A or B document come from. *)
Definition a_doc_of (d : ADoc.t) (t : Aligned) : Prop :=
  let '(txt, html, inlink, outlink, vdom) := t in
  ADoc.doc_id d = Html.doc_id html
  /\ ADoc.url d = Html.url html
  /\ ADoc.url_hash d = Html.url_hash html
  /\ ADoc.language d = Html.language html
  /\ ADoc.date d = Html.date html
  /\ ADoc.html d = Html.html html
  /\ ADoc.record_id d = Html.record_id html
  /\ ADoc.payload_digest d = Html.payload_digest html
  /\ ADoc.vdom_nodes d = Html.vdom_nodes html
  /\ ADoc.text d = Txt.text txt
  /\ (inlink = None -> ADoc.inlink_anchors d = [])
  /\ (outlink = None -> ADoc.outlink_anchors d = []).

Definition b_doc_of (d : BDoc.t) (t : Aligned) : Prop :=
  let '(txt, html, inlink, outlink, vdom) := t in
  BDoc.doc_id d = Html.doc_id html
  /\ BDoc.url d = Html.url html
  /\ BDoc.url_hash d = Html.url_hash html
  /\ BDoc.language d = Html.language html
  /\ BDoc.date d = Html.date html
  /\ BDoc.html d = Html.html html
  /\ BDoc.record_id d = Html.record_id html
  /\ BDoc.payload_digest d = Html.payload_digest html
  /\ BDoc.vdom_nodes d = Html.vdom_nodes html
  /\ BDoc.text d = Txt.text txt
  /\ (inlink = None -> BDoc.inlink_anchors d = [])
  /\ (outlink = None -> BDoc.outlink_anchors d = []).

(** The assertions that precede the language assertion pass. *)
Definition reaches_language_check (txt : Txt.t) (html : Html.t) : Prop :=
  Txt.doc_id txt = Html.doc_id html
  /\ (Txt.url txt = Html.url html \/ truncated_url_check txt html = true).

(** ** Sample data used by the examples *)

Module Sample.

Definition txt (lang : string) : Txt.t :=
  Txt.mk "clueweb22-de0000-00-00366" "https://www.anisearch.de/manga/43556"
    "9D5A53C6ACCB07B2C2319A4E5E44AB76" lang "Verrueckt nach dir".

Definition html : Html.t :=
  Html.mk "clueweb22-de0000-00-00366"
    "https://www.anisearch.de/manga/43556,verrueckt-nach-dir"
    "B6956297B5EBBDFEAABF458F2FA5EADC" "de"
    (mk_datetime 2022 8 25 10 30 0 0) (mk_UUID 42) "sha1:ABC" []
    [(NONE, []); (PRIMARY, [3; 4]); (HEADING, []); (TITLE, [1]);
     (PARAGRAPH, []); (TABLE, []); (LIST, [])].

Definition vdom : Vdom.t := Vdom.mk [].

Definition tuple (lang : string) : Aligned :=
  (txt lang, html, None, None, vdom).

(** Three gzip shards holding eight records. *)
Definition files : list (string * Z) :=
  [("txt/en/en00/en0000/en0000-00.json.gz", 3);
   ("txt/en/en00/en0000/en0000-01.json.gz", 2);
   ("txt/en/en00/en0000/en0000-02.json.gz", 3)].

Definition disk (p : string) : list (string * string) :=
  if String.eqb p "txt/en/en00/en0000/en0000-00.json.gz"
  then [("", "doc0"); ("", "doc1"); ("", "doc2")]
  else if String.eqb p "txt/en/en00/en0000/en0000-01.json.gz"
  then [("", "doc3"); ("", "doc4")]
  else if String.eqb p "txt/en/en00/en0000/en0000-02.json.gz"
  then [("", "doc5"); ("", "doc6"); ("", "doc7")]
  else [].

Definition f1 : FileId.t := FileId.mk "en" 0 0 0.
Definition f2 : FileId.t := FileId.mk "en" 0 0 1.

(** A reader whose TXT catalog lacks a file that its other catalogs list. *)
Definition docs_missing : ClueWeb22Docs :=
  mkDocs "/data" A A None
    (fun f => match f with
              | TXT => [(f2, 5)]
              | _ => [(f1, 1); (f2, 2)]
              end).

(** A reader whose TXT catalog lists more files than its other catalogs. *)
Definition docs_broader : ClueWeb22Docs :=
  mkDocs "/data" A L None
    (fun f => match f with
              | TXT => [(f1, 1); (FileId.mk "en" 0 0 7, 9); (f2, 2)]
              | _ => [(f1, 1); (f2, 2)]
              end).


End Sample.

(** ** Identifiers in the form [__str__] writes them *)

(** The numeric fields are written as [__str__] pads them: two digits each
    for stream, subdirectory and file, and for the document number five
    digits, or more without a leading zero. *)
Definition canonical_doc_id (s : string) : bool :=
  match PyStr.split "-" s with
  | [_; subdirectory; file; doc_index] =>
      PyStr.all_digits (PyStr.slice (Some (-4)) None subdirectory)
      && PyStr.all_digits file
      && (String.length file =? 2)%nat
      && PyStr.all_digits doc_index
      && ((String.length doc_index =? 5)%nat
          || ((5 <? String.length doc_index)%nat
              && negb (PyStr.startswith "0" doc_index)))
  | _ => false
  end.

(** The identifiers of the data model: a known language and numeric
    components in range. *)
Definition in_range (d : DocId.t) : Prop :=
  (exists l, DocId.language d = Language.id l)
  /\ 0 <= DocId.stream d <= 99
  /\ 0 <= DocId.subdirectory d <= 79
  /\ 0 <= DocId.file d <= 99
  /\ 0 <= DocId.doc d.

(** ** Dataset identifiers and registration *)

(** The arguments of the [ClueWeb22Docs] constructor that name a dataset;
    the download source is left out. *)
Record DocsArgs : Type := mkDocsArgs {
  arg_name : string;
  arg_subset : ClueWeb22Subset;
  arg_subset_view : ClueWeb22Subset;
  arg_language : option ClueWeb22Language
}.

(** [ClueWeb22Docs.__init__]: [None] is the failed assertion
    [subset_view in subset.subset_views]. *)
Definition new_docs (name : string) (subset subset_view : ClueWeb22Subset)
  (language : option ClueWeb22Language) : option DocsArgs :=
  if in_dec Subset.eq_dec subset_view (Subset.subset_views subset)
  then Some (mkDocsArgs name subset subset_view language)
  else None.

(** [docs_namespace]. *)
Definition docs_namespace (d : DocsArgs) : string :=
  PyStr.join "/"
    (app [arg_name d; Subset.tag (arg_subset d)]
       (app
          (if Subset.eq_dec (arg_subset_view d) (arg_subset d) then []
           else ["as-" ++ Subset.tag (arg_subset_view d)])
          match arg_language d with
          | Some l => [Language.tag l]
          | None => []
          end)).

(** [docs_lang]. *)
Definition docs_lang (d : DocsArgs) : option string :=
  option_map Language.tag (arg_language d).

(** A call [registry.register(id, Dataset(documentation, docs))]: the
    identifier and the reader registered under it, if any. *)
Definition Registration : Type := (string * option DocsArgs)%type.

Fixpoint sequence {X : Type} (l : list (option X)) : option (list X) :=
  match l with
  | [] => Some []
  | Some x :: rest => option_map (cons x) (sequence rest)
  | None :: _ => None
  end.

Definition registration (id : string) (docs : option DocsArgs)
  : option Registration :=
  option_map (fun d => (id, Some d)) docs.

(** The calls of [register] for one subset view of a subset, with the
    tag the loop has built for it. *)
Definition register_view (tag : string) (subset subset_view : ClueWeb22Subset)
  : list (option Registration) :=
  registration ("clueweb22/" ++ tag)
    (new_docs "clueweb22" subset subset_view None)
  :: map (fun language =>
            registration ("clueweb22/" ++ tag ++ "/" ++ Language.tag language)
              (new_docs "clueweb22" subset subset_view (Some language)))
       Language.all.

(** [register]: the calls to [registry.register] in order, [None] when an
    exception ends the function.  [registered] tells whether ["clueweb22"]
    is in the registry already; [order] is the iteration order of the set
    [subset.subset_views - {subset}]. *)
Definition register (order : SetOrder ClueWeb22Subset) (registered : bool)
  : option (list Registration) :=
  if registered then Some []
  else
    sequence
      (Some ("clueweb22", None)
       :: flat_map
            (fun subset =>
               if Subset.hide subset then []
               else
                 app (register_view (Subset.tag subset) subset subset)
                   (flat_map
                      (fun subset_view =>
                         register_view
                           (Subset.tag subset ++ "/as-"
                            ++ Subset.tag subset_view)
                           subset subset_view)
                      (iter order
                         (remove Subset.eq_dec subset
                            (Subset.subset_views subset)))))
            Subset.all).

(** ** The version file *)



(** ** Rows of the record-count catalog *)

(** The body of the loops of [_record_counts] for one row of the CSV file
    named [counts_file_name]: the file identifier and the count of the row.
    [None] stands for the failed assertion and for the exceptions of
    unpacking and of [int]. *)
Definition counts_row (counts_file_name : string) (row : list string)
  : option (FileId.t * Z) :=
  if negb (PyStr.endswith "_counts.csv" counts_file_name) then None
  else
    let tag := PyStr.slice None (Some (-11)) counts_file_name in
    let language := PyStr.slice None (Some (-2)) tag in
    match PyStr.int (PyStr.slice (Some (-2)) None tag) with
    | None => None
    | Some stream =>
        match row with
        | [file_name; count] =>
            match PyStr.split "-" file_name with
            | [subdirectory_tag; file_tag] =>
                match PyStr.int file_tag,
                      PyStr.int (PyStr.slice (Some (-2)) None subdirectory_tag),
                      PyStr.int count with
                | Some file_no, Some subdirectory, Some n =>
                    Some (FileId.mk language stream subdirectory file_no, n)
                | _, _, _ => None
                end
            | _ => None
            end
        | _ => None
        end
    end.

(** ** File identifiers from paths *)

(** [ClueWeb22FileId.from_path], given the [parts] of the path; [None]
    stands for the [IndexError] of a missing part and for the exceptions of
    [int]. *)
Definition FileId_from_path (parts : list string) : option FileId.t :=
  match rev parts with
  | name :: subdirectory_part :: stream_part :: language :: _ =>
      match PyStr.int (PyStr.slice (Some (-2)) None stream_part),
            PyStr.int (PyStr.slice (Some (-2)) None subdirectory_part),
            match PyStr.split "." name with
            | stem :: _ =>
                match PyStr.split "-" stem with
                | _ :: file_tag :: _ => PyStr.int file_tag
                | _ => None
                end
            | [] => None
            end with
      | Some stream, Some subdirectory, Some file =>
          Some (FileId.mk language stream subdirectory file)
      | _, _, _ => None
      end
  | _ => None
  end.

(** ** Records that belong together *)

(** A link record is either missing or carries the identifier of the HTML
    record. *)
Definition link_ok (html : Html.t) (link : option Link.t) : Prop :=
  match link with
  | Some l => Link.doc_id l = Html.doc_id html
  | None => True
  end.

(** The records of a tuple agree on the identifier, on the URL (up to the
    part of the HTML record's URL after its first comma) and on the
    language (unless the TXT record says ["other"]). *)
Definition consistent (t : Aligned) : Prop :=
  let '(txt, html, inlink, outlink, _) := t in
  Txt.doc_id txt = Html.doc_id html
  /\ (Txt.url txt = Html.url html
      \/ (PyStr.contains_char "," (Txt.url txt) = false
          /\ exists rest, Html.url html = Txt.url txt ++ "," ++ rest))
  /\ (Txt.language txt = "other" \/ Txt.language txt = Html.language html)
  /\ link_ok html inlink
  /\ link_ok html outlink.

(** ** Archives that agree with the catalog *)

(** The archives list as many members as the catalog counts, all of them
    with the inner extension of the format. *)
Definition archives_as_counted (R : Type) (disk : string -> list (string * R))
  (inner : string) (file_paths : list (string * Z)) : Prop :=
  forall p c, In (p, c) file_paths ->
    Z.of_nat (List.length (disk p)) = c
    /\ forall m, In m (disk p) -> PyStr.endswith inner (fst m) = true.

(** ** Further sample data *)

(** Two ZIP archives of the VDOM format holding five records. *)
Definition zip_files : list (string * Z) :=
  [("vdom/en/en00/en0000/en0000-00.zip", 2);
   ("vdom/en/en00/en0000/en0000-01.zip", 3)].

Definition zip_disk (p : string) : list (string * string) :=
  if String.eqb p "vdom/en/en00/en0000/en0000-00.zip"
  then [("clueweb22-en0000-00-00000.bin", "v0");
        ("clueweb22-en0000-00-00001.bin", "v1")]
  else if String.eqb p "vdom/en/en00/en0000/en0000-01.zip"
  then [("clueweb22-en0000-01-00000.bin", "v2");
        ("clueweb22-en0000-01-00001.bin", "v3");
        ("clueweb22-en0000-01-00002.bin", "v4")]
  else [].

(** The shards of [Sample.disk] as TXT records. *)
Definition txt_disk (p : string) : list (string * Txt.t) :=
  map (fun m => (fst m, Txt.mk (snd m) "https://example.org" "00" "en" (snd m)))
    (Sample.disk p).

(** ** Documents of the L view *)

(** [_ClueWeb22Iterable.__iter__] for the L view, whose only format is TXT:
    the records read from the files of the file iterator go through
    [_combine_l_docs].  [iter_l_docs] is the full iteration of [docs_iter],
    [getitem_l_docs] the slice of [__getitem__]. *)
Definition iter_l_docs (disk : string -> list (string * Txt.t))
  (file_paths : list (string * Z)) : list LDoc.t :=
  _combine_l_docs (iterate_records Txt.t disk TXT file_paths).

Definition getitem_l_docs (disk : string -> list (string * Txt.t))
  (start stop step : Z) (file_paths : list (string * Z)) : list LDoc.t :=
  _combine_l_docs (getitem_records Txt.t disk TXT start stop step file_paths).

(* ===================================================================== *)
(** * Part II: properties *)
(* ===================================================================== *)

(** ** Python string primitives *)

Lemma str_app_assoc (a b c : string) : ((a ++ b) ++ c = a ++ (b ++ c))%string.
Proof. induction a as [|x a IH]; simpl; [reflexivity|rewrite IH; reflexivity]. Qed.

Lemma str_app_nil_r (a : string) : (a ++ "")%string = a.
Proof. induction a as [|x a IH]; simpl; [reflexivity|rewrite IH; reflexivity]. Qed.

Lemma str_length_app (a b : string) :
  String.length (a ++ b) = (String.length a + String.length b)%nat.
Proof. induction a as [|x a IH]; simpl; [reflexivity|rewrite IH; reflexivity]. Qed.

Lemma take_drop (n : nat) (s : string) : (PyStr.take n s ++ PyStr.drop n s)%string = s.
Proof.
  revert s. induction n as [|n IH]; intros [|c r]; simpl; try reflexivity.
  rewrite IH. reflexivity.
Qed.

Lemma take_app_length (a b : string) : PyStr.take (String.length a) (a ++ b) = a.
Proof. induction a as [|x a IH]; simpl; [destruct b|rewrite IH]; reflexivity. Qed.

Lemma drop_app_length (a b : string) : PyStr.drop (String.length a) (a ++ b) = b.
Proof. induction a as [|x a IH]; simpl; [destruct b; reflexivity|exact IH]. Qed.

Lemma take_all (s : string) (n : nat) :
  (String.length s <= n)%nat -> PyStr.take n s = s.
Proof.
  revert n. induction s as [|c r IH]; intros [|n] H; simpl in *; try reflexivity.
  - lia.
  - rewrite IH by lia. reflexivity.
Qed.

Lemma length_take (n : nat) (s : string) :
  String.length (PyStr.take n s) = Nat.min n (String.length s).
Proof.
  revert s. induction n as [|n IH]; intros [|c r]; simpl; try reflexivity.
  rewrite IH. reflexivity.
Qed.

Lemma length_drop (n : nat) (s : string) :
  String.length (PyStr.drop n s) = (String.length s - n)%nat.
Proof.
  revert s. induction n as [|n IH]; intros [|c r]; simpl; try reflexivity.
  apply IH.
Qed.



(** *** Slices with negative bounds *)

Lemma slice_drop_suffix (a b : string) (k : nat) :
  String.length b = k -> (0 < k)%nat ->
  PyStr.slice None (Some (- Z.of_nat k)) (a ++ b) = a.
Proof.
  intros Hb Hk. unfold PyStr.slice, PyStr.norm_index, PyStr.len.
  rewrite str_length_app, Hb.
  destruct (- Z.of_nat k <? 0) eqn:E; [|apply Z.ltb_ge in E; lia].
  simpl PyStr.drop.
  replace (Z.to_nat (Z.max 0 (Z.of_nat (String.length a + k) + - Z.of_nat k) - 0))
    with (String.length a) by lia.
  apply take_app_length.
Qed.

Lemma slice_keep_suffix (a b : string) (k : nat) :
  String.length b = k -> (0 < k)%nat ->
  PyStr.slice (Some (- Z.of_nat k)) None (a ++ b) = b.
Proof.
  intros Hb Hk. unfold PyStr.slice, PyStr.norm_index, PyStr.len.
  rewrite str_length_app, Hb.
  destruct (- Z.of_nat k <? 0) eqn:E; [|apply Z.ltb_ge in E; lia].
  replace (Z.to_nat (Z.max 0 (Z.of_nat (String.length a + k) + - Z.of_nat k)))
    with (String.length a) by lia.
  rewrite drop_app_length. apply take_all. lia.
Qed.

Lemma slice_middle (a b c : string) (k j : nat) :
  String.length c = j -> (0 < j)%nat ->
  (String.length b + j = k)%nat ->
  PyStr.slice (Some (- Z.of_nat k)) (Some (- Z.of_nat j)) (a ++ b ++ c) = b.
Proof.
  intros Hc Hj Hk. unfold PyStr.slice, PyStr.norm_index, PyStr.len.
  rewrite !str_length_app, Hc.
  destruct (- Z.of_nat k <? 0) eqn:E; [|apply Z.ltb_ge in E; lia].
  destruct (- Z.of_nat j <? 0) eqn:E'; [|apply Z.ltb_ge in E'; lia].
  replace (Z.to_nat (Z.max 0 (Z.of_nat (String.length a + (String.length b + j))
                              + - Z.of_nat k)))
    with (String.length a) by lia.
  rewrite drop_app_length.
  match goal with
  | |- PyStr.take ?n _ = _ => replace n with (String.length b) by lia
  end.
  apply take_app_length.
Qed.

(** A string of at least four characters is its three slices put together. *)
Lemma slice_partition (s : string) :
  (4 <= String.length s)%nat ->
  exists a b c,
    s = (a ++ b ++ c)%string
    /\ String.length b = 2%nat /\ String.length c = 2%nat
    /\ PyStr.slice None (Some (-4)) s = a
    /\ PyStr.slice (Some (-4)) (Some (-2)) s = b
    /\ PyStr.slice (Some (-2)) None s = c
    /\ PyStr.slice (Some (-4)) None s = (b ++ c)%string.
Proof.
  intros H.
  set (n := (String.length s - 4)%nat).
  set (a := PyStr.take n s). set (t := PyStr.drop n s).
  set (b := PyStr.take 2 t). set (c := PyStr.drop 2 t).
  assert (Hs : s = (a ++ b ++ c)%string).
  { unfold a, b, c, t. rewrite take_drop, take_drop. reflexivity. }
  assert (Ht : String.length t = 4%nat) by (unfold t; rewrite length_drop; lia).
  assert (Hb : String.length b = 2%nat) by (unfold b; rewrite length_take; lia).
  assert (Hc : String.length c = 2%nat) by (unfold c; rewrite length_drop; lia).
  clearbody a b c. clear Ht. clear t. clear n. subst s.
  exists a, b, c. repeat split; try assumption.
  - change (-4) with (- Z.of_nat 4). apply slice_drop_suffix; [|lia].
    rewrite str_length_app. lia.
  - change (-4) with (- Z.of_nat 4). change (-2) with (- Z.of_nat 2).
    apply slice_middle; lia.
  - change (-2) with (- Z.of_nat 2). rewrite <- str_app_assoc.
    apply slice_keep_suffix; lia.
  - change (-4) with (- Z.of_nat 4). apply slice_keep_suffix; [|lia].
    rewrite str_length_app. lia.
Qed.

(** *** [split] and [join] *)

Lemma split_not_nil (sep : ascii) (s : string) : PyStr.split sep s <> [].
Proof.
  destruct s as [|c r]; simpl; [discriminate|].
  destruct (Ascii.eqb c sep); [discriminate|].
  destruct (PyStr.split sep r); discriminate.
Qed.

Lemma join_cons (sep p : string) (rest : list string) :
  rest <> [] ->
  PyStr.join sep (p :: rest) = (p ++ sep ++ PyStr.join sep rest)%string.
Proof. destruct rest; [congruence|reflexivity]. Qed.

Lemma join_split (sep : ascii) (s : string) :
  PyStr.join (String sep "") (PyStr.split sep s) = s.
Proof.
  induction s as [|c r IH]; [reflexivity|].
  simpl PyStr.split. destruct (Ascii.eqb c sep) eqn:E.
  - apply Ascii.eqb_eq in E. subst c.
    rewrite join_cons by apply split_not_nil. rewrite IH. reflexivity.
  - pose proof (split_not_nil sep r) as Hne.
    destruct (PyStr.split sep r) as [|h t]; [congruence|].
    destruct t as [|h' t'].
    + simpl in *. rewrite IH. reflexivity.
    + rewrite join_cons by discriminate.
      rewrite join_cons in IH by discriminate.
      simpl. rewrite <- IH. reflexivity.
Qed.

Lemma split_no_sep (sep : ascii) (s : string) :
  PyStr.contains_char sep s = false -> PyStr.split sep s = [s].
Proof.
  induction s as [|c r IH]; simpl; [reflexivity|].
  intros H. apply orb_false_iff in H. destruct H as [Hc Hr].
  rewrite Hc, (IH Hr). reflexivity.
Qed.

Lemma split_app_sep (sep : ascii) (a b : string) :
  PyStr.split sep (a ++ String sep b)
  = (PyStr.split sep a ++ PyStr.split sep b)%list.
Proof.
  induction a as [|c a IH]; simpl.
  - rewrite Ascii.eqb_refl. reflexivity.
  - destruct (Ascii.eqb c sep).
    + rewrite IH. reflexivity.
    + rewrite IH. pose proof (split_not_nil sep a) as Hne.
      destruct (PyStr.split sep a) as [|h t]; [congruence|]. reflexivity.
Qed.

Lemma contains_char_app (c : ascii) (a b : string) :
  PyStr.contains_char c (a ++ b)
  = PyStr.contains_char c a || PyStr.contains_char c b.
Proof.
  induction a as [|x a IH]; simpl; [reflexivity|].
  rewrite IH, orb_assoc. reflexivity.
Qed.

Lemma last_app_not_nil {X : Type} (l1 l2 : list X) (d : X) :
  l2 <> [] -> last (l1 ++ l2) d = last l2 d.
Proof.
  intros H. induction l1 as [|x l1 IH]; [reflexivity|].
  simpl. destruct (l1 ++ l2)%list eqn:E.
  - destruct l1; [simpl in E; congruence|discriminate].
  - exact IH.
Qed.

(** *** Paths *)

Lemma path_name_after_sep (a b : string) :
  PyStr.path_name (a ++ String "/" b) = PyStr.path_name b.
Proof.
  unfold PyStr.path_name. rewrite split_app_sep.
  apply last_app_not_nil, split_not_nil.
Qed.

Lemma path_name_no_sep (s : string) :
  PyStr.contains_char "/" s = false -> PyStr.path_name s = s.
Proof. intros H. unfold PyStr.path_name. rewrite split_no_sep by exact H. reflexivity. Qed.

Lemma split_app_no_sep (sep : ascii) (a e : string) :
  PyStr.contains_char sep e = false ->
  exists init l,
    PyStr.split sep a = (init ++ [l])%list
    /\ PyStr.split sep (a ++ e) = (init ++ [(l ++ e)%string])%list.
Proof.
  intros He. induction a as [|c a IH].
  - exists [], "". simpl. rewrite split_no_sep by exact He. auto.
  - destruct IH as (init & l & H1 & H2). simpl.
    destruct (Ascii.eqb c sep).
    + exists ("" :: init), l. rewrite H1, H2. auto.
    + rewrite H1, H2. destruct init as [|i init]; simpl.
      * exists [], (String c l). auto.
      * exists (String c i :: init), l. auto.
Qed.

Lemma path_name_app_no_sep (a e : string) :
  PyStr.contains_char "/" e = false ->
  PyStr.path_name (a ++ e) = (PyStr.path_name a ++ e)%string.
Proof.
  intros He. unfold PyStr.path_name.
  destruct (split_app_no_sep "/" a e He) as (init & l & H1 & H2).
  rewrite H1, H2, !last_app_not_nil by discriminate. reflexivity.
Qed.

Lemma path_name_suffix (p : string) :
  exists dir, p = (dir ++ PyStr.path_name p)%string.
Proof.
  induction p as [|c p IH].
  - exists "". reflexivity.
  - destruct IH as (dir & Hd). unfold PyStr.path_name in *. simpl.
    pose proof (split_not_nil "/" p) as Hne.
    destruct (Ascii.eqb c "/") eqn:E.
    + exists (String c dir).
      change ("" :: PyStr.split "/" p) with ([""] ++ PyStr.split "/" p)%list.
      rewrite last_app_not_nil by exact Hne. simpl. rewrite <- Hd. reflexivity.
    + destruct (PyStr.split "/" p) as [|h t] eqn:Es; [congruence|].
      destruct t as [|x t].
      * simpl in *. exists "". simpl. f_equal.
        pose proof (join_split "/" p) as Hj. rewrite Es in Hj. simpl in Hj.
        symmetry. exact Hj.
      * exists (String c dir). simpl in *. f_equal. exact Hd.
Qed.

Lemma prefix_app (p s : string) :
  String.prefix p s = true -> exists r, s = (p ++ r)%string.
Proof.
  revert s. induction p as [|c p IH]; intros s H.
  - exists s. reflexivity.
  - destruct s as [|d s]; simpl in H; [discriminate|].
    destruct (ascii_dec c d) as [->|]; [|discriminate].
    destruct (IH s H) as (r & ->). exists r. reflexivity.
Qed.

Lemma endswith_app (suffix s : string) :
  PyStr.endswith suffix s = true -> exists a, s = (a ++ suffix)%string.
Proof.
  unfold PyStr.endswith. intros H. apply andb_true_iff in H.
  destruct H as [H _]. apply String.eqb_eq in H.
  remember (String.length s - String.length suffix)%nat as n eqn:Hn. clear Hn.
  exists (PyStr.take n s). rewrite <- H. symmetry. apply take_drop.
Qed.

Lemma path_name_join2 (a b : string) :
  PyStr.path_name (PyStr.path_join2 a b) = PyStr.path_name b.
Proof.
  unfold PyStr.path_join2.
  destruct (PyStr.startswith "/" b); [reflexivity|].
  destruct (String.eqb a "") eqn:Ea; simpl.
  - apply String.eqb_eq in Ea. subst a. reflexivity.
  - destruct (PyStr.endswith "/" a) eqn:Ee.
    + apply endswith_app in Ee. destruct Ee as (a' & ->).
      rewrite str_app_assoc. simpl. apply path_name_after_sep.
    + apply path_name_after_sep.
Qed.

Lemma prefix_nil (s : string) : String.prefix "" s = true.
Proof. destruct s; reflexivity. Qed.

Lemma path_join2_app (a b e : string) :
  b <> "" ->
  (PyStr.path_join2 a b ++ e)%string = PyStr.path_join2 a (b ++ e).
Proof.
  intros Hb. unfold PyStr.path_join2, PyStr.startswith.
  destruct b as [|c b]; [congruence|]. cbn [String.prefix append].
  rewrite !prefix_nil.
  destruct (ascii_dec "/" c); [reflexivity|].
  destruct (String.eqb a "" || PyStr.endswith "/" a).
  - rewrite str_app_assoc. reflexivity.
  - rewrite str_app_assoc. reflexivity.
Qed.

(** *** Decimal digits *)

Lemma is_digit_cases (c : ascii) :
  PyStr.is_digit c = true ->
  In c ["0"; "1"; "2"; "3"; "4"; "5"; "6"; "7"; "8"; "9"]%char.
Proof.
  intros H.
  destruct c as [b0 b1 b2 b3 b4 b5 b6 b7].
  destruct b0, b1, b2, b3, b4, b5, b6, b7;
    try (vm_compute in H; discriminate H); simpl; tauto.
Qed.

Ltac digit_cases H :=
  apply is_digit_cases in H; simpl in H;
  repeat (destruct H as [H|H]; [subst|]); [..|contradiction].

Lemma digit_value_range (c : ascii) :
  PyStr.is_digit c = true -> 0 <= PyStr.digit_value c <= 9.
Proof. intros H. digit_cases H; vm_compute; split; discriminate. Qed.

Lemma digit_char_value (c : ascii) :
  PyStr.is_digit c = true -> PyStr.digit_char (PyStr.digit_value c) = c.
Proof. intros H. digit_cases H; reflexivity. Qed.

Lemma digit_not_special (c : ascii) :
  PyStr.is_digit c = true ->
  PyStr.is_space c = false
  /\ Ascii.eqb c "+" = false /\ Ascii.eqb c "-" = false
  /\ Ascii.eqb c "/" = false /\ Ascii.eqb c "_" = false.
Proof. intros H. digit_cases H; repeat split; reflexivity. Qed.

Lemma small_cases (d : Z) :
  0 <= d <= 9 ->
  d = 0 \/ d = 1 \/ d = 2 \/ d = 3 \/ d = 4 \/ d = 5 \/ d = 6 \/ d = 7
  \/ d = 8 \/ d = 9.
Proof. lia. Qed.

Lemma digit_char_is_digit (d : Z) :
  0 <= d <= 9 ->
  PyStr.is_digit (PyStr.digit_char d) = true
  /\ PyStr.digit_value (PyStr.digit_char d) = d.
Proof.
  intros H. apply small_cases in H.
  repeat (destruct H as [H|H]; [subst; split; reflexivity|]).
  subst; split; reflexivity.
Qed.

Lemma all_digits_app (a b : string) :
  PyStr.all_digits (a ++ b) = PyStr.all_digits a && PyStr.all_digits b.
Proof.
  induction a as [|c a IH]; simpl; [reflexivity|].
  rewrite IH, andb_assoc. reflexivity.
Qed.

Lemma all_digits_no_char (c : ascii) (s : string) :
  PyStr.is_digit c = false -> PyStr.all_digits s = true ->
  PyStr.contains_char c s = false.
Proof.
  intros Hc. induction s as [|x s IH]; simpl; [reflexivity|].
  intros H. apply andb_true_iff in H. destruct H as [Hx Hs].
  rewrite (IH Hs), orb_false_r. apply Ascii.eqb_neq. intros ->. congruence.
Qed.

Lemma value_from_app (acc : Z) (a b : string) :
  PyStr.value_from acc (a ++ b) = PyStr.value_from (PyStr.value_from acc a) b.
Proof.
  revert acc. induction a as [|c a IH]; intros acc; simpl; [reflexivity|apply IH].
Qed.

Lemma value_from_ge (acc : Z) (s : string) :
  PyStr.all_digits s = true -> 0 <= acc -> acc <= PyStr.value_from acc s.
Proof.
  revert acc. induction s as [|c s IH]; intros acc H Hacc;
    cbn [PyStr.value_from PyStr.all_digits] in *; [lia|].
  apply andb_true_iff in H. destruct H as [Hc Hs].
  pose proof (digit_value_range c Hc).
  assert (H0 : 0 <= 10 * acc + PyStr.digit_value c) by lia.
  specialize (IH (10 * acc + PyStr.digit_value c) Hs H0). lia.
Qed.

Lemma value_from_zeros (k : nat) (s : string) :
  PyStr.value_from 0 (PyStr.repeat_char "0" k ++ s) = PyStr.value_from 0 s.
Proof. induction k as [|k IH]; simpl; [reflexivity|exact IH]. Qed.

Lemma all_digits_zeros (k : nat) : PyStr.all_digits (PyStr.repeat_char "0" k) = true.
Proof. induction k as [|k IH]; simpl; [reflexivity|exact IH]. Qed.

Lemma length_repeat_char (c : ascii) (k : nat) :
  String.length (PyStr.repeat_char c k) = k.
Proof. induction k as [|k IH]; simpl; [reflexivity|rewrite IH; reflexivity]. Qed.

(** *** [int] on strings of digits *)

Lemma digits_acc_all_digits (s : string) (acc : Z) :
  PyStr.all_digits s = true ->
  PyStr.digits_acc s acc true = Some (PyStr.value_from acc s).
Proof.
  revert acc. induction s as [|c s IH]; intros acc H; simpl in *; [reflexivity|].
  apply andb_true_iff in H. destruct H as [Hc Hs]. rewrite Hc. apply IH, Hs.
Qed.

Lemma rstrip_digits (s : string) :
  PyStr.all_digits s = true -> PyStr.rstrip s = s.
Proof.
  induction s as [|c s IH]; simpl; [reflexivity|].
  intros H. apply andb_true_iff in H. destruct H as [Hc Hs].
  rewrite (IH Hs). destruct (digit_not_special c Hc) as (-> & _). reflexivity.
Qed.

Lemma int_digits (s : string) :
  PyStr.all_digits s = true -> s <> "" ->
  PyStr.int s = Some (PyStr.value_from 0 s).
Proof.
  intros H Hne. destruct s as [|c s]; [congruence|].
  pose proof H as H'. simpl in H'. apply andb_true_iff in H'.
  destruct H' as [Hc Hs].
  destruct (digit_not_special c Hc) as (Hsp & Hplus & Hminus & _).
  unfold PyStr.int, PyStr.strip.
  replace (PyStr.lstrip (String c s)) with (String c s)
    by (simpl; rewrite Hsp; reflexivity).
  rewrite rstrip_digits by exact H.
  rewrite Hplus, Hminus. simpl. rewrite Hc.
  apply digits_acc_all_digits, Hs.
Qed.

(** *** [str] and the padded format *)

Lemma log2_tenth (n : Z) (f : nat) :
  10 <= n -> Z.log2 n < Z.of_nat (S f) -> Z.log2 (n / 10) < Z.of_nat f.
Proof.
  intros Hn Hl.
  assert (H0 : 0 < n / 10) by (apply Z.div_str_pos; lia).
  apply Z.log2_lt_pow2; [exact H0|].
  apply Z.log2_lt_pow2 in Hl; [|lia].
  rewrite Nat2Z.inj_succ, Z.pow_succ_r in Hl by lia.
  apply Z.div_lt_upper_bound; lia.
Qed.

Lemma dec_digits_value (fuel : nat) :
  forall n acc,
    0 <= n -> Z.log2 n < Z.of_nat fuel ->
    PyStr.value_from 0 (PyStr.dec_digits fuel n acc) = PyStr.value_from n acc.
Proof.
  induction fuel as [|f IH]; intros n acc Hn Hl.
  - pose proof (Z.log2_nonneg n). lia.
  - cbn [PyStr.dec_digits]. destruct (n <? 10) eqn:E.
    + apply Z.ltb_lt in E. cbn [PyStr.value_from].
      rewrite Z.mod_small by lia.
      rewrite (proj2 (digit_char_is_digit n ltac:(lia))). reflexivity.
    + apply Z.ltb_ge in E.
      rewrite IH; [|apply Z.div_pos; lia|apply log2_tenth; assumption].
      cbn [PyStr.value_from].
      rewrite (proj2 (digit_char_is_digit (n mod 10)
                        ltac:(pose proof (Z.mod_pos_bound n 10); lia))).
      f_equal. pose proof (Z.div_mod n 10). lia.
Qed.

Lemma dec_digits_all_digits (fuel : nat) :
  forall n acc,
    0 <= n -> PyStr.all_digits acc = true ->
    PyStr.all_digits (PyStr.dec_digits fuel n acc) = true.
Proof.
  induction fuel as [|f IH]; intros n acc Hn Hacc; simpl; [exact Hacc|].
  assert (Hd : PyStr.all_digits (String (PyStr.digit_char (n mod 10)) acc) = true).
  { simpl. rewrite Hacc, andb_true_r.
    apply digit_char_is_digit. pose proof (Z.mod_pos_bound n 10). lia. }
  destruct (n <? 10); [exact Hd|].
  apply IH; [apply Z.div_pos; lia|exact Hd].
Qed.

Lemma dec_digits_app (fuel : nat) :
  forall n acc,
    PyStr.dec_digits fuel n acc = (PyStr.dec_digits fuel n "" ++ acc)%string.
Proof.
  induction fuel as [|f IH]; intros n acc; simpl; [reflexivity|].
  destruct (n <? 10); [reflexivity|].
  rewrite IH, (IH _ (String _ "")), str_app_assoc. reflexivity.
Qed.

Lemma dec_digits_fuel (f1 : nat) :
  forall f2 n acc,
    0 <= n -> Z.log2 n < Z.of_nat f1 -> Z.log2 n < Z.of_nat f2 ->
    PyStr.dec_digits f1 n acc = PyStr.dec_digits f2 n acc.
Proof.
  induction f1 as [|f1 IH]; intros f2 n acc Hn H1 H2.
  - pose proof (Z.log2_nonneg n). lia.
  - destruct f2 as [|f2]; [pose proof (Z.log2_nonneg n); lia|].
    simpl. destruct (n <? 10) eqn:E; [reflexivity|].
    apply Z.ltb_ge in E.
    apply IH; [apply Z.div_pos; lia| |]; apply log2_tenth; assumption.
Qed.

Lemma digits_fuel_enough (n : Z) : Z.log2 n < Z.of_nat (PyStr.digits_fuel n).
Proof.
  unfold PyStr.digits_fuel. pose proof (Z.log2_nonneg n). lia.
Qed.

Lemma str_nonneg (n : Z) :
  0 <= n -> PyStr.str n = PyStr.dec_digits (PyStr.digits_fuel n) n "".
Proof.
  intros H. unfold PyStr.str.
  destruct (n <? 0) eqn:E; [apply Z.ltb_lt in E; lia|reflexivity].
Qed.

Lemma dec_digits_S (f : nat) (n : Z) (acc : string) :
  PyStr.dec_digits (S f) n acc
  = if n <? 10 then String (PyStr.digit_char (n mod 10)) acc
    else PyStr.dec_digits f (n / 10) (String (PyStr.digit_char (n mod 10)) acc).
Proof. reflexivity. Qed.

Lemma str_small (n : Z) :
  0 <= n < 10 -> PyStr.str n = String (PyStr.digit_char n) "".
Proof.
  intros H. rewrite str_nonneg by lia. unfold PyStr.digits_fuel.
  rewrite dec_digits_S.
  destruct (n <? 10) eqn:E; [|apply Z.ltb_ge in E; lia].
  rewrite Z.mod_small by lia. reflexivity.
Qed.

Lemma str_step (n : Z) :
  10 <= n ->
  PyStr.str n
  = (PyStr.str (n / 10) ++ String (PyStr.digit_char (n mod 10)) "")%string.
Proof.
  intros H. rewrite !str_nonneg by (try apply Z.div_pos; lia).
  unfold PyStr.digits_fuel at 1. rewrite dec_digits_S.
  destruct (n <? 10) eqn:E; [apply Z.ltb_lt in E; lia|].
  rewrite dec_digits_app. f_equal.
  apply dec_digits_fuel; [apply Z.div_pos; lia| |apply digits_fuel_enough].
  apply log2_tenth; [exact H|]. pose proof (Z.log2_nonneg n). lia.
Qed.

Lemma str_all_digits (n : Z) :
  0 <= n -> PyStr.all_digits (PyStr.str n) = true /\ PyStr.str n <> "".
Proof.
  intros H. rewrite str_nonneg by exact H. split.
  - apply dec_digits_all_digits; [exact H|reflexivity].
  - unfold PyStr.digits_fuel. rewrite dec_digits_S.
    destruct (n <? 10); [discriminate|].
    rewrite dec_digits_app. destruct (PyStr.dec_digits _ _ ""); discriminate.
Qed.

Lemma str_value (n : Z) : 0 <= n -> PyStr.value_from 0 (PyStr.str n) = n.
Proof.
  intros H. rewrite str_nonneg by exact H.
  rewrite dec_digits_value; [reflexivity|exact H|apply digits_fuel_enough].
Qed.

Lemma fmt_all_digits (w : nat) (n : Z) :
  0 <= n ->
  PyStr.all_digits (PyStr.fmt w n) = true
  /\ PyStr.fmt w n <> ""
  /\ (w <= String.length (PyStr.fmt w n))%nat.
Proof.
  intros H. destruct (str_all_digits n H) as [Hd Hne].
  unfold PyStr.fmt, PyStr.pad_left. repeat split.
  - rewrite all_digits_app, all_digits_zeros, Hd. reflexivity.
  - destruct (PyStr.repeat_char "0" _); [exact Hne|discriminate].
  - rewrite str_length_app, length_repeat_char. lia.
Qed.

(** Parsing what the padded format writes gives the number back. *)
Lemma int_fmt (w : nat) (n : Z) : 0 <= n -> PyStr.int (PyStr.fmt w n) = Some n.
Proof.
  intros H. destruct (fmt_all_digits w n H) as (Hd & Hne & _).
  rewrite int_digits by assumption.
  unfold PyStr.fmt, PyStr.pad_left. rewrite value_from_zeros.
  rewrite str_value by exact H. reflexivity.
Qed.

Lemma fmt2_two_digits (n : Z) :
  0 <= n <= 99 ->
  PyStr.fmt 2 n
  = String (PyStr.digit_char (n / 10)) (String (PyStr.digit_char (n mod 10)) "").
Proof.
  intros H. unfold PyStr.fmt, PyStr.pad_left.
  destruct (Z_lt_ge_dec n 10) as [Hs|Hb].
  - rewrite str_small by lia.
    rewrite Z.div_small, Z.mod_small by lia. reflexivity.
  - assert (Hq : 0 <= n / 10 < 10)
      by (split; [apply Z.div_pos; lia|apply Z.div_lt_upper_bound; lia]).
    rewrite str_step by lia. rewrite (str_small (n / 10)) by exact Hq.
    reflexivity.
Qed.

(** *** Writing back a string of digits *)

Lemma dec_digits_value_from (r : string) :
  forall a acc,
    PyStr.all_digits r = true -> 1 <= a ->
    PyStr.dec_digits (PyStr.digits_fuel (PyStr.value_from a r))
      (PyStr.value_from a r) acc
    = PyStr.dec_digits (PyStr.digits_fuel a) a (r ++ acc).
Proof.
  induction r as [|c r IH]; intros a acc H Ha; [reflexivity|].
  cbn [PyStr.all_digits] in H. apply andb_true_iff in H. destruct H as [Hc Hr].
  pose proof (digit_value_range c Hc) as Hv.
  cbn [PyStr.value_from append].
  rewrite IH by (try exact Hr; lia).
  unfold PyStr.digits_fuel at 1. rewrite dec_digits_S.
  destruct (10 * a + PyStr.digit_value c <? 10) eqn:E;
    [apply Z.ltb_lt in E; lia|].
  replace ((10 * a + PyStr.digit_value c) / 10) with a
    by (apply Z.div_unique with (r := PyStr.digit_value c); lia).
  replace ((10 * a + PyStr.digit_value c) mod 10) with (PyStr.digit_value c)
    by (apply Z.mod_unique with (q := a); lia).
  rewrite digit_char_value by exact Hc.
  apply dec_digits_fuel; [lia| |apply digits_fuel_enough].
  rewrite Z2Nat.id by apply Z.log2_nonneg.
  apply Z.lt_le_trans with (m := Z.log2 (2 * a)).
  - rewrite Z.log2_double by lia. lia.
  - apply Z.log2_le_mono. lia.
Qed.

Lemma digit_value_nonzero (c : ascii) :
  PyStr.is_digit c = true -> c <> "0"%char -> 1 <= PyStr.digit_value c <= 9.
Proof.
  intros H Hc. digit_cases H; try congruence; vm_compute; split; discriminate.
Qed.

(** A string of digits that does not start with a zero is what [str] writes
    for the number it denotes. *)
Lemma str_value_from (c : ascii) (r : string) :
  PyStr.all_digits (String c r) = true -> c <> "0"%char ->
  PyStr.str (PyStr.value_from 0 (String c r)) = String c r.
Proof.
  intros H Hc. cbn [PyStr.all_digits] in H. apply andb_true_iff in H.
  destruct H as [Hd Hr]. pose proof (digit_value_nonzero c Hd Hc) as Hv.
  cbn [PyStr.value_from].
  change (10 * 0 + PyStr.digit_value c) with (PyStr.digit_value c).
  rewrite str_nonneg
    by (apply Z.le_trans with (m := PyStr.digit_value c);
        [lia|apply value_from_ge; [exact Hr|lia]]).
  rewrite dec_digits_value_from by (try exact Hr; lia).
  unfold PyStr.digits_fuel. rewrite dec_digits_S.
  destruct (PyStr.digit_value c <? 10) eqn:E; [|apply Z.ltb_ge in E; lia].
  rewrite Z.mod_small by lia. rewrite digit_char_value by exact Hd.
  rewrite str_app_nil_r. reflexivity.
Qed.

Lemma pad_left_length (w : nat) (s : string) :
  String.length (PyStr.pad_left w s) = Nat.max w (String.length s).
Proof.
  unfold PyStr.pad_left. rewrite str_length_app, length_repeat_char. lia.
Qed.

Lemma pad_left_long (w : nat) (s : string) :
  (w <= String.length s)%nat -> PyStr.pad_left w s = s.
Proof.
  intros H. unfold PyStr.pad_left.
  replace (w - String.length s)%nat with 0%nat by lia. reflexivity.
Qed.

(** Padding to the width of a string of digits the number it denotes gives
    the string back, leading zeros included. *)
Lemma pad_str_value (s : string) :
  PyStr.all_digits s = true -> s <> "" ->
  PyStr.pad_left (String.length s) (PyStr.str (PyStr.value_from 0 s)) = s.
Proof.
  induction s as [|c r IH]; intros H Hne; [congruence|].
  destruct (ascii_dec c "0") as [->|Hc].
  - cbn [PyStr.all_digits] in H. apply andb_true_iff in H. destruct H as [_ Hr].
    change (PyStr.value_from 0 (String "0" r)) with (PyStr.value_from 0 r).
    destruct r as [|c' r']; [reflexivity|].
    specialize (IH Hr ltac:(discriminate)).
    assert (Hlen : (String.length (PyStr.str (PyStr.value_from 0 (String c' r')))
                    <= String.length (String c' r'))%nat).
    { apply (f_equal String.length) in IH. rewrite pad_left_length in IH. lia. }
    unfold PyStr.pad_left in *.
    change (String.length (String "0" (String c' r')))
      with (S (String.length (String c' r'))).
    rewrite Nat.sub_succ_l by exact Hlen.
    cbn [PyStr.repeat_char append]. rewrite IH. reflexivity.
  - rewrite str_value_from by assumption. apply pad_left_long. lia.
Qed.

Lemma fmt_value (w : nat) (s : string) :
  PyStr.all_digits s = true -> s <> "" ->
  String.length s = w
  \/ ((w < String.length s)%nat /\ PyStr.startswith "0" s = false) ->
  PyStr.fmt w (PyStr.value_from 0 s) = s.
Proof.
  intros H Hne [Hw|[Hw H0]]; unfold PyStr.fmt.
  - subst w. apply pad_str_value; assumption.
  - destruct s as [|c r]; [congruence|].
    unfold PyStr.startswith in H0. cbn [String.prefix] in H0.
    rewrite prefix_nil in H0.
    destruct (ascii_dec "0" c) as [|Hc]; [discriminate|].
    rewrite str_value_from by (try assumption; congruence).
    apply pad_left_long. lia.
Qed.

Lemma slice_short (s : string) :
  (String.length s <= 4)%nat -> PyStr.slice None (Some (-4)) s = "".
Proof.
  intros H. unfold PyStr.slice, PyStr.norm_index, PyStr.len.
  change (-4 <? 0) with true. cbv iota.
  replace (Z.to_nat (Z.max 0 (Z.of_nat (String.length s) + -4) - 0))
    with 0%nat by lia.
  reflexivity.
Qed.

Lemma int_digits_inv (s : string) (n : Z) :
  PyStr.all_digits s = true -> s <> "" -> PyStr.int s = Some n ->
  n = PyStr.value_from 0 s.
Proof. intros H Hne Hi. rewrite int_digits in Hi by assumption. congruence. Qed.

Lemma length_not_nil (s : string) : (0 < String.length s)%nat -> s <> "".
Proof. destruct s; simpl; [lia|discriminate]. Qed.

(** *** Bounds on [int] *)

Lemma split_parts_no_sep (sep : ascii) (s : string) :
  forall part, In part (PyStr.split sep s) -> PyStr.contains_char sep part = false.
Proof.
  induction s as [|c r IH]; intros part H.
  - destruct H as [<-|[]]. reflexivity.
  - cbn [PyStr.split] in H. destruct (Ascii.eqb c sep) eqn:E.
    + destruct H as [<-|H]; [reflexivity|apply IH, H].
    + pose proof (split_not_nil sep r) as Hne.
      destruct (PyStr.split sep r) as [|h t]; [congruence|].
      destruct H as [<-|H].
      * cbn [PyStr.contains_char]. rewrite E. apply IH. left. reflexivity.
      * apply IH. right. exact H.
Qed.

Lemma contains_char_take (c : ascii) (n : nat) (s : string) :
  PyStr.contains_char c s = false -> PyStr.contains_char c (PyStr.take n s) = false.
Proof.
  revert s. induction n as [|n IH]; intros [|x s] H; try reflexivity.
  cbn [PyStr.take PyStr.contains_char] in *.
  apply orb_false_iff in H. destruct H as [-> H]. apply IH, H.
Qed.

Lemma contains_char_drop (c : ascii) (n : nat) (s : string) :
  PyStr.contains_char c s = false -> PyStr.contains_char c (PyStr.drop n s) = false.
Proof.
  revert s. induction n as [|n IH]; intros [|x s] H; try assumption.
  cbn [PyStr.drop]. cbn [PyStr.contains_char] in H.
  apply orb_false_iff in H. apply IH, H.
Qed.

Lemma contains_char_slice (c : ascii) (lo hi : option Z) (s : string) :
  PyStr.contains_char c s = false ->
  PyStr.contains_char c (PyStr.slice lo hi s) = false.
Proof.
  intros H. unfold PyStr.slice. apply contains_char_take, contains_char_drop, H.
Qed.

Lemma contains_char_lstrip (c : ascii) (s : string) :
  PyStr.contains_char c s = false -> PyStr.contains_char c (PyStr.lstrip s) = false.
Proof.
  induction s as [|x s IH]; intros H; [reflexivity|].
  cbn [PyStr.lstrip]. destruct (PyStr.is_space x); [|exact H].
  cbn [PyStr.contains_char] in H. apply orb_false_iff in H. apply IH, H.
Qed.

Lemma contains_char_rstrip (c : ascii) (s : string) :
  PyStr.contains_char c s = false -> PyStr.contains_char c (PyStr.rstrip s) = false.
Proof.
  induction s as [|x s IH]; intros H; [reflexivity|].
  cbn [PyStr.rstrip]. cbn [PyStr.contains_char] in H.
  apply orb_false_iff in H. destruct H as [Hx Hs].
  destruct (PyStr.is_space x && String.eqb (PyStr.rstrip s) ""); [reflexivity|].
  cbn [PyStr.contains_char]. rewrite Hx. apply IH, Hs.
Qed.

Lemma length_lstrip (s : string) :
  (String.length (PyStr.lstrip s) <= String.length s)%nat.
Proof.
  induction s as [|x s IH]; [reflexivity|].
  cbn [PyStr.lstrip]. destruct (PyStr.is_space x); simpl; lia.
Qed.

Lemma length_rstrip (s : string) :
  (String.length (PyStr.rstrip s) <= String.length s)%nat.
Proof.
  induction s as [|x s IH]; [reflexivity|].
  cbn [PyStr.rstrip].
  destruct (PyStr.is_space x && String.eqb (PyStr.rstrip s) ""); simpl; lia.
Qed.

Lemma digits_acc_bounds (s : string) :
  forall acc prev n,
    0 <= acc -> PyStr.digits_acc s acc prev = Some n ->
    acc <= n < (acc + 1) * 10 ^ Z.of_nat (String.length s).
Proof.
  induction s as [|c r IH]; intros acc prev n Hacc H.
  - cbn in H. destruct prev; [|discriminate]. inversion H; subst. simpl. lia.
  - cbn [PyStr.digits_acc] in H. cbn [String.length].
    rewrite Nat2Z.inj_succ, Z.pow_succ_r by lia.
    assert (Hp : 0 < 10 ^ Z.of_nat (String.length r))
      by (apply Z.pow_pos_nonneg; lia).
    destruct (PyStr.is_digit c) eqn:Ec.
    + pose proof (digit_value_range c Ec) as Hv.
      apply IH in H; [|lia]. nia.
    + destruct (Ascii.eqb c "_"); [|discriminate].
      destruct prev; [|discriminate].
      apply IH in H; [|lia]. nia.
Qed.

(** [int] of a string without a minus sign is not negative and is below
    [10 ^ len]. *)
Lemma int_bounds (s : string) (n : Z) :
  PyStr.contains_char "-" s = false -> PyStr.int s = Some n ->
  0 <= n < 10 ^ Z.of_nat (String.length s).
Proof.
  intros Hs H. unfold PyStr.int in H.
  assert (Hc : PyStr.contains_char "-" (PyStr.strip s) = false)
    by (apply contains_char_rstrip, contains_char_lstrip, Hs).
  assert (Hl : (String.length (PyStr.strip s) <= String.length s)%nat).
  { unfold PyStr.strip. pose proof (length_rstrip (PyStr.lstrip s)).
    pose proof (length_lstrip s). lia. }
  assert (Hmono : forall k, (k <= String.length s)%nat ->
                            10 ^ Z.of_nat k <= 10 ^ Z.of_nat (String.length s))
    by (intros k Hk; apply Z.pow_le_mono_r; lia).
  destruct (PyStr.strip s) as [|c r]; [discriminate|].
  cbn [String.length] in Hl.
  destruct (Ascii.eqb c "+").
  - apply digits_acc_bounds in H; [|lia].
    specialize (Hmono (String.length r) ltac:(lia)). lia.
  - destruct (Ascii.eqb c "-") eqn:E.
    + cbn [PyStr.contains_char] in Hc. rewrite E in Hc. discriminate.
    + apply digits_acc_bounds in H; [|lia].
      specialize (Hmono (String.length (String c r)) ltac:(simpl; lia)). lia.
Qed.

Lemma length_slice_last_two (s : string) :
  (String.length (PyStr.slice (Some (-2)%Z) None s) <= 2)%nat
  /\ (String.length (PyStr.slice (Some (-4)%Z) (Some (-2)%Z) s) <= 2)%nat.
Proof.
  unfold PyStr.slice, PyStr.norm_index, PyStr.len.
  change (-2 <? 0) with true. change (-4 <? 0) with true. cbv iota.
  rewrite !length_take. split; lia.
Qed.

(** ** Combiners *)

Lemma combine_loop_nth {D : Type} (make : Aligned -> D) (zipped : list Aligned) :
  forall k d,
    nth_error (yielded (combine_loop make zipped)) k = Some d ->
    exists t, nth_error zipped k = Some t /\ d = make t /\ snd (checks t) = None.
Proof.
  induction zipped as [|t rest IH]; intros k d H.
  - destruct k; discriminate.
  - simpl in H. destruct (checks t) as [log [e|]] eqn:Hc; simpl in H.
    + destruct k; discriminate.
    + destruct k as [|k]; simpl in H.
      * inversion H; subst. exists t. rewrite Hc. auto.
      * apply IH in H. exact H.
Qed.

Lemma combine_loop_total {D : Type} (make : Aligned -> D) (zipped : list Aligned) :
  (forall t, In t zipped -> snd (checks t) = None) ->
  yielded (combine_loop make zipped) = map make zipped
  /\ raised (combine_loop make zipped) = None.
Proof.
  induction zipped as [|t rest IH]; intros H; simpl.
  - auto.
  - pose proof (H t (or_introl eq_refl)) as Ht.
    destruct (checks t) as [log [e|]]; simpl in Ht; [discriminate|].
    destruct IH as [IH1 IH2]; [intros; apply H; right; assumption|].
    simpl. rewrite IH1, IH2. auto.
Qed.

Lemma make_a_doc_fields (t : Aligned) : a_doc_of (make_a_doc t) t.
Proof.
  destruct t as [[[[txt html] inlink] outlink] vdom]; simpl.
  repeat split; intros ->; reflexivity.
Qed.

Lemma make_b_doc_fields (t : Aligned) : b_doc_of (make_b_doc t) t.
Proof.
  destruct t as [[[[txt html] inlink] outlink] vdom]; simpl.
  repeat split; intros ->; reflexivity.
Qed.

(** C7: every document an A or B combiner yields is built from the tuple at
    its position: [doc_id], [url], [url_hash], [language], [date], [html],
    [record_id], [payload_digest] and [vdom_nodes] are those of the HTML
    record, [text] is that of the TXT record, and a null INLINK or OUTLINK
    record gives an empty anchor list. *)
Theorem combined_fields_from_html_and_txt :
  forall txt html inlink outlink vdom k,
    (forall d,
        nth_error (yielded (_combine_a_docs txt html inlink outlink vdom)) k
        = Some d ->
        exists t, nth_error (zip5 txt html inlink outlink vdom) k = Some t
                  /\ a_doc_of d t)
    /\
    (forall d,
        nth_error (yielded (_combine_b_docs txt html inlink outlink vdom)) k
        = Some d ->
        exists t, nth_error (zip5 txt html inlink outlink vdom) k = Some t
                  /\ b_doc_of d t).
Proof.
  intros txt html inlink outlink vdom k; split; intros d H;
    apply combine_loop_nth in H; destruct H as (t & Hn & -> & _);
    exists t; split; auto using make_a_doc_fields, make_b_doc_fields.
Qed.

Lemma combined_fields_witness :
  exists t,
    nth_error (zip5 [Sample.txt "de"] [Sample.html] [None] [None] [Sample.vdom]) 0
    = Some t
    /\ a_doc_of (make_a_doc (Sample.tuple "de")) t.
Proof.
  apply (proj1 (combined_fields_from_html_and_txt [Sample.txt "de"]
                  [Sample.html] [None] [None] [Sample.vdom] 0%nat)).
  reflexivity.
Defined.

Lemma str_neq_false a b : str_neq a b = false <-> a = b.
Proof.
  unfold str_neq. rewrite negb_false_iff. apply String.eqb_eq.
Qed.

Lemma str_neq_true a b : str_neq a b = true <-> a <> b.
Proof.
  unfold str_neq. rewrite negb_true_iff. apply String.eqb_neq.
Qed.

Lemma language_check_false txt html :
  language_check txt html = false
  <-> Txt.language txt <> Html.language html /\ Txt.language txt <> "other".
Proof.
  unfold language_check. rewrite orb_false_iff, !String.eqb_neq. tauto.
Qed.

Lemma link_checks_not_language name err txt html link :
  err <> LanguageAssertion ->
  link_checks name err txt html link <> inl LanguageAssertion.
Proof.
  intros Herr. unfold link_checks. destruct link as [l|]; [|discriminate].
  destruct (str_neq (Link.doc_id l) (Html.doc_id html)); [|discriminate].
  congruence.
Qed.

Lemma checks_language (t : Aligned) :
  let '(txt, html, _, _, _) := t in
  snd (checks t) = Some LanguageAssertion
  <-> reaches_language_check txt html
      /\ Txt.language txt <> Html.language html
      /\ Txt.language txt <> "other".
Proof.
  destruct t as [[[[txt html] inlink] outlink] vdom].
  unfold checks, reaches_language_check.
  destruct (str_neq (Txt.doc_id txt) (Html.doc_id html)) eqn:Hid.
  { apply str_neq_true in Hid. simpl. split; [discriminate|tauto]. }
  apply str_neq_false in Hid.
  destruct (str_neq (Txt.url txt) (Html.url html)) eqn:Hurl;
    [apply str_neq_true in Hurl | apply str_neq_false in Hurl].
  - destruct (truncated_url_check txt html) eqn:Htr; simpl.
    + destruct (language_check txt html) eqn:Hl; simpl.
      * assert (Hn : ~ (Txt.language txt <> Html.language html
                        /\ Txt.language txt <> "other")).
        { rewrite <- language_check_false. congruence. }
        pose proof (link_checks_not_language "inlink" InlinkDocIdAssertion
                      txt html inlink ltac:(discriminate)) as H1.
        pose proof (link_checks_not_language "outlink" OutlinkDocIdAssertion
                      txt html outlink ltac:(discriminate)) as H2.
        destruct (link_checks "inlink" _ txt html inlink) as [e1|l1];
          [simpl; split; [congruence|tauto]|].
        destruct (link_checks "outlink" _ txt html outlink) as [e2|l2];
          simpl; split; try congruence; try tauto; discriminate.
      * apply language_check_false in Hl. tauto.
    + split; [discriminate|]. intros [[_ [H|H]] _]; [contradiction|discriminate].
  - simpl. destruct (language_check txt html) eqn:Hl; simpl.
    + assert (Hn : ~ (Txt.language txt <> Html.language html
                      /\ Txt.language txt <> "other")).
      { rewrite <- language_check_false. congruence. }
      pose proof (link_checks_not_language "inlink" InlinkDocIdAssertion
                    txt html inlink ltac:(discriminate)) as H1.
      pose proof (link_checks_not_language "outlink" OutlinkDocIdAssertion
                    txt html outlink ltac:(discriminate)) as H2.
      destruct (link_checks "inlink" _ txt html inlink) as [e1|l1];
        [simpl; split; [congruence|tauto]|].
      destruct (link_checks "outlink" _ txt html outlink) as [e2|l2];
        simpl; split; try congruence; try tauto; discriminate.
    + apply language_check_false in Hl. tauto.
Qed.

Lemma combine_loop_single_raised {D : Type} (make : Aligned -> D) (t : Aligned) :
  raised (combine_loop make [t]) = snd (checks t).
Proof.
  simpl. destruct (checks t) as [log [e|]]; reflexivity.
Qed.

(** C8: in both combiners the language assertion is the one that fails
    exactly when the assertions before it pass, the TXT language differs
    from the HTML language and the TXT language is not ["other"]; a TXT
    record whose language is ["other"] never fails it. *)
Theorem language_check_fails_iff :
  forall txt html inlink outlink vdom,
    (language_check txt html = false
     <-> Txt.language txt <> Html.language html
         /\ Txt.language txt <> "other")
    /\
    (raised (_combine_a_docs [txt] [html] [inlink] [outlink] [vdom])
     = Some LanguageAssertion
     <-> reaches_language_check txt html
         /\ Txt.language txt <> Html.language html
         /\ Txt.language txt <> "other")
    /\
    (raised (_combine_b_docs [txt] [html] [inlink] [outlink] [vdom])
     = Some LanguageAssertion
     <-> reaches_language_check txt html
         /\ Txt.language txt <> Html.language html
         /\ Txt.language txt <> "other")
    /\
    (Txt.language txt = "other" ->
     language_check txt html = true
     /\ raised (_combine_a_docs [txt] [html] [inlink] [outlink] [vdom])
        <> Some LanguageAssertion
     /\ raised (_combine_b_docs [txt] [html] [inlink] [outlink] [vdom])
        <> Some LanguageAssertion).
Proof.
  intros txt html inlink outlink vdom.
  pose proof (checks_language (txt, html, inlink, outlink, vdom)) as Hc.
  unfold _combine_a_docs, _combine_b_docs; simpl zip5.
  rewrite !combine_loop_single_raised.
  split; [apply language_check_false|].
  split; [exact Hc|]. split; [exact Hc|].
  intros Hother. split.
  - unfold language_check. rewrite Hother. reflexivity.
  - split; intros H; apply Hc in H; tauto.
Qed.

Lemma language_check_witness :
  raised (_combine_a_docs [Sample.txt "fr"] [Sample.html] [None] [None]
            [Sample.vdom]) = Some LanguageAssertion
  /\ raised (_combine_b_docs [Sample.txt "other"] [Sample.html] [None] [None]
               [Sample.vdom]) <> Some LanguageAssertion.
Proof.
  split.
  - apply (proj1 (proj2 (language_check_fails_iff (Sample.txt "fr") Sample.html
                           None None Sample.vdom))).
    repeat split; try discriminate. right; reflexivity.
  - apply (proj2 (proj2 (proj2 (language_check_fails_iff (Sample.txt "other")
                                  Sample.html None None Sample.vdom)))).
    reflexivity.
Defined.

(** ** Subsets and the record-count catalog *)

(** The recursion of [subset_views] ends within the fuel it is given: more
    fuel does not change the result. *)
Lemma subset_views_fuel_enough (s : ClueWeb22Subset) (extra : nat) :
  Subset.subset_views_fuel (List.length Subset.all + extra) s
  = Some (Subset.subset_views s).
Proof. destruct s; reflexivity. Qed.

Lemma diff_formats_values :
  Subset.diff_formats L = [TXT]
  /\ Subset.diff_formats A = [HTML; INLINK; OUTLINK; VDOM]
  /\ Subset.diff_formats B = [].
Proof. repeat split; reflexivity. Qed.

Lemma py_sum_from (l : list Z) (acc : Z) :
  fold_left Z.add l acc = acc + py_sum l.
Proof.
  unfold py_sum. revert acc.
  induction l as [|x l IH]; intros acc; simpl.
  - lia.
  - rewrite IH, (IH x). lia.
Qed.

Lemma py_sum_cons (x : Z) (l : list Z) : py_sum (x :: l) = x + py_sum l.
Proof. unfold py_sum at 1. simpl. apply py_sum_from. Qed.




Lemma FileId_eqb_eq (a b : FileId.t) : FileId.eqb a b = true <-> a = b.
Proof.
  unfold FileId.eqb. rewrite !andb_true_iff, String.eqb_eq, !Z.eqb_eq.
  destruct a, b; simpl. split.
  - intros [[[-> ->] ->] ->]. reflexivity.
  - intros H; inversion H; auto.
Qed.

Lemma FileId_eqb_refl (a : FileId.t) : FileId.eqb a a = true.
Proof. apply FileId_eqb_eq. reflexivity. Qed.

(** C6, as stated, fails: a diff file that the broader catalog lacks uses
    up the broader catalog, so the diff files after it are not emitted even
    though the broader catalog lists them. *)
Lemma record_counts_arbitrary_catalogs_counterexample :
  record_counts (nodup_order Format.eq_dec) Sample.docs_missing TXT
  <> spec_record_counts
       (diff_format_record_counts (nodup_order Format.eq_dec) Sample.docs_missing)
       (_record_counts Sample.docs_missing TXT).
Proof. vm_compute. discriminate. Qed.

Lemma scan_counts_rest_nil (target : FileId.t) (counts : list (FileId.t * Z)) :
  fst (scan_counts target counts) = None -> snd (scan_counts target counts) = [].
Proof.
  induction counts as [|[fid c] rest IH]; simpl; [reflexivity|].
  destruct (FileId.eqb fid target); [discriminate|exact IH].
Qed.

Lemma scan_counts_found (target : FileId.t) (counts : list (FileId.t * Z)) :
  forall fid rest,
    scan_counts target counts = (Some fid, rest) ->
    fid = target /\ In target (map fst counts)
    /\ exists skipped c, counts = (skipped ++ (target, c) :: rest)%list.
Proof.
  induction counts as [|[fid0 c0] tl IH]; intros fid rest H; simpl in H.
  - discriminate.
  - destruct (FileId.eqb fid0 target) eqn:E.
    + apply FileId_eqb_eq in E. inversion H; subst.
      split; [reflexivity|]. split; [left; reflexivity|].
      exists [], c0. reflexivity.
    + destruct (IH _ _ H) as (-> & Hin & skipped & c & ->).
      split; [reflexivity|]. split; [right; exact Hin|].
      exists ((fid0, c0) :: skipped), c. reflexivity.
Qed.

Lemma In_map_fst_app_r {X Y : Type} (x : X) (l1 l2 : list (X * Y)) :
  In x (map fst l2) -> In x (map fst (l1 ++ l2)).
Proof. rewrite map_app, in_app_iff. auto. Qed.

Lemma record_counts_loop_sound (diff counts : list (FileId.t * Z)) :
  Subseq (record_counts_loop diff counts) diff
  /\ forall p, In p (record_counts_loop diff counts) ->
               In (fst p) (map fst counts).
Proof.
  revert counts. induction diff as [|[did dc] diff IH]; intros counts; simpl.
  - split; [constructor|contradiction].
  - destruct (scan_counts did counts) as [[fid|] rest] eqn:E.
    + destruct (scan_counts_found _ _ _ _ E) as (-> & Hin & skipped & c & Hc).
      destruct (IH rest) as [IH1 IH2]. split.
      * apply Subseq_take. exact IH1.
      * intros p [<-|Hp]; [exact Hin|].
        subst counts. apply In_map_fst_app_r. right. apply IH2, Hp.
    + assert (rest = []) as ->.
      { pose proof (scan_counts_rest_nil did counts) as H.
        rewrite E in H. apply H. reflexivity. }
      destruct (IH []) as [IH1 IH2]. split.
      * apply Subseq_skip. exact IH1.
      * intros p Hp. apply IH2 in Hp. contradiction.
Qed.

Lemma Subseq_cons_l {X : Type} (x : X) (xs ys : list X) :
  Subseq (x :: xs) ys -> Subseq xs ys.
Proof.
  intros H. remember (x :: xs) as l eqn:E. revert x xs E.
  induction H as [|l y ys H IH|x0 l ys H IH]; intros x xs E.
  - discriminate.
  - apply Subseq_skip. exact (IH _ _ E).
  - inversion E; subst. apply Subseq_skip. exact H.
Qed.

Lemma record_counts_loop_complete (diff counts : list (FileId.t * Z)) :
  Subseq (map fst diff) (map fst counts) ->
  record_counts_loop diff counts = diff.
Proof.
  revert diff. induction counts as [|[fid c] counts IH]; intros diff H.
  - inversion H as [Hd| |]. destruct diff; [reflexivity|discriminate].
  - destruct diff as [|[did dc] diff]; [reflexivity|].
    simpl in H. inversion H as [|xs y ys Hs|x xs ys Hs]; subst.
    + simpl. destruct (FileId.eqb fid did) eqn:E.
      * (* the scan stops earlier than the embedding at hand *)
        apply FileId_eqb_eq in E. subst did. f_equal.
        apply IH. simpl in Hs. exact (Subseq_cons_l _ _ _ Hs).
      * specialize (IH ((did, dc) :: diff) Hs). simpl in IH. exact IH.
    + simpl. rewrite FileId_eqb_refl. f_equal. apply IH. exact Hs.
Qed.

(** C6, amended: whatever the two catalogs, every emitted pair is a pair of
    the diff catalog, in diff order, whose file the broader catalog lists;
    and when the files of the diff catalog occur in the broader catalog in
    the same relative order, every pair of the diff catalog is emitted with
    its diff count and nothing else is. *)
Theorem record_counts_follow_diff_catalog :
  forall (order : SetOrder ClueWeb22Format) (docs : ClueWeb22Docs)
         (format_type : ClueWeb22Format),
    Subseq (record_counts order docs format_type)
      (diff_format_record_counts order docs)
    /\ (forall p, In p (record_counts order docs format_type) ->
                  In (fst p) (map fst (_record_counts docs format_type)))
    /\ (Subseq (map fst (diff_format_record_counts order docs))
          (map fst (_record_counts docs format_type)) ->
        record_counts order docs format_type
        = diff_format_record_counts order docs
        /\ record_counts order docs format_type
           = spec_record_counts (diff_format_record_counts order docs)
               (_record_counts docs format_type)).
Proof.
  intros order docs format_type. unfold record_counts.
  destruct (record_counts_loop_sound (diff_format_record_counts order docs)
              (_record_counts docs format_type)) as [H1 H2].
  split; [exact H1|]. split; [exact H2|].
  intros Hsub. pose proof (record_counts_loop_complete _ _ Hsub) as Heq.
  split; [exact Heq|].
  rewrite Heq. unfold spec_record_counts.
  symmetry. apply forallb_filter_id. apply forallb_forall.
  intros [did dc] Hin. apply existsb_exists.
  rewrite <- Heq in Hin. apply H2 in Hin. simpl in Hin.
  apply in_map_iff in Hin. destruct Hin as ([fid c] & Hf & Hin). simpl in Hf.
  subst fid. exists (did, c). split; [exact Hin|apply FileId_eqb_refl].
Qed.

Lemma record_counts_follow_diff_catalog_witness :
  record_counts (nodup_order Format.eq_dec) Sample.docs_broader TXT
  = [(Sample.f1, 1); (Sample.f2, 2)].
Proof.
  apply (proj2 (proj2 (record_counts_follow_diff_catalog
                         (nodup_order Format.eq_dec) Sample.docs_broader TXT))).
  simpl. apply Subseq_take, Subseq_skip, Subseq_take, Subseq_nil.
Defined.

(** ** The identifier codec *)

Lemma from_string_inv (s : string) (d : DocId.t) :
  DocId.from_string s = Some d ->
  exists sub f di,
    PyStr.split "-" s = ["clueweb22"; sub; f; di]
    /\ DocId.language d = PyStr.slice None (Some (-4)) sub
    /\ existsb (fun l => String.eqb (DocId.language d) (Language.id l))
         Language.all = true
    /\ PyStr.int (PyStr.slice (Some (-4)) (Some (-2)) sub) = Some (DocId.stream d)
    /\ PyStr.int (PyStr.slice (Some (-2)) None sub) = Some (DocId.subdirectory d)
    /\ DocId.subdirectory d <= _MAX_SUBDIRECTORIES_PER_STREAM
    /\ PyStr.int f = Some (DocId.file d)
    /\ DocId.file d <= _MAX_FILES_PER_SUBDIRECTORY
    /\ PyStr.int di = Some (DocId.doc d).
Proof.
  unfold DocId.from_string.
  destruct (PyStr.split "-" s) as [|ds [|sub [|f [|di [|x l]]]]];
    try discriminate.
  destruct (String.eqb ds "clueweb22") eqn:Eds; cbn [negb]; [|discriminate].
  apply String.eqb_eq in Eds. subst ds.
  match goal with
  | |- context [existsb ?p Language.all] =>
      destruct (existsb p Language.all) eqn:El; cbn [negb]; [|discriminate]
  end.
  destruct (PyStr.int (PyStr.slice (Some (-4)) (Some (-2)) sub)) as [st|] eqn:Est;
    [|discriminate].
  destruct (PyStr.int (PyStr.slice (Some (-2)) None sub)) as [sd|] eqn:Esd;
    [|discriminate].
  destruct (sd >? _MAX_SUBDIRECTORIES_PER_STREAM) eqn:Hsd; [discriminate|].
  destruct (PyStr.int f) as [fi|] eqn:Ef; [|discriminate].
  destruct (fi >? _MAX_FILES_PER_SUBDIRECTORY) eqn:Hfi; [discriminate|].
  destruct (PyStr.int di) as [dn|] eqn:Edi; [|discriminate].
  intros H. inversion H; subst d; simpl.
  exists sub, f, di. repeat split; auto; lia.
Qed.

(** The bounds the parser does enforce: a subdirectory above 80 or a file
    above 100 is rejected. *)
Lemma from_string_rejects_above_maximum (s : string) (d : DocId.t) :
  DocId.from_string s = Some d ->
  DocId.subdirectory d <= 80 /\ DocId.file d <= 100.
Proof.
  intros H. apply from_string_inv in H.
  destruct H as (sub & f & di & _ & _ & _ & _ & _ & Hs & _ & Hf & _).
  unfold _MAX_SUBDIRECTORIES_PER_STREAM, _MAX_FILES_PER_SUBDIRECTORY in *.
  auto.
Qed.

(** X8: what the parser accepts: a stream in 0–99, a subdirectory in 0–80, a
    file in 0–100 and a document number that is not negative. *)
Lemma from_string_bounds (s : string) (d : DocId.t) :
  DocId.from_string s = Some d ->
  0 <= DocId.stream d <= 99
  /\ 0 <= DocId.subdirectory d <= 80
  /\ 0 <= DocId.file d <= 100
  /\ 0 <= DocId.doc d.
Proof.
  intros H. apply from_string_inv in H.
  destruct H as (sub & f & di & Hs & _ & _ & Hst & Hsd & Hsd' & Hf & Hf' & Hd).
  unfold _MAX_SUBDIRECTORIES_PER_STREAM, _MAX_FILES_PER_SUBDIRECTORY in *.
  assert (Hparts : forall part, In part ["clueweb22"; sub; f; di] ->
                                PyStr.contains_char "-" part = false)
    by (rewrite <- Hs; apply split_parts_no_sep).
  assert (Hsub : PyStr.contains_char "-" sub = false)
    by (apply Hparts; simpl; auto).
  destruct (length_slice_last_two sub) as [Hl2 Hl4].
  apply int_bounds in Hst; [|apply contains_char_slice, Hsub].
  apply int_bounds in Hsd; [|apply contains_char_slice, Hsub].
  apply int_bounds in Hf; [|apply Hparts; simpl; auto].
  apply int_bounds in Hd; [|apply Hparts; simpl; auto].
  assert (Hpow : forall k, (k <= 2)%nat -> 10 ^ Z.of_nat k <= 100).
  { intros k Hk. change 100 with (10 ^ Z.of_nat 2).
    apply Z.pow_le_mono_r; lia. }
  pose proof (Hpow _ Hl2). pose proof (Hpow _ Hl4). lia.
Qed.

(** C9: the parser accepts the identifier [clueweb22-en0080-100-00000],
    whose subdirectory is 80 and whose file is 100: both comparisons with
    the maxima are strict, so the values equal to the maxima pass although
    the subdirectories of a stream are numbered 0 to 79 and the files of a
    subdirectory 0 to 99. *)
Theorem from_string_accepts_the_maxima :
  DocId.from_string "clueweb22-en0080-100-00000"
  = Some (DocId.mk "en" 0 80 100 0)
  /\ ~ (0 <= 80 <= 79)
  /\ ~ (0 <= 100 <= 99)
  /\ DocId.to_string (DocId.mk "en" 0 80 100 0) = "clueweb22-en0080-100-00000".
Proof. repeat split; try reflexivity; lia. Qed.

Lemma language_id_known (l : ClueWeb22Language) :
  existsb (fun x => String.eqb (Language.id l) (Language.id x)) Language.all
  = true.
Proof. destruct l; reflexivity. Qed.

Lemma language_id_no_dash (l : ClueWeb22Language) :
  PyStr.contains_char "-" (Language.id l) = false.
Proof. destruct l; reflexivity. Qed.

Lemma known_language_length (s : string) :
  existsb (fun x => String.eqb s (Language.id x)) Language.all = true ->
  (2 <= String.length s)%nat.
Proof.
  intros H. apply existsb_exists in H. destruct H as (l & _ & Hl).
  apply String.eqb_eq in Hl. subst s. destruct l; simpl; lia.
Qed.

Lemma from_string_of_parts (s sub f di : string) (l : ClueWeb22Language)
  (st sd fi dn : Z) :
  PyStr.split "-" s = ["clueweb22"; sub; f; di] ->
  PyStr.slice None (Some (-4)) sub = Language.id l ->
  PyStr.int (PyStr.slice (Some (-4)) (Some (-2)) sub) = Some st ->
  PyStr.int (PyStr.slice (Some (-2)) None sub) = Some sd ->
  sd <= 80 ->
  PyStr.int f = Some fi ->
  fi <= 100 ->
  PyStr.int di = Some dn ->
  DocId.from_string s = Some (DocId.mk (Language.id l) st sd fi dn).
Proof.
  intros Hs Hl Hst Hsd Hsd' Hf Hf' Hd. unfold DocId.from_string.
  rewrite Hs, Hl, Hst, Hsd, Hf, Hd. cbn [String.eqb negb].
  replace (("clueweb22" =? "clueweb22")%string) with true by reflexivity.
  cbn [negb]. rewrite language_id_known. cbn [negb].
  unfold _MAX_SUBDIRECTORIES_PER_STREAM, _MAX_FILES_PER_SUBDIRECTORY.
  destruct (sd >? 80) eqn:E1; [apply Z.gtb_lt in E1; lia|].
  destruct (fi >? 100) eqn:E2; [apply Z.gtb_lt in E2; lia|].
  reflexivity.
Qed.

Lemma fmt2_length (n : Z) : 0 <= n <= 99 -> String.length (PyStr.fmt 2 n) = 2%nat.
Proof. intros H. rewrite fmt2_two_digits by exact H. reflexivity. Qed.

Lemma fmt_no_dash (w : nat) (n : Z) :
  0 <= n -> PyStr.contains_char "-" (PyStr.fmt w n) = false.
Proof.
  intros H. apply all_digits_no_char; [reflexivity|].
  apply fmt_all_digits, H.
Qed.

Lemma to_string_parts (d : DocId.t) :
  DocId.to_string d
  = ("clueweb22"
     ++ String "-"
          ((DocId.language d ++ PyStr.fmt 2 (DocId.stream d)
            ++ PyStr.fmt 2 (DocId.subdirectory d))
           ++ String "-"
                (PyStr.fmt 2 (DocId.file d)
                 ++ String "-" (PyStr.fmt 5 (DocId.doc d)))))%string.
Proof. reflexivity. Qed.

(** Parsing what [__str__] writes for an identifier of the data model gives
    the identifier back. *)
Lemma from_string_to_string (d : DocId.t) :
  in_range d -> DocId.from_string (DocId.to_string d) = Some d.
Proof.
  destruct d as [lang st sd fi dn]. unfold in_range. simpl.
  intros ((l & ->) & Hst & Hsd & Hfi & Hdn).
  assert (Hlen : String.length (PyStr.fmt 2 st ++ PyStr.fmt 2 sd) = 4%nat).
  { rewrite str_length_app, !fmt2_length by lia. reflexivity. }
  apply (from_string_of_parts _
           (Language.id l ++ PyStr.fmt 2 st ++ PyStr.fmt 2 sd)
           (PyStr.fmt 2 fi) (PyStr.fmt 5 dn)).
  - rewrite to_string_parts. cbn [DocId.language DocId.stream
      DocId.subdirectory DocId.file DocId.doc].
    rewrite !split_app_sep.
    rewrite (split_no_sep "-" (PyStr.fmt 5 dn)) by (apply fmt_no_dash; lia).
    rewrite (split_no_sep "-" (PyStr.fmt 2 fi)) by (apply fmt_no_dash; lia).
    rewrite (split_no_sep "-" (Language.id l ++ _)).
    + reflexivity.
    + rewrite !contains_char_app, language_id_no_dash, !fmt_no_dash by lia.
      reflexivity.
  - change (-4) with (- Z.of_nat 4). apply slice_drop_suffix; [exact Hlen|lia].
  - change (-4) with (- Z.of_nat 4). change (-2) with (- Z.of_nat 2).
    rewrite slice_middle; [apply int_fmt; lia|apply fmt2_length; lia|lia|].
    rewrite fmt2_length by lia. reflexivity.
  - change (-2) with (- Z.of_nat 2). rewrite <- str_app_assoc.
    rewrite slice_keep_suffix; [apply int_fmt; lia|apply fmt2_length; lia|lia].
  - lia.
  - apply int_fmt; lia.
  - lia.
  - apply int_fmt; lia.
Qed.

(** Writing an identifier parsed from a string in the padded form gives the
    string back. *)
Lemma to_string_from_string (s : string) (d : DocId.t) :
  DocId.from_string s = Some d -> canonical_doc_id s = true ->
  DocId.to_string d = s.
Proof.
  intros Hp Hc. apply from_string_inv in Hp.
  destruct Hp as (sub & f & di & Hs & Hl & Hk & Hst & Hsd & _ & Hf & _ & Hd).
  unfold canonical_doc_id in Hc. rewrite Hs in Hc.
  repeat (apply andb_true_iff in Hc; destruct Hc as [Hc ?]).
  match goal with H : (_ || _) = true |- _ => rename H into Hdi end.
  match goal with H : PyStr.all_digits di = true |- _ => rename H into Hdd end.
  match goal with H : (String.length f =? 2)%nat = true |- _ =>
    apply Nat.eqb_eq in H; rename H into Hflen end.
  match goal with H : PyStr.all_digits f = true |- _ => rename H into Hfd end.
  assert (Hsub : (4 <= String.length sub)%nat).
  { destruct (le_lt_dec 4 (String.length sub)) as [|Hlt]; [assumption|].
    apply known_language_length in Hk. rewrite Hl in Hk.
    rewrite slice_short in Hk by lia. simpl in Hk. lia. }
  destruct (slice_partition sub Hsub) as (a & b & c & Hab & Hb & Hcl & Ha & Hbs & Hcs & Hbc).
  rewrite Hbc, all_digits_app in Hc. apply andb_true_iff in Hc.
  destruct Hc as [Hbd Hcd].
  rewrite Hbs in Hst. rewrite Hcs in Hsd. rewrite Ha in Hl.
  apply int_digits_inv in Hst; [|exact Hbd|apply length_not_nil; lia].
  apply int_digits_inv in Hsd; [|exact Hcd|apply length_not_nil; lia].
  apply int_digits_inv in Hf; [|exact Hfd|apply length_not_nil; lia].
  assert (Hdne : di <> "").
  { apply length_not_nil. apply orb_true_iff in Hdi. destruct Hdi as [Hdi|Hdi].
    - apply Nat.eqb_eq in Hdi. lia.
    - apply andb_true_iff in Hdi. destruct Hdi as [Hdi _].
      apply Nat.ltb_lt in Hdi. lia. }
  apply int_digits_inv in Hd; [|exact Hdd|exact Hdne].
  rewrite <- (join_split "-" s), Hs.
  unfold DocId.to_string. rewrite Hl, Hst, Hsd, Hf, Hd.
  rewrite (fmt_value 2 b), (fmt_value 2 c), (fmt_value 2 f), (fmt_value 5 di);
    try assumption; try (apply length_not_nil; lia); try (left; assumption).
  - rewrite <- Hab. reflexivity.
  - apply orb_true_iff in Hdi. destruct Hdi as [Hdi|Hdi].
    + apply Nat.eqb_eq in Hdi. left. exact Hdi.
    + apply andb_true_iff in Hdi. destruct Hdi as [Hlt Hz].
      apply Nat.ltb_lt in Hlt. apply negb_true_iff in Hz. right. auto.
Qed.

Lemma startswith_app (p a b : string) :
  a <> "" -> String.length p = 1%nat ->
  PyStr.startswith p (a ++ b) = PyStr.startswith p a.
Proof.
  intros Ha Hp. destruct a as [|c a]; [congruence|].
  destruct p as [|x [|y p]]; try discriminate.
  unfold PyStr.startswith. cbn [append String.prefix]. rewrite !prefix_nil.
  reflexivity.
Qed.

Lemma str_no_leading_zero (n : Z) :
  1 <= n -> PyStr.startswith "0" (PyStr.str n) = false.
Proof.
  intros Hn.
  assert (H : forall k n, (Z.to_nat n <= k)%nat -> 1 <= n ->
                          PyStr.startswith "0" (PyStr.str n) = false).
  { clear n Hn. induction k as [|k IH]; intros n Hk Hn; [lia|].
    destruct (Z_lt_ge_dec n 10) as [Hs|Hb].
    - rewrite str_small by lia.
      destruct (small_cases n ltac:(lia)) as [E|E]; [lia|].
      repeat (destruct E as [E|E]; [subst; reflexivity|]).
      subst; reflexivity.
    - rewrite str_step by lia.
      assert (Hq : 1 <= n / 10) by (apply Z.div_le_lower_bound; lia).
      assert (Hlt : n / 10 < n) by (apply Z.div_lt; lia).
      rewrite startswith_app;
        [apply IH; lia|apply str_all_digits; lia|reflexivity]. }
  apply (H (Z.to_nat n)); [lia|exact Hn].
Qed.

(** What [__str__] writes for an identifier of the data model is in the
    padded form. *)
Lemma to_string_canonical (d : DocId.t) :
  in_range d -> canonical_doc_id (DocId.to_string d) = true.
Proof.
  destruct d as [lang st sd fi dn]. unfold in_range. simpl.
  intros ((l & ->) & Hst & Hsd & Hfi & Hdn).
  unfold canonical_doc_id. rewrite to_string_parts.
  cbn [DocId.language DocId.stream DocId.subdirectory DocId.file DocId.doc].
  rewrite !split_app_sep.
  rewrite (split_no_sep "-" (PyStr.fmt 5 dn)) by (apply fmt_no_dash; lia).
  rewrite (split_no_sep "-" (PyStr.fmt 2 fi)) by (apply fmt_no_dash; lia).
  rewrite (split_no_sep "-" (Language.id l ++ _))
    by (rewrite !contains_char_app, language_id_no_dash, !fmt_no_dash by lia;
        reflexivity).
  change (PyStr.split "-" "clueweb22") with ["clueweb22"]. cbn [app].
  change (-4) with (- Z.of_nat 4).
  rewrite slice_keep_suffix;
    [|rewrite str_length_app, !fmt2_length by lia; reflexivity|lia].
  rewrite all_digits_app.
  rewrite (proj1 (fmt_all_digits 2 st ltac:(lia))).
  rewrite (proj1 (fmt_all_digits 2 sd ltac:(lia))).
  rewrite (proj1 (fmt_all_digits 2 fi ltac:(lia))).
  rewrite (proj1 (fmt_all_digits 5 dn ltac:(lia))).
  rewrite fmt2_length by lia. cbn [andb Nat.eqb].
  unfold PyStr.fmt at 1 2. rewrite pad_left_length.
  destruct (le_lt_dec (String.length (PyStr.str dn)) 5) as [Hle|Hgt].
  - replace (Nat.max 5 (String.length (PyStr.str dn))) with 5%nat by lia.
    reflexivity.
  - replace (Nat.max 5 (String.length (PyStr.str dn)))
      with (String.length (PyStr.str dn)) by lia.
    unfold PyStr.fmt. rewrite pad_left_long by lia.
    rewrite str_no_leading_zero.
    + destruct (String.length (PyStr.str dn) =? 5)%nat; [reflexivity|].
      cbn [orb negb andb]. rewrite andb_true_r. apply Nat.ltb_lt. exact Hgt.
    + destruct (Z_lt_ge_dec dn 1) as [H0|]; [|lia].
      assert (dn = 0) by lia. subst dn. simpl in Hgt. lia.
Qed.

(** C3, as stated, fails in its second half: the parser accepts numeric
    fields that are not written in the padded form, and [__str__] pads
    them. *)
Lemma doc_id_round_trip_counterexample :
  DocId.from_string "clueweb22-en0000-5-0" = Some (DocId.mk "en" 0 0 5 0)
  /\ DocId.to_string (DocId.mk "en" 0 0 5 0) = "clueweb22-en0000-05-00000"
  /\ DocId.to_string (DocId.mk "en" 0 0 5 0) <> "clueweb22-en0000-5-0".
Proof. repeat split; try reflexivity. discriminate. Qed.

(** C3, amended: parsing the formatted string of an identifier with a known
    language and components in range gives the identifier back; and for
    every string the parser accepts whose numeric fields are written in the
    padded form (two digits each for stream, subdirectory and file; for the
    document number five digits, or more without a leading zero),
    formatting the parsed identifier gives the string back.  The padded
    form is the one the formatter writes. *)
Theorem doc_id_round_trip :
  (forall d, in_range d -> DocId.from_string (DocId.to_string d) = Some d)
  /\ (forall s d,
         DocId.from_string s = Some d -> canonical_doc_id s = true ->
         DocId.to_string d = s)
  /\ (forall d, in_range d -> canonical_doc_id (DocId.to_string d) = true).
Proof.
  split; [exact from_string_to_string|].
  split; [exact to_string_from_string|exact to_string_canonical].
Qed.

Lemma doc_id_round_trip_witness :
  DocId.from_string (DocId.to_string (DocId.mk "zh_chs" 1 79 99 123456))
  = Some (DocId.mk "zh_chs" 1 79 99 123456)
  /\ DocId.to_string (DocId.mk "de" 0 0 0 13406) = "clueweb22-de0000-00-13406".
Proof.
  split.
  - apply (proj1 doc_id_round_trip). unfold in_range. simpl.
    split; [exists ZH; reflexivity|lia].
  - apply (proj1 (proj2 doc_id_round_trip)); reflexivity.
Defined.

(** ** Offset sidecars *)

Lemma last_is_digit_app (a b : string) :
  b <> "" -> PyStr.last_is_digit (a ++ b) = PyStr.last_is_digit b.
Proof.
  intros Hb. induction a as [|c a IH]; [reflexivity|].
  cbn [append PyStr.last_is_digit].
  destruct (a ++ b)%string eqn:E; [|exact IH].
  destruct a; [simpl in E; congruence|discriminate].
Qed.

Lemma last_is_digit_digits (s : string) :
  PyStr.all_digits s = true -> s <> "" -> PyStr.last_is_digit s = true.
Proof.
  induction s as [|c r IH]; intros H Hne; [congruence|].
  cbn [PyStr.all_digits] in H. apply andb_true_iff in H. destruct H as [Hc Hr].
  destruct r as [|c' r']; [exact Hc|].
  cbn [PyStr.last_is_digit]. apply IH; [exact Hr|discriminate].
Qed.

Lemma last_is_digit_not_nil (s : string) :
  PyStr.last_is_digit s = true -> s <> "".
Proof. destruct s; [discriminate|discriminate]. Qed.


Lemma replace_from_skip (old new t rest : string) :
  PyStr.replace_from old new (String.length t) (t ++ rest)
  = PyStr.replace_from old new 0 rest.
Proof.
  induction t as [|c t IH]; [reflexivity|]. simpl. exact IH.
Qed.


Lemma id_path_join (language : string) (stream subdirectory file : Z) :
  exists dir,
    id_path language stream subdirectory file
    = PyStr.path_join2 dir
        (language ++ PyStr.fmt 2 stream ++ PyStr.fmt 2 subdirectory
         ++ String "-" (PyStr.fmt 2 file)).
Proof.
  unfold id_path, PyStr.path_join. cbn [fold_left].
  eexists. rewrite !str_app_assoc. reflexivity.
Qed.

Lemma str_negative (n : Z) :
  n < 0 -> PyStr.str n = String "-" (PyStr.str (- n)).
Proof.
  intros H. unfold PyStr.str.
  destruct (n <? 0) eqn:E; [|apply Z.ltb_ge in E; lia].
  destruct (- n <? 0) eqn:E'; [apply Z.ltb_lt in E'; lia|reflexivity].
Qed.

(** The padded format of any integer, negative ones included: it holds no
    path separator, it ends in a digit, and it holds a minus sign when the
    integer is negative. *)
Lemma fmt_any (w : nat) (n : Z) :
  PyStr.contains_char "/" (PyStr.fmt w n) = false
  /\ PyStr.last_is_digit (PyStr.fmt w n) = true
  /\ (n < 0 -> PyStr.contains_char "-" (PyStr.fmt w n) = true).
Proof.
  destruct (Z_lt_ge_dec n 0) as [Hneg|Hpos].
  - destruct (str_all_digits (- n) ltac:(lia)) as [Hd Hne].
    unfold PyStr.fmt, PyStr.pad_left. rewrite str_negative by exact Hneg.
    change (String "-" (PyStr.str (- n))) with ("-" ++ PyStr.str (- n))%string.
    repeat split.
    + rewrite !contains_char_app.
      rewrite (all_digits_no_char "/" _ eq_refl (all_digits_zeros _)).
      rewrite (all_digits_no_char "/" _ eq_refl Hd). reflexivity.
    + rewrite !last_is_digit_app by (try exact Hne; discriminate).
      apply last_is_digit_digits; assumption.
    + intros _. rewrite !contains_char_app. cbn. apply orb_true_r.
  - destruct (fmt_all_digits w n ltac:(lia)) as (Hd & Hne & _). repeat split.
    + apply all_digits_no_char; [reflexivity|exact Hd].
    + apply last_is_digit_digits; assumption.
    + intros H. lia.
Qed.



(** The name of a shard file is the name of its identifier path followed by
    the extension. *)
Lemma shard_file_name (root : string) (format_type : ClueWeb22Format)
  (path : string) :
  PyStr.contains_char "/" (Format.extension_str format_type) = false ->
  PyStr.path_name (shard_file_path root format_type path)
  = (PyStr.path_name (_fix_path path format_type)
     ++ Format.extension_str format_type)%string.
Proof.
  intros H. unfold shard_file_path, path_div.
  rewrite path_name_join2. apply path_name_app_no_sep, H.
Qed.

Lemma extension_no_sep (format_type : ClueWeb22Format) :
  PyStr.contains_char "/" (Format.extension_str format_type) = false.
Proof. destruct format_type; reflexivity. Qed.

Lemma no_sep_name (language : string) (stream subdirectory file : Z) :
  PyStr.contains_char "/" language = false ->
  PyStr.contains_char "/"
    (language ++ PyStr.fmt 2 stream ++ PyStr.fmt 2 subdirectory
     ++ String "-" (PyStr.fmt 2 file)) = false.
Proof.
  intros Hl.
  rewrite !contains_char_app. cbn [PyStr.contains_char].
  rewrite Hl, !(proj1 (fmt_any 2 _)). reflexivity.
Qed.

Lemma id_path_name (language : string) (stream subdirectory file : Z) :
  PyStr.contains_char "/" language = false ->
  PyStr.path_name (id_path language stream subdirectory file)
  = (language ++ PyStr.fmt 2 stream ++ PyStr.fmt 2 subdirectory
     ++ String "-" (PyStr.fmt 2 file))%string.
Proof.
  intros Hl.
  destruct (id_path_join language stream subdirectory file) as (dir & ->).
  rewrite path_name_join2. apply path_name_no_sep, no_sep_name; assumption.
Qed.



Lemma slice_strip_extension (name extension : string) :
  (0 < String.length extension)%nat ->
  PyStr.slice None (Some (- PyStr.len extension)) (name ++ extension) = name.
Proof.
  intros H. unfold PyStr.len. apply slice_drop_suffix; [reflexivity|exact H].
Qed.

Lemma endswith_suffix (a e : string) : PyStr.endswith e (a ++ e) = true.
Proof.
  unfold PyStr.endswith. rewrite str_length_app.
  replace (String.length a + String.length e - String.length e)%nat
    with (String.length a) by lia.
  rewrite drop_app_length, String.eqb_refl. simpl.
  apply Nat.leb_le. lia.
Qed.

Lemma app_not_nil_r (a b : string) : b <> "" -> (a ++ b)%string <> "".
Proof. intros Hb. destruct a; [exact Hb|discriminate]. Qed.

Lemma shard_offsets_name (root : string) (format_type : ClueWeb22Format)
  (path extension offset_extension : string) :
  Format.extension format_type = Is extension ->
  Format.offset_extension format_type = Is offset_extension ->
  extension <> "" -> offset_extension <> "" ->
  PyStr.endswith extension
    (PyStr.path_name (shard_file_path root format_type path)) = true
  /\ offsets_name_of (PyStr.path_name (shard_file_path root format_type path))
       extension (Format.offset_extension format_type)
     = Some (PyStr.path_name (_fix_path path format_type) ++ offset_extension)%string.
Proof.
  intros He Ho Hne Hone.
  rewrite shard_file_name by apply extension_no_sep.
  unfold Format.extension_str. rewrite He, Ho. split.
  - apply endswith_suffix.
  - unfold offsets_name_of.
    destruct (String.eqb offset_extension "") eqn:E;
      [apply String.eqb_eq in E; congruence|].
    rewrite slice_strip_extension; [reflexivity|].
    destruct extension; [congruence|simpl; lia].
Qed.

Lemma gzip_format_extensions (format_type : ClueWeb22Format) :
  Format.compression format_type = Is GZIP ->
  exists extension offset_extension,
    Format.extension format_type = Is extension
    /\ Format.offset_extension format_type = Is offset_extension
    /\ extension <> "" /\ offset_extension <> "".
Proof.
  destruct format_type; simpl; intros H; try discriminate;
    eexists; eexists; repeat split; discriminate.
Qed.




Lemma fix_missing_line_break_cons (line : string) (rest : list string) :
  _fix_missing_line_break (line :: rest)
  = ((if (11 <? String.length line)%nat
      then [PyStr.take 10 line; PyStr.drop 10 line]
      else [line])
     ++ _fix_missing_line_break rest)%list.
Proof.
  unfold _fix_missing_line_break. cbn [flat_map]. f_equal.
  unfold PyStr.len. change (10 + 1) with 11.
  destruct (Z.of_nat (String.length line) >? 11) eqn:E;
    destruct (11 <? String.length line)%nat eqn:E'; try reflexivity.
  - apply Z.gtb_lt in E. apply Nat.ltb_lt in E'.
    assert (H1 : PyStr.slice None (Some 10) line = PyStr.take 10 line).
    { unfold PyStr.slice, PyStr.norm_index, PyStr.len.
      change (10 <? 0) with false. cbv iota.
      rewrite Z.min_l by lia. reflexivity. }
    assert (H2 : PyStr.slice (Some 10) None line = PyStr.drop 10 line).
    { unfold PyStr.slice, PyStr.norm_index, PyStr.len.
      change (10 <? 0) with false. cbv iota.
      rewrite Z.min_l by lia. change (Z.to_nat 10) with 10%nat.
      apply take_all. rewrite length_drop. lia. }
    rewrite H1, H2. reflexivity.
  - apply Z.gtb_lt in E. apply Nat.ltb_ge in E'. lia.
  - apply Nat.ltb_lt in E'. rewrite Z.gtb_ltb in E. apply Z.ltb_ge in E. lia.
Qed.



(** ** The slice planner *)

(** The branch of the gzip case that finds no selected index: the shard has
    been opened, and the loop goes on with the running offset unchanged. *)
Lemma empty_selection_keeps_offset (R : Type)
  (disk : string -> list (string * R)) (format_type : ClueWeb22Format)
  (start stop step : Z) (p : string) (count : Z) (rest : list (string * Z))
  (index_offset : Z) :
  Format.compression format_type = Is GZIP ->
  overlaps_slice start stop index_offset (index_offset + count) = true ->
  file_indices start stop step index_offset count = [] ->
  file_iterator_slice R disk format_type start stop step ((p, count) :: rest)
    index_offset
  = Opened p
    :: file_iterator_slice R disk format_type start stop step rest index_offset.
Proof.
  intros Hg Ho He.
  assert (Hn : Format.compression_extension format_type = PyNone)
    by (destruct format_type; try discriminate; reflexivity).
  cbn [file_iterator_slice]. rewrite Ho, Hg, Hn, He. reflexivity.
Qed.

(** C1: on three shards of 3, 2 and 3 records the slice [(0, 8, 5)] selects
    positions 0 and 5 of the full iteration, but [__getitem__] yields the
    records at positions 0 and 7: the second shard overlaps the slice and
    holds no selected position, and the loop leaves it without adding its
    count to the running offset, so the third shard is indexed from 3
    instead of 5. *)
Theorem getitem_loses_offset_after_empty_shard :
  iterate_records string Sample.disk TXT Sample.files
  = ["doc0"; "doc1"; "doc2"; "doc3"; "doc4"; "doc5"; "doc6"; "doc7"]
  /\ spec_every_step string
       (iterate_records string Sample.disk TXT Sample.files) 0 8 5
     = ["doc0"; "doc5"]
  /\ getitem_records string Sample.disk TXT 0 8 5 Sample.files
     = ["doc0"; "doc7"].
Proof. repeat split; reflexivity. Qed.

(** C2: for the same slice the second shard is opened although none of its
    local indices is selected: the file is opened as soon as the range of
    the shard overlaps the slice, before the selected indices are
    computed. *)
Theorem shard_opened_with_empty_selection :
  file_indices 0 8 5 3 2 = []
  /\ spec_opened 0 8 5 3 2 = false
  /\ file_iterator_slice string Sample.disk TXT 0 8 5 Sample.files 0
     = [ Opened "txt/en/en00/en0000/en0000-00.json.gz";
         YieldedFile "txt/en/en00/en0000/en0000-00.json.gz" ["doc0"];
         Opened "txt/en/en00/en0000/en0000-01.json.gz";
         Opened "txt/en/en00/en0000/en0000-02.json.gz";
         YieldedFile "txt/en/en00/en0000/en0000-02.json.gz" ["doc7"] ].
Proof. repeat split; reflexivity. Qed.

Lemma overlaps_slice_empty (start stop a b : Z) :
  stop <= start -> overlaps_slice start stop a b = false.
Proof. intros H. unfold overlaps_slice. apply Z.ltb_ge. lia. Qed.

(** X5: an empty slice opens no shard and yields nothing. *)
Lemma empty_slice_opens_nothing (R : Type) (disk : string -> list (string * R))
  (format_type : ClueWeb22Format) (start stop step : Z)
  (file_paths : list (string * Z)) :
  stop <= start ->
  forall index_offset,
    file_iterator_slice R disk format_type start stop step file_paths
      index_offset = [].
Proof.
  intros H. induction file_paths as [|[p c] rest IH]; intros off; simpl.
  - reflexivity.
  - rewrite overlaps_slice_empty by exact H. simpl. apply IH.
Qed.

(** A shard whose range does not meet the slice is not opened either. *)
Lemma disjoint_shard_not_opened (R : Type) (disk : string -> list (string * R))
  (format_type : ClueWeb22Format) (start stop step : Z)
  (p : string) (count : Z) (rest : list (string * Z)) (index_offset : Z) :
  overlaps_slice start stop index_offset (index_offset + count) = false ->
  file_iterator_slice R disk format_type start stop step ((p, count) :: rest)
    index_offset
  = file_iterator_slice R disk format_type start stop step rest
      (index_offset + count).
Proof. intros H. simpl. rewrite H. reflexivity. Qed.

(** ** The slice planner with a unit step

    With [step = 1] every shard that overlaps the slice holds a selected
    position, so the loop never takes the branch that forgets to advance
    the running offset, and slicing agrees with the full iteration. *)

Lemma in_slice_spec (start stop step index : Z) :
  in_slice start stop step index
  = (start <=? index) && (index <? stop) && ((index - start) mod step =? 0).
Proof.
  unfold in_slice. destruct ((start <=? index) && (index <? stop)); reflexivity.
Qed.

Lemma In_range (i count : Z) : In i (range count) <-> 0 <= i < count.
Proof.
  unfold range. rewrite in_map_iff. split.
  - intros (n & <- & Hn). apply in_seq in Hn. lia.
  - intros H. exists (Z.to_nat i). split; [lia|]. apply in_seq. lia.
Qed.

Lemma In_enumerate_from {X : Type} (l : list X) :
  forall a i x,
    In (i, x) (enumerate_from a l) -> a <= i < a + Z.of_nat (List.length l).
Proof.
  induction l as [|y l IH]; intros a i x H; [contradiction|].
  cbn [enumerate_from List.length] in *. destruct H as [H|H].
  - inversion H; subst. lia.
  - apply IH in H. lia.
Qed.

Lemma enumerate_from_app {X : Type} (l1 l2 : list X) :
  forall a,
    enumerate_from a (l1 ++ l2)
    = (enumerate_from a l1
       ++ enumerate_from (a + Z.of_nat (List.length l1)) l2)%list.
Proof.
  induction l1 as [|y l1 IH]; intros a.
  - cbn. rewrite Z.add_0_r. reflexivity.
  - cbn [app enumerate_from List.length]. rewrite IH. do 3 f_equal. lia.
Qed.

Lemma filter_all_false {X : Type} (f : X -> bool) (l : list X) :
  (forall x, In x l -> f x = false) -> filter f l = [].
Proof.
  induction l as [|x l IH]; intros H; [reflexivity|].
  cbn [filter]. rewrite (H x (or_introl eq_refl)).
  apply IH. intros y Hy. apply H. right. exact Hy.
Qed.

Lemma existsb_file_indices (start stop step index_offset count i : Z) :
  0 <= i < count ->
  existsb (Z.eqb i) (file_indices start stop step index_offset count)
  = in_slice start stop step (index_offset + i).
Proof.
  intros Hi. unfold file_indices.
  destruct (in_slice start stop step (index_offset + i)) eqn:E.
  - apply existsb_exists. exists i. split; [|apply Z.eqb_refl].
    apply filter_In. split; [apply In_range; exact Hi|exact E].
  - destruct (existsb _ _) eqn:Ex; [|reflexivity].
    apply existsb_exists in Ex. destruct Ex as (x & Hx & Hxi).
    apply Z.eqb_eq in Hxi. subst x. apply filter_In in Hx.
    destruct Hx as [_ Hx]. congruence.
Qed.

Lemma select_shift {R : Type} (P : Z -> bool) (off : Z)
  (members : list (string * R)) :
  forall a,
    map (fun '(_, m) => snd m)
      (filter (fun '(i, _) => P (off + i))
         (enumerate_from a members))
    = map snd
        (filter (fun '(i, _) => P i)
           (enumerate_from (off + a) (map snd members))).
Proof.
  induction members as [|m members IH]; intros a; [reflexivity|].
  cbn [enumerate_from map filter].
  replace (off + a + 1) with (off + (a + 1)) by lia.
  destruct (P (off + a)); cbn [map]; rewrite IH; reflexivity.
Qed.

Lemma offset_select_slice {R : Type} (members : list (string * R))
  (start stop step index_offset count : Z) :
  Z.of_nat (List.length members) = count ->
  offset_select R members (file_indices start stop step index_offset count)
  = map snd
      (filter (fun '(i, _) => in_slice start stop step i)
         (enumerate_from index_offset (map snd members))).
Proof.
  intros Hlen. unfold offset_select, enumerate.
  rewrite (filter_ext_in _
             (fun '(i, _) => in_slice start stop step (index_offset + i))).
  - rewrite (select_shift (in_slice start stop step) index_offset members 0).
    rewrite Z.add_0_r. reflexivity.
  - intros [i m] Hin. apply In_enumerate_from in Hin.
    apply existsb_file_indices. lia.
Qed.

Lemma disjoint_shard_selects_nothing {X : Type} (l : list X)
  (start stop step index_offset : Z) :
  overlaps_slice start stop index_offset
    (index_offset + Z.of_nat (List.length l)) = false ->
  filter (fun '(i, _) => in_slice start stop step i)
    (enumerate_from index_offset l) = [].
Proof.
  intros H. apply filter_all_false. intros [i x] Hin.
  apply In_enumerate_from in Hin. unfold overlaps_slice in H.
  apply Z.ltb_ge in H. rewrite in_slice_spec.
  destruct (start <=? i) eqn:E1; [|reflexivity].
  destruct (i <? stop) eqn:E2; [|reflexivity].
  apply Z.leb_le in E1. apply Z.ltb_lt in E2. lia.
Qed.

Lemma overlapping_shard_selected (start stop index_offset count : Z) :
  overlaps_slice start stop index_offset (index_offset + count) = true ->
  file_indices start stop 1 index_offset count <> [].
Proof.
  intros H. unfold overlaps_slice in H. apply Z.ltb_lt in H.
  assert (Hin : In (Z.max index_offset start - index_offset)
                  (file_indices start stop 1 index_offset count)).
  { apply filter_In. split; [apply In_range; lia|].
    rewrite in_slice_spec, Z.mod_1_r.
    replace (index_offset + (Z.max index_offset start - index_offset))
      with (Z.max index_offset start) by lia.
    apply andb_true_iff. split; [|reflexivity].
    apply andb_true_iff. split; [apply Z.leb_le|apply Z.ltb_lt]; lia. }
  intros E. rewrite E in Hin. contradiction.
Qed.

Section UnitStep.

Variable R : Type.
Variable disk : string -> list (string * R).
Variable format_type : ClueWeb22Format.
Hypothesis gzip : Format.compression format_type = Is GZIP.

Lemma gzip_no_inner_extension :
  Format.compression_extension format_type = PyNone.
Proof. destruct format_type; try discriminate; reflexivity. Qed.

Lemma iterate_records_cons (p : string) (c : Z) (rest : list (string * Z)) :
  iterate_records R disk format_type ((p, c) :: rest)
  = (map snd (disk p) ++ iterate_records R disk format_type rest)%list.
Proof.
  unfold iterate_records. cbn [file_iterator_all].
  rewrite gzip, gzip_no_inner_extension. reflexivity.
Qed.

Lemma slice_records_from (start stop : Z) (file_paths : list (string * Z)) :
  (forall p c, In (p, c) file_paths -> Z.of_nat (List.length (disk p)) = c) ->
  forall index_offset,
    read_records R
      (file_iterator_slice R disk format_type start stop 1 file_paths
         index_offset)
    = map snd
        (filter (fun '(i, _) => in_slice start stop 1 i)
           (enumerate_from index_offset
              (iterate_records R disk format_type file_paths))).
Proof.
  induction file_paths as [|[p c] rest IH]; intros Hcount off; [reflexivity|].
  assert (Hc : Z.of_nat (List.length (disk p)) = c)
    by (apply Hcount; left; reflexivity).
  assert (Hrest : forall q d, In (q, d) rest -> Z.of_nat (List.length (disk q)) = d)
    by (intros q d Hq; apply Hcount; right; exact Hq).
  rewrite iterate_records_cons, enumerate_from_app, filter_app, map_app.
  rewrite length_map, Hc.
  cbn [file_iterator_slice].
  destruct (overlaps_slice start stop off (off + c)) eqn:Eo; cbn [negb].
  - rewrite gzip, gzip_no_inner_extension.
    pose proof (overlapping_shard_selected start stop off c Eo) as Hne.
    destruct (file_indices start stop 1 off c) as [|i0 tl] eqn:Ei; [congruence|].
    cbn [List.length Nat.eqb read_records]. rewrite <- Ei.
    rewrite (offset_select_slice (disk p) start stop 1 off c Hc).
    rewrite (IH Hrest). reflexivity.
  - rewrite (disjoint_shard_selects_nothing (map snd (disk p)) start stop 1 off)
      by (rewrite length_map, Hc; exact Eo).
    cbn [map app]. apply (IH Hrest).
Qed.

(** X3: with a unit step, slicing yields the documents of the full iteration at
    the positions in [[start, stop)], in order. *)
Lemma getitem_unit_step (start stop : Z) (file_paths : list (string * Z)) :
  (forall p c, In (p, c) file_paths -> Z.of_nat (List.length (disk p)) = c) ->
  getitem_records R disk format_type start stop 1 file_paths
  = spec_every_step R (iterate_records R disk format_type file_paths)
      start stop 1.
Proof.
  intros H. unfold getitem_records, spec_every_step, enumerate.
  rewrite (slice_records_from start stop file_paths H 0). f_equal.
  apply filter_ext. intros [i x]. apply in_slice_spec.
Qed.

End UnitStep.

(** ** Lookup by identifier *)











(** ** Further properties of the slice planner *)

(** X1: [in_slice] selects the positions [start], [start + step],
    [start + 2 * step], ... below [stop], as [range(start, stop, step)]
    does for a positive step. *)
Theorem in_slice_iff_range_member :
  forall start stop step index,
    0 < step ->
    (in_slice start stop step index = true
     <-> exists k, 0 <= k /\ index = start + k * step /\ index < stop).
Proof.
  intros start stop step index Hstep. rewrite in_slice_spec.
  rewrite !andb_true_iff, Z.leb_le, Z.ltb_lt, Z.eqb_eq. split.
  - intros [[Hlo Hhi] Hmod].
    apply Z.mod_divide in Hmod; [|lia]. destruct Hmod as (k & Hk).
    exists k. repeat split; [nia|lia|exact Hhi].
  - intros (k & Hk & -> & Hhi). repeat split; [nia|exact Hhi|].
    replace (start + k * step - start) with (k * step) by lia.
    apply Z.mod_mul. lia.
Qed.

Lemma in_slice_range_member_witness :
  in_slice 2 11 3 8 = true.
Proof.
  apply (proj2 (in_slice_iff_range_member 2 11 3 8 ltac:(lia))).
  exists 2. lia.
Defined.

(** X2: [overlaps_slice] holds exactly when the range of the shard and the
    slice share a position; a shard it rules out holds no selected index,
    whatever the step, so leaving it closed loses no document. *)
Theorem overlaps_slice_iff_shared_position :
  forall start stop step index_start count,
    (overlaps_slice start stop index_start (index_start + count) = true
     <-> exists i, index_start <= i < index_start + count /\ start <= i < stop)
    /\ (overlaps_slice start stop index_start (index_start + count) = false ->
        file_indices start stop step index_start count = []).
Proof.
  intros start stop step off count. unfold overlaps_slice. split.
  - rewrite Z.ltb_lt. split.
    + intros H. exists (Z.max off start). lia.
    + intros (i & H1 & H2). lia.
  - intros H. apply Z.ltb_ge in H. unfold file_indices.
    apply filter_all_false. intros i Hi. apply In_range in Hi.
    rewrite in_slice_spec.
    destruct (start <=? off + i) eqn:E1; [|reflexivity].
    destruct (off + i <? stop) eqn:E2; [|reflexivity].
    apply Z.leb_le in E1. apply Z.ltb_lt in E2. lia.
Qed.

Lemma overlaps_slice_witness :
  file_indices 0 3 1 3 2 = [].
Proof.
  apply (proj2 (overlaps_slice_iff_shared_position 0 3 1 3 2)). reflexivity.
Defined.

Lemma sample_counts_consistent :
  forall p c, In (p, c) Sample.files ->
              Z.of_nat (List.length (Sample.disk p)) = c.
Proof.
  intros p c H. simpl in H.
  repeat (destruct H as [H|H]; [inversion H; subst; reflexivity|]).
  contradiction.
Qed.

Lemma getitem_unit_step_witness :
  getitem_records string Sample.disk TXT 2 7 1 Sample.files
  = spec_every_step string (iterate_records string Sample.disk TXT Sample.files)
      2 7 1.
Proof.
  apply (getitem_unit_step string Sample.disk TXT eq_refl 2 7 Sample.files).
  exact sample_counts_consistent.
Defined.

Lemma empty_slice_witness :
  file_iterator_slice string Sample.disk TXT 5 5 1 Sample.files 0 = [].
Proof.
  apply (empty_slice_opens_nothing string Sample.disk TXT 5 5 1 Sample.files).
  lia.
Defined.

(** ** ZIP archives: slicing with any step *)

Lemma read_records_yield_each {R : Type} (p : string) (l : list R)
  (rest : list (IOEvent R)) :
  read_records R (map (fun x => YieldedFile p [x]) l ++ rest)%list
  = (l ++ read_records R rest)%list.
Proof.
  induction l as [|x l IH]; [reflexivity|].
  cbn [map app read_records]. rewrite IH. reflexivity.
Qed.

Lemma filter_all_true {X : Type} (f : X -> bool) (l : list X) :
  (forall x, In x l -> f x = true) -> filter f l = l.
Proof.
  induction l as [|x l IH]; intros H; [reflexivity|].
  cbn [filter]. rewrite (H x (or_introl eq_refl)). f_equal.
  apply IH. intros y Hy. apply H. right. exact Hy.
Qed.

Section ZipStep.

Variable R : Type.
Variable disk : string -> list (string * R).
Variable format_type : ClueWeb22Format.
Variable inner : string.
Hypothesis zip : Format.compression format_type = Is ZIP.
Hypothesis zip_inner : Format.compression_extension format_type = Is inner.

Lemma zip_iterate_records_cons (p : string) (c : Z)
  (rest : list (string * Z)) :
  (forall m, In m (disk p) -> PyStr.endswith inner (fst m) = true) ->
  iterate_records R disk format_type ((p, c) :: rest)
  = (map snd (disk p) ++ iterate_records R disk format_type rest)%list.
Proof.
  intros H. unfold iterate_records. cbn [file_iterator_all read_records].
  rewrite zip, zip_inner.
  rewrite (filter_all_true _ (disk p)) by exact H.
  rewrite <- (map_map snd (fun x => YieldedFile p [x])).
  apply read_records_yield_each.
Qed.

Lemma zip_slice_records_from (start stop step : Z)
  (file_paths : list (string * Z)) :
  archives_as_counted R disk inner file_paths ->
  forall index_offset,
    read_records R
      (file_iterator_slice R disk format_type start stop step file_paths
         index_offset)
    = map snd
        (filter (fun '(i, _) => in_slice start stop step i)
           (enumerate_from index_offset
              (iterate_records R disk format_type file_paths))).
Proof.
  induction file_paths as [|[p c] rest IH]; intros Hcount off; [reflexivity|].
  destruct (Hcount p c (or_introl eq_refl)) as [Hc Hnames].
  assert (Hrest : archives_as_counted R disk inner rest)
    by (intros q d Hq; apply Hcount; right; exact Hq).
  rewrite (zip_iterate_records_cons p c rest Hnames).
  rewrite enumerate_from_app, filter_app, map_app, length_map, Hc.
  cbn [file_iterator_slice].
  destruct (overlaps_slice start stop off (off + c)) eqn:Eo; cbn [negb].
  - cbn [read_records]. rewrite zip, zip_inner.
    rewrite <- (IH Hrest (off + c)).
    pose proof (select_shift (in_slice start stop step) off (disk p) 0) as Hs.
    rewrite Z.add_0_r in Hs. rewrite <- Hs.
    replace (map (fun '(_, m) => YieldedFile p [snd m])
               (filter (fun '(index, _) => in_slice start stop step (off + index))
                  (enumerate (disk p))))
      with (map (fun x => YieldedFile p [x])
              (map (fun '(_, m) => snd m)
                 (filter (fun '(i, _) => in_slice start stop step (off + i))
                    (enumerate_from 0 (disk p))))).
    + rewrite read_records_yield_each. reflexivity.
    + rewrite map_map. unfold enumerate. apply map_ext. intros [i m].
      reflexivity.
  - rewrite (disjoint_shard_selects_nothing (map snd (disk p)) start stop step off)
      by (rewrite length_map, Hc; exact Eo).
    cbn [map app]. apply (IH Hrest).
Qed.

(** X4: for a format kept in ZIP archives, slicing with any step yields the
    records of the full iteration at the positions [start], [start + step],
    ... below [stop], in order, when every archive lists as many members as
    the catalog counts and all of them carry the inner extension: this
    branch of the loop advances the running offset after every archive. *)
Theorem getitem_zip_any_step (start stop step : Z)
  (file_paths : list (string * Z)) :
  archives_as_counted R disk inner file_paths ->
  getitem_records R disk format_type start stop step file_paths
  = spec_every_step R (iterate_records R disk format_type file_paths)
      start stop step.
Proof.
  intros H. unfold getitem_records, spec_every_step, enumerate.
  rewrite (zip_slice_records_from start stop step file_paths H 0). f_equal.
  apply filter_ext. intros [i x]. apply in_slice_spec.
Qed.

End ZipStep.

Lemma zip_sample_as_counted :
  archives_as_counted string zip_disk ".bin" zip_files.
Proof.
  intros p c H. simpl in H.
  repeat (destruct H as [H|H];
          [inversion H; subst; split;
           [reflexivity
           |intros m Hm; simpl in Hm;
            repeat (destruct Hm as [Hm|Hm]; [subst m; reflexivity|]);
            contradiction]|]).
  contradiction.
Qed.

Lemma getitem_zip_any_step_witness :
  getitem_records string zip_disk VDOM 1 5 2 zip_files = ["v1"; "v3"].
Proof.
  rewrite (getitem_zip_any_step string zip_disk VDOM ".bin" eq_refl eq_refl
             1 5 2 zip_files zip_sample_as_counted).
  reflexivity.
Defined.

(** ** What a slice never does *)

Lemma Subseq_refl {X : Type} (l : list X) : Subseq l l.
Proof.
  induction l as [|x l IH]; [apply Subseq_nil|apply Subseq_take, IH].
Qed.

Lemma Subseq_nil_l {X : Type} (l : list X) : Subseq [] l.
Proof.
  induction l as [|x l IH]; [apply Subseq_nil|apply Subseq_skip, IH].
Qed.

Lemma Subseq_app {X : Type} (a b c d : list X) :
  Subseq a b -> Subseq c d -> Subseq (a ++ c)%list (b ++ d)%list.
Proof.
  intros Hab Hcd. induction Hab as [|xs y ys H IH|x xs ys H IH].
  - exact Hcd.
  - cbn [app]. apply Subseq_skip, IH.
  - cbn [app]. apply Subseq_take, IH.
Qed.

Lemma Subseq_app_skip {X : Type} (a b c : list X) :
  Subseq a c -> Subseq a (b ++ c)%list.
Proof.
  intros H. change a with ([] ++ a)%list.
  apply Subseq_app; [apply Subseq_nil_l|exact H].
Qed.

Lemma Subseq_selected {R : Type} (P : Z * (string * R) -> bool)
  (members : list (string * R)) :
  forall a,
    Subseq (map (fun '(_, m) => snd m) (filter P (enumerate_from a members)))
      (map snd members).
Proof.
  induction members as [|m members IH]; intros a; [apply Subseq_nil|].
  cbn [enumerate_from filter map].
  destruct (P (a, m)); cbn [map].
  - apply Subseq_take, IH.
  - apply Subseq_skip, IH.
Qed.

Lemma opened_paths_yield_each {R X : Type} (p : string) (f : X -> list R)
  (l : list X) (rest : list (IOEvent R)) :
  opened_paths R (map (fun x => YieldedFile p (f x)) l ++ rest)%list
  = opened_paths R rest.
Proof.
  induction l as [|x l IH]; [reflexivity|]. cbn [map app]. exact IH.
Qed.

(** X6: a slice opens shards of the catalog only, in the order of the
    catalog and none more often than the catalog lists it, whatever the
    format and the bounds. *)
Theorem slice_opens_catalog_shards_in_order :
  forall (R : Type) (disk : string -> list (string * R))
         (format_type : ClueWeb22Format) (start stop step : Z)
         (file_paths : list (string * Z)) (index_offset : Z),
    Subseq
      (opened_paths R
         (file_iterator_slice R disk format_type start stop step file_paths
            index_offset))
      (map fst file_paths).
Proof.
  intros R disk format_type start stop step file_paths.
  induction file_paths as [|[p c] rest IH]; intros off; [apply Subseq_nil|].
  cbn [file_iterator_slice map fst].
  destruct (overlaps_slice start stop off (off + c)); cbn [negb].
  - change (opened_paths R (Opened p :: ?l)) with (p :: opened_paths R l).
    set (tail := match Format.compression format_type with
                 | Is GZIP => _ | _ => _ end).
    change (Subseq (p :: opened_paths R tail) (p :: map fst rest)).
    apply Subseq_take. subst tail.
    destruct (Format.compression format_type) as [[|]| |];
      destruct (Format.compression_extension format_type) as [e| |];
      try apply Subseq_nil_l.
    + destruct (List.length _ =? 0)%nat; [apply IH|].
      change (opened_paths R (YieldedFile ?q ?r :: ?l)) with (opened_paths R l).
      apply IH.
    + rewrite (map_ext _ (fun x : Z * (string * R) =>
                            YieldedFile p [snd (snd x)]))
        by (intros [i m]; reflexivity).
      rewrite (opened_paths_yield_each p (fun x => [snd (snd x)])). apply IH.
  - apply Subseq_skip, IH.
Qed.

(** X7: for a gzip format a slice yields records of the full iteration only, in
    the order of the full iteration and none of them twice, whatever the
    bounds, the step and the counts of the catalog. *)
Theorem gzip_slice_yields_subsequence :
  forall (R : Type) (disk : string -> list (string * R))
         (format_type : ClueWeb22Format) (start stop step : Z)
         (file_paths : list (string * Z)),
    Format.compression format_type = Is GZIP ->
    Subseq (getitem_records R disk format_type start stop step file_paths)
      (iterate_records R disk format_type file_paths).
Proof.
  intros R disk format_type start stop step file_paths gzip.
  unfold getitem_records. generalize 0 as off.
  induction file_paths as [|[p c] rest IH]; intros off; [apply Subseq_nil|].
  rewrite (iterate_records_cons R disk format_type gzip).
  cbn [file_iterator_slice].
  destruct (overlaps_slice start stop off (off + c)); cbn [negb].
  - rewrite gzip, (gzip_no_inner_extension format_type gzip).
    cbn [read_records].
    destruct (List.length _ =? 0)%nat.
    + apply Subseq_app_skip, IH.
    + cbn [read_records]. apply Subseq_app; [|apply IH].
      unfold offset_select, enumerate. apply Subseq_selected.
  - apply Subseq_app_skip, IH.
Qed.

Lemma gzip_slice_subsequence_witness :
  Subseq (getitem_records string Sample.disk TXT 0 8 5 Sample.files)
    (iterate_records string Sample.disk TXT Sample.files).
Proof.
  apply (gzip_slice_yields_subsequence string Sample.disk TXT 0 8 5
           Sample.files).
  reflexivity.
Defined.

(** ** Further properties of the identifier codec *)

Lemma from_string_bounds_witness :
  0 <= 0 <= 99 /\ 0 <= 0 <= 80 /\ 0 <= 0 <= 100 /\ 0 <= 366.
Proof.
  apply (from_string_bounds "clueweb22-de0000-00-00366"
           (DocId.mk "de" 0 0 0 366)).
  vm_compute. reflexivity.
Defined.

(** ** Further properties of the combiners *)

Lemma split_hd_no_sep (sep : ascii) (s : string) :
  PyStr.contains_char sep (hd "" (PyStr.split sep s)) = false.
Proof.
  induction s as [|c r IH]; [reflexivity|].
  cbn [PyStr.split]. destruct (Ascii.eqb c sep) eqn:E; [reflexivity|].
  pose proof (split_not_nil sep r) as Hne.
  destruct (PyStr.split sep r) as [|h t]; [congruence|].
  cbn [hd PyStr.contains_char] in *. rewrite E, IH. reflexivity.
Qed.

Lemma split_hd_prefix (sep : ascii) (s : string) :
  PyStr.contains_char sep s = true ->
  exists rest, s = hd "" (PyStr.split sep s) ++ String sep rest.
Proof.
  induction s as [|c r IH]; [discriminate|].
  cbn [PyStr.split PyStr.contains_char].
  destruct (Ascii.eqb c sep) eqn:E.
  - intros _. apply Ascii.eqb_eq in E. subst c. exists r. reflexivity.
  - cbn [orb]. intros H. destruct (IH H) as (rest & Hr).
    pose proof (split_not_nil sep r) as Hne.
    destruct (PyStr.split sep r) as [|h t]; [congruence|].
    cbn [hd] in *. exists rest. cbn [append]. rewrite <- Hr. reflexivity.
Qed.

Lemma split_hd_app (sep : ascii) (a b : string) :
  PyStr.contains_char sep a = false ->
  hd "" (PyStr.split sep (a ++ String sep b)) = a.
Proof.
  intros H. rewrite split_app_sep, (split_no_sep sep a H). reflexivity.
Qed.

Lemma truncated_url_check_true (txt : Txt.t) (html : Html.t) :
  truncated_url_check txt html = true
  <-> PyStr.contains_char "," (Txt.url txt) = false
      /\ exists rest, Html.url html = Txt.url txt ++ "," ++ rest.
Proof.
  unfold truncated_url_check. rewrite andb_true_iff, String.eqb_eq. split.
  - intros [Hc Hh]. split.
    + rewrite <- Hh. apply split_hd_no_sep.
    + destruct (split_hd_prefix "," _ Hc) as (rest & Hr).
      exists rest. rewrite <- Hh. exact Hr.
  - intros [Hn (rest & Hr)]. rewrite Hr. split.
    + rewrite contains_char_app. cbn. apply orb_true_r.
    + apply (split_hd_app "," (Txt.url txt) rest Hn).
Qed.

Lemma link_checks_passes name err txt html link :
  (exists log, link_checks name err txt html link = inr log)
  <-> link_ok html link.
Proof.
  unfold link_checks, link_ok. destruct link as [l|].
  - destruct (str_neq (Link.doc_id l) (Html.doc_id html)) eqn:E.
    + apply str_neq_true in E. split; [intros (log & H); discriminate|tauto].
    + apply str_neq_false in E. split; [tauto|eauto].
  - split; eauto.
Qed.

Lemma checks_passes (t : Aligned) :
  snd (checks t) = None <-> consistent t.
Proof.
  destruct t as [[[[txt html] inlink] outlink] vdom].
  unfold checks, consistent.
  rewrite <- (link_checks_passes "inlink" InlinkDocIdAssertion txt html inlink).
  rewrite <- (link_checks_passes "outlink" OutlinkDocIdAssertion txt html outlink).
  rewrite <- truncated_url_check_true.
  destruct (str_neq (Txt.doc_id txt) (Html.doc_id html)) eqn:E1.
  { apply str_neq_true in E1. cbn [snd]. split; [discriminate|tauto]. }
  apply str_neq_false in E1.
  destruct (str_neq (Txt.url txt) (Html.url html)) eqn:E2;
    [apply str_neq_true in E2|apply str_neq_false in E2];
    destruct (truncated_url_check txt html) eqn:E3; cbn [negb andb snd].
  2:{ split; [discriminate|]. intros (_ & [H|H] & _); congruence. }
  all: unfold language_check;
    destruct (String.eqb_spec (Txt.language txt) "other") as [E4|E4];
    destruct (String.eqb_spec (Txt.language txt) (Html.language html))
      as [E5|E5];
    cbn [orb negb snd].
  all: try (split; [discriminate|intros (_ & _ & [H|H] & _); congruence]).
  all: destruct (link_checks "inlink" InlinkDocIdAssertion txt html inlink)
         as [e3|log3];
    [cbn [snd]; split;
     [discriminate|intros (_ & _ & _ & (log & H) & _); discriminate]|].
  all: destruct (link_checks "outlink" OutlinkDocIdAssertion txt html outlink)
         as [e4|log4];
    [cbn [snd]; split;
     [discriminate|intros (_ & _ & _ & _ & (log & H)); discriminate]|].
  all: cbn [snd]; split; [intros _|reflexivity]; repeat split; eauto.
Qed.

Lemma combine_loop_raised_none {D : Type} (make : Aligned -> D)
  (zipped : list Aligned) :
  raised (combine_loop make zipped) = None
  <-> Forall consistent zipped.
Proof.
  induction zipped as [|t rest IH]; cbn [combine_loop].
  - split; [constructor|reflexivity].
  - pose proof (checks_passes t) as Ht.
    destruct (checks t) as [log [e|]]; cbn [snd raised] in *.
    + split; [discriminate|]. intros H. inversion H; subst.
      apply Ht in H2. discriminate.
    + rewrite IH. split.
      * intros H. constructor; [apply Ht; reflexivity|exact H].
      * intros H. inversion H; assumption.
Qed.

(** X9: a combiner runs to the end without an assertion exactly when the
    records of every aligned tuple belong together: same identifier, same
    URL up to the part of the HTML record's URL after its first comma, same
    language unless the TXT record says "other", and link records that are
    missing or carry the identifier of the HTML record.  A differing URL
    hash or a differing URL of a link record never ends the run. *)
Theorem combiner_completes_iff_consistent :
  forall txt html inlink outlink vdom,
    (raised (_combine_a_docs txt html inlink outlink vdom) = None
     <-> Forall consistent (zip5 txt html inlink outlink vdom))
    /\ (raised (_combine_b_docs txt html inlink outlink vdom) = None
        <-> Forall consistent (zip5 txt html inlink outlink vdom)).
Proof.
  intros. split; apply combine_loop_raised_none.
Qed.

Lemma combine_loop_prefix {D : Type} (make : Aligned -> D)
  (pre : list Aligned) (t : Aligned) (post : list Aligned) :
  Forall consistent pre -> ~ consistent t ->
  yielded (combine_loop make (pre ++ t :: post)) = map make pre
  /\ raised (combine_loop make (pre ++ t :: post)) = snd (checks t)
  /\ snd (checks t) <> None.
Proof.
  intros Hpre Ht. rewrite <- checks_passes in Ht.
  induction Hpre as [|x pre Hx Hpre IH]; cbn [app combine_loop map].
  - destruct (checks t) as [log [e|]]; cbn [snd] in *; [|congruence].
    repeat split; discriminate.
  - apply checks_passes in Hx.
    destruct (checks x) as [log [e|]]; cbn [snd] in Hx; [discriminate|].
    destruct IH as (IH1 & IH2 & IH3).
    cbn [yielded raised]. rewrite IH1, IH2. auto.
Qed.

(** X10: a combiner yields the documents of the tuples before the first one
    whose records do not belong together, and ends with the assertion that
    tuple fails; nothing after it is looked at. *)
Theorem combiner_stops_at_first_inconsistent :
  forall txt html inlink outlink vdom pre t post,
    zip5 txt html inlink outlink vdom = (pre ++ t :: post)%list ->
    Forall consistent pre ->
    ~ consistent t ->
    (yielded (_combine_a_docs txt html inlink outlink vdom)
     = map make_a_doc pre
     /\ raised (_combine_a_docs txt html inlink outlink vdom)
        = snd (checks t))
    /\ (yielded (_combine_b_docs txt html inlink outlink vdom)
        = map make_b_doc pre
        /\ raised (_combine_b_docs txt html inlink outlink vdom)
           = snd (checks t))
    /\ snd (checks t) <> None.
Proof.
  intros txt html inlink outlink vdom pre t post Hz Hpre Ht.
  unfold _combine_a_docs, _combine_b_docs. rewrite Hz.
  destruct (combine_loop_prefix make_a_doc pre t post Hpre Ht) as (A1 & A2 & A3).
  destruct (combine_loop_prefix make_b_doc pre t post Hpre Ht) as (B1 & B2 & _).
  auto.
Qed.

Lemma sample_de_consistent : consistent (Sample.tuple "de").
Proof. apply checks_passes. reflexivity. Qed.

Lemma sample_fr_inconsistent : ~ consistent (Sample.tuple "fr").
Proof. intros H. apply checks_passes in H. discriminate. Qed.

Lemma combiner_stops_witness :
  (yielded (_combine_a_docs [Sample.txt "de"; Sample.txt "fr"; Sample.txt "de"]
              [Sample.html; Sample.html; Sample.html] [None; None; None]
              [None; None; None] [Sample.vdom; Sample.vdom; Sample.vdom])
   = map make_a_doc [Sample.tuple "de"]
   /\ raised (_combine_a_docs
                [Sample.txt "de"; Sample.txt "fr"; Sample.txt "de"]
                [Sample.html; Sample.html; Sample.html] [None; None; None]
                [None; None; None] [Sample.vdom; Sample.vdom; Sample.vdom])
      = snd (checks (Sample.tuple "fr")))
  /\ (yielded (_combine_b_docs
                 [Sample.txt "de"; Sample.txt "fr"; Sample.txt "de"]
                 [Sample.html; Sample.html; Sample.html] [None; None; None]
                 [None; None; None] [Sample.vdom; Sample.vdom; Sample.vdom])
      = map make_b_doc [Sample.tuple "de"]
      /\ raised (_combine_b_docs
                   [Sample.txt "de"; Sample.txt "fr"; Sample.txt "de"]
                   [Sample.html; Sample.html; Sample.html] [None; None; None]
                   [None; None; None] [Sample.vdom; Sample.vdom; Sample.vdom])
         = snd (checks (Sample.tuple "fr")))
  /\ snd (checks (Sample.tuple "fr")) <> None.
Proof.
  apply (combiner_stops_at_first_inconsistent
           [Sample.txt "de"; Sample.txt "fr"; Sample.txt "de"]
           [Sample.html; Sample.html; Sample.html] [None; None; None]
           [None; None; None] [Sample.vdom; Sample.vdom; Sample.vdom]
           [Sample.tuple "de"] (Sample.tuple "fr") [Sample.tuple "de"]).
  - reflexivity.
  - constructor; [exact sample_de_consistent|constructor].
  - exact sample_fr_inconsistent.
Defined.

Lemma zip5_length (a : list Txt.t) :
  forall (b : list Html.t) (c d : list (option Link.t)) (e : list Vdom.t),
    List.length (zip5 a b c d e)
    = Nat.min (List.length a)
        (Nat.min (List.length b)
           (Nat.min (List.length c)
              (Nat.min (List.length d) (List.length e)))).
Proof.
  induction a as [|x a IH]; intros b c d e; [reflexivity|].
  destruct b as [|y b]; [reflexivity|].
  destruct c as [|z c]; [cbn; lia|].
  destruct d as [|u d]; [cbn; lia|].
  destruct e as [|v e]; [cbn; lia|].
  cbn [zip5 List.length]. rewrite IH. lia.
Qed.

(** X11: a run that ends without an assertion yields as many documents as the
    shortest of the five record streams holds: records of a longer stream
    beyond that are dropped without a message. *)
Theorem combiner_yields_shortest_stream :
  forall txt html inlink outlink vdom,
    raised (_combine_a_docs txt html inlink outlink vdom) = None ->
    List.length (yielded (_combine_a_docs txt html inlink outlink vdom))
    = Nat.min (List.length txt)
        (Nat.min (List.length html)
           (Nat.min (List.length inlink)
              (Nat.min (List.length outlink) (List.length vdom))))
    /\ logged (_combine_a_docs txt html inlink outlink vdom)
       = flat_map (fun t => fst (checks t))
           (zip5 txt html inlink outlink vdom).
Proof.
  intros txt html inlink outlink vdom H. rewrite <- zip5_length.
  unfold _combine_a_docs in *.
  induction (zip5 txt html inlink outlink vdom) as [|t rest IH];
    [split; reflexivity|].
  cbn [combine_loop flat_map] in *.
  destruct (checks t) as [log [e|]]; cbn [raised yielded logged fst] in *;
    [discriminate|].
  destruct (IH H) as [IH1 IH2]. cbn [List.length]. rewrite IH1, IH2.
  split; reflexivity.
Qed.

Lemma combiner_yields_shortest_witness :
  List.length
    (yielded (_combine_a_docs [Sample.txt "de"; Sample.txt "de"]
                [Sample.html] [None; None] [None; None; None]
                [Sample.vdom; Sample.vdom]))
  = 1%nat
  /\ logged (_combine_a_docs [Sample.txt "de"; Sample.txt "de"]
               [Sample.html] [None; None] [None; None; None]
               [Sample.vdom; Sample.vdom])
     = flat_map (fun t => fst (checks t))
         (zip5 [Sample.txt "de"; Sample.txt "de"]
            [Sample.html] [None; None] [None; None; None]
            [Sample.vdom; Sample.vdom]).
Proof.
  apply (combiner_yields_shortest_stream [Sample.txt "de"; Sample.txt "de"]
           [Sample.html] [None; None] [None; None; None]
           [Sample.vdom; Sample.vdom]).
  reflexivity.
Defined.

(** ** Further properties of the offset sidecars *)

Lemma concat_empty_app (l1 l2 : list string) :
  String.concat "" (l1 ++ l2)%list
  = (String.concat "" l1 ++ String.concat "" l2)%string.
Proof.
  induction l1 as [|x l1 IH]; [reflexivity|].
  destruct l1 as [|y l1].
  - cbn [app]. destruct l2 as [|z l2]; cbn [String.concat append].
    + induction x as [|c x IHx]; [reflexivity|].
      cbn [append]. rewrite <- IHx. reflexivity.
    + reflexivity.
  - change (String.concat "" ((x :: y :: l1) ++ l2)%list)
      with (x ++ "" ++ String.concat "" ((y :: l1) ++ l2)%list)%string.
    change (String.concat "" (x :: y :: l1))
      with (x ++ "" ++ String.concat "" (y :: l1))%string.
    rewrite IH. cbn [append]. rewrite str_app_assoc. reflexivity.
Qed.

(** X12: the repair of run-on lines only cuts lines: the lines it yields,
    written one after the other, are the text of the lines it was given. *)
Theorem fix_missing_line_break_keeps_text :
  forall lines,
    String.concat "" (_fix_missing_line_break lines)
    = String.concat "" lines.
Proof.
  induction lines as [|line rest IH]; [reflexivity|].
  rewrite fix_missing_line_break_cons.
  change (line :: rest) with ([line] ++ rest)%list.
  rewrite !concat_empty_app, IH. f_equal.
  destruct (11 <? String.length line)%nat; [|reflexivity].
  cbn [String.concat append]. apply take_drop.
Qed.

(** X13: lines of at most eleven characters, such as ten digits and a line
    break, pass through the repair unchanged. *)
Theorem fix_missing_line_break_short_lines :
  forall lines,
    Forall (fun line => (String.length line <= 11)%nat) lines ->
    _fix_missing_line_break lines = lines.
Proof.
  intros lines H. induction H as [|line rest Hl Hrest IH]; [reflexivity|].
  rewrite fix_missing_line_break_cons, IH.
  destruct (Nat.ltb_spec 11 (String.length line)); [lia|reflexivity].
Qed.

Lemma fix_missing_line_break_short_witness :
  _fix_missing_line_break
    ["0000000000" ++ String "010" ""; "0472333010" ++ String "010" ""]
  = ["0000000000" ++ String "010" ""; "0472333010" ++ String "010" ""].
Proof.
  apply fix_missing_line_break_short_lines.
  repeat constructor.
Defined.

Lemma rstrip_digits_newline (s : string) :
  PyStr.all_digits s = true ->
  PyStr.rstrip (s ++ String "010" "") = s.
Proof.
  induction s as [|c s IH]; [reflexivity|].
  cbn [PyStr.all_digits]. intros H. apply andb_true_iff in H.
  destruct H as [Hc Hs].
  destruct (digit_not_special c Hc) as (Hsp & _).
  cbn [append PyStr.rstrip]. rewrite Hsp, (IH Hs). reflexivity.
Qed.

Lemma int_digits_newline (s : string) :
  PyStr.all_digits s = true -> s <> "" ->
  PyStr.int (s ++ String "010" "") = Some (PyStr.value_from 0 s).
Proof.
  intros H Hne. rewrite <- (int_digits s H Hne).
  destruct s as [|c s]; [congruence|].
  pose proof H as H'. cbn [PyStr.all_digits] in H'.
  apply andb_true_iff in H'. destruct H' as [Hc Hs].
  destruct (digit_not_special c Hc) as (Hsp & _).
  unfold PyStr.int, PyStr.strip.
  replace (PyStr.lstrip (String c s ++ String "010" ""))
    with (String c s ++ String "010" "")%string
    by (cbn [append PyStr.lstrip]; rewrite Hsp; reflexivity).
  replace (PyStr.lstrip (String c s)) with (String c s)
    by (cbn [PyStr.lstrip]; rewrite Hsp; reflexivity).
  rewrite rstrip_digits_newline by exact H.
  rewrite rstrip_digits by exact H. reflexivity.
Qed.

(** X14: a run-on line of more than eleven characters that holds two offsets,
    the first of ten digits, is read as the two offsets, with or without a
    line break at its end; this is the repair the sidecar of [ja0009-57]
    needs. *)
Theorem run_on_line_read_as_two_offsets :
  forall a b nl,
    PyStr.all_digits a = true -> String.length a = 10%nat ->
    PyStr.all_digits b = true -> b <> "" ->
    nl = "" \/ nl = String "010" "" ->
    (11 < String.length (a ++ b ++ nl))%nat ->
    ints (_fix_missing_line_break [a ++ b ++ nl])
    = Some [PyStr.value_from 0 a; PyStr.value_from 0 b].
Proof.
  intros a b nl Ha Hla Hb Hbne Hnl Hlong.
  rewrite fix_missing_line_break_cons.
  apply Nat.ltb_lt in Hlong. rewrite Hlong.
  rewrite <- Hla at 1 2. rewrite take_app_length, drop_app_length.
  cbn [app ints].
  rewrite (int_digits a Ha) by (destruct a; discriminate).
  destruct Hnl as [->| ->].
  - assert (Hb0 : (b ++ "")%string = b)
      by (clear; induction b as [|c b IH]; [reflexivity|];
          cbn [append]; rewrite IH; reflexivity).
    rewrite Hb0, (int_digits b Hb Hbne). reflexivity.
  - rewrite (int_digits_newline b Hb Hbne). reflexivity.
Qed.

Lemma run_on_line_witness :
  ints (_fix_missing_line_break ["0472333010" ++ "0472349245" ++ String "010" ""])
  = Some [PyStr.value_from 0 "0472333010"; PyStr.value_from 0 "0472349245"].
Proof.
  apply (run_on_line_read_as_two_offsets "0472333010" "0472349245"
           (String "010" "")).
  - reflexivity.
  - reflexivity.
  - reflexivity.
  - discriminate.
  - right. reflexivity.
  - simpl. lia.
Defined.

Lemma startswith_sep_app (x e e' : string) :
  PyStr.contains_char "/" e = false -> PyStr.contains_char "/" e' = false ->
  e <> "" -> e' <> "" ->
  PyStr.startswith "/" (x ++ e) = PyStr.startswith "/" (x ++ e').
Proof.
  intros He He' Hne Hne'. unfold PyStr.startswith.
  destruct x as [|c x].
  - destruct e as [|c e]; [congruence|]. destruct e' as [|c' e']; [congruence|].
    cbn [append String.prefix PyStr.contains_char] in *.
    apply orb_false_iff in He. apply orb_false_iff in He'.
    destruct He as [He _]. destruct He' as [He' _].
    apply Ascii.eqb_neq in He. apply Ascii.eqb_neq in He'.
    destruct (ascii_dec "/" c); [congruence|].
    destruct (ascii_dec "/" c'); [congruence|]. reflexivity.
  - cbn [append String.prefix]. destruct (ascii_dec "/" c); [|reflexivity].
    rewrite !prefix_nil. reflexivity.
Qed.

Lemma path_join2_prefix (d b b' : string) :
  PyStr.startswith "/" b = PyStr.startswith "/" b' ->
  exists pre,
    PyStr.path_join2 d b = (pre ++ b)%string
    /\ PyStr.path_join2 d b' = (pre ++ b')%string.
Proof.
  intros H. unfold PyStr.path_join2. rewrite <- H.
  destruct (PyStr.startswith "/" b).
  - exists "". split; reflexivity.
  - destruct (String.eqb d "" || PyStr.endswith "/" d).
    + exists d. split; reflexivity.
    + exists (d ++ "/")%string. rewrite !str_app_assoc. split; reflexivity.
Qed.

Lemma path_with_name_join2 (d x e e' : string) :
  PyStr.contains_char "/" e = false -> PyStr.contains_char "/" e' = false ->
  e <> "" -> e' <> "" ->
  PyStr.path_with_name (PyStr.path_join2 d (x ++ e)) (PyStr.path_name x ++ e')
  = PyStr.path_join2 d (x ++ e').
Proof.
  intros He He' Hne Hne'. unfold PyStr.path_with_name.
  rewrite path_name_join2, (path_name_app_no_sep x e He).
  destruct (path_join2_prefix d (x ++ e) (x ++ e')
              (startswith_sep_app x e e' He He' Hne Hne')) as (pre & H1 & H2).
  rewrite H1, H2. clear H1 H2.
  destruct (path_name_suffix x) as (dir & Hx).
  set (n := PyStr.path_name x) in *. clearbody n. subst x.
  replace (pre ++ (dir ++ n) ++ e)%string
    with ((pre ++ dir) ++ (n ++ e))%string
    by (rewrite !str_app_assoc; reflexivity).
  replace (String.length ((pre ++ dir) ++ n ++ e)
           - String.length (n ++ e))%nat
    with (String.length (pre ++ dir))
    by (rewrite (str_length_app (pre ++ dir)); lia).
  rewrite take_app_length, !str_app_assoc. reflexivity.
Qed.

(** X15: for a gzip format the offsets of a shard are read from the file next to
    it whose name is that of the shard with the format's extension replaced
    by the offset extension; when that file cannot be opened, or a line of
    it is not an integer, reading fails. *)
Theorem read_offsets_opens_sidecar_next_to_shard :
  forall root format_type path open_text,
    Format.compression format_type = Is GZIP ->
    exists offset_extension,
      Format.offset_extension format_type = Is offset_extension
      /\ _read_offsets open_text (shard_file_path root format_type path)
           format_type
         = match open_text
                   (path_div (path_div root (Format.id format_type))
                      (_fix_path path format_type ++ offset_extension)) with
           | None => None
           | Some lines =>
               ints (if repairs_line_breaks
                          (shard_file_path root format_type path) format_type
                     then _fix_missing_line_break lines
                     else lines)
           end.
Proof.
  intros root format_type path open_text Hg.
  destruct (gzip_format_extensions format_type Hg)
    as (e & oe & He & Ho & Hne & Hone).
  destruct (shard_offsets_name root format_type path e oe He Ho Hne Hone)
    as [Hend Hname].
  exists oe. split; [exact Ho|].
  assert (Hsep : PyStr.contains_char "/" e = false
                 /\ PyStr.contains_char "/" oe = false).
  { destruct format_type; try discriminate; cbn in He, Ho;
      inversion He; inversion Ho; split; reflexivity. }
  destruct Hsep as [Hse Hsoe].
  unfold _read_offsets, repairs_line_breaks.
  rewrite He, Hend, Hname. cbn [negb].
  destruct (String.eqb (PyStr.path_name (_fix_path path format_type) ++ oe) "")
    eqn:E.
  { apply String.eqb_eq in E. apply app_not_nil_r in E; [contradiction|exact Hone]. }
  assert (Hside :
    PyStr.path_with_name (shard_file_path root format_type path)
      (PyStr.path_name (_fix_path path format_type) ++ oe)
    = path_div (path_div root (Format.id format_type))
        (_fix_path path format_type ++ oe)).
  { unfold shard_file_path, path_div, Format.extension_str. rewrite He.
    apply path_with_name_join2; assumption. }
  rewrite Hside.
  destruct (open_text _); [|reflexivity].
  destruct (String.eqb _ "ja0009-57.warc.offset"); reflexivity.
Qed.

Lemma read_offsets_sidecar_witness :
  exists offset_extension,
    Format.offset_extension TXT = Is offset_extension
    /\ _read_offsets (fun _ => Some ["0000000000"; "0000001024"])
         (shard_file_path "/data" TXT "en/en00/en0000/en0000-00") TXT
       = match (fun _ : string => Some ["0000000000"; "0000001024"])
                 (path_div (path_div "/data" (Format.id TXT))
                    (_fix_path "en/en00/en0000/en0000-00" TXT
                     ++ offset_extension)) with
         | None => None
         | Some lines =>
             ints (if repairs_line_breaks
                        (shard_file_path "/data" TXT "en/en00/en0000/en0000-00")
                        TXT
                   then _fix_missing_line_break lines
                   else lines)
         end.
Proof.
  apply (read_offsets_opens_sidecar_next_to_shard "/data" TXT
           "en/en00/en0000/en0000-00"
           (fun _ => Some ["0000000000"; "0000001024"])).
  reflexivity.
Defined.

(** X16: offsets can be read for the gzip formats only, and only of a file whose
    name ends with the extension of the format: for VDOM, for JPG and for
    any other file name reading them fails. *)
Theorem read_offsets_only_for_gzip_shards :
  forall open_text file_path format_type offsets,
    _read_offsets open_text file_path format_type = Some offsets ->
    Format.compression format_type = Is GZIP
    /\ exists extension,
         Format.extension format_type = Is extension
         /\ PyStr.endswith extension (PyStr.path_name file_path) = true.
Proof.
  intros open_text file_path format_type offsets H.
  unfold _read_offsets in H.
  destruct (Format.extension format_type) as [e| |] eqn:He; try discriminate.
  destruct (PyStr.endswith e (PyStr.path_name file_path)) eqn:Hend;
    cbn [negb] in H; [|discriminate].
  split; [|exists e; auto].
  destruct format_type; try reflexivity; cbn in H; discriminate.
Qed.

Lemma read_offsets_only_for_gzip_witness :
  Format.compression TXT = Is GZIP
  /\ exists extension,
       Format.extension TXT = Is extension
       /\ PyStr.endswith extension
            (PyStr.path_name "txt/en/en00/en0000/en0000-00.json.gz") = true.
Proof.
  apply (read_offsets_only_for_gzip_shards
           (fun _ => Some ["0000000000"; "0000001024"])
           "txt/en/en00/en0000/en0000-00.json.gz" TXT [0; 1024]).
  reflexivity.
Defined.

(** ** Counts of the catalog and of the shards *)

Lemma map_snd_file_paths (root : string) (format_type : ClueWeb22Format)
  (l : list (FileId.t * Z)) :
  map snd
    (map (fun '(file_id, count) =>
            (shard_file_path root format_type (FileId.path file_id), count)) l)
  = map snd l.
Proof.
  induction l as [|[f c] l IH]; [reflexivity|].
  cbn [map snd]. rewrite IH. reflexivity.
Qed.

(** X17: when the catalog of a format lists the files of the diff catalog in the
    same relative order, the shards of the format come with the counts of
    the diff catalog, one shard per file, and the counts add up to
    [docs_count]: the positions the slice planner walks through are exactly
    the positions [__getitem__] normalises a slice against. *)
Theorem file_paths_counts_add_up_to_docs_count :
  forall (order : SetOrder ClueWeb22Format) (docs : ClueWeb22Docs)
         (format_type : ClueWeb22Format),
    Subseq (map fst (diff_format_record_counts order docs))
      (map fst (_record_counts docs format_type)) ->
    map snd (_file_paths order docs format_type)
    = map snd (diff_format_record_counts order docs)
    /\ py_sum (map snd (_file_paths order docs format_type))
       = docs_count order docs.
Proof.
  intros order docs format_type H. unfold _file_paths, docs_count.
  rewrite map_snd_file_paths. unfold record_counts.
  rewrite (record_counts_loop_complete _ _ H). split; reflexivity.
Qed.

Lemma file_paths_counts_witness :
  map snd (_file_paths (nodup_order Format.eq_dec) Sample.docs_broader TXT)
  = map snd (diff_format_record_counts (nodup_order Format.eq_dec)
               Sample.docs_broader)
  /\ py_sum
       (map snd (_file_paths (nodup_order Format.eq_dec) Sample.docs_broader TXT))
     = docs_count (nodup_order Format.eq_dec) Sample.docs_broader.
Proof.
  apply (file_paths_counts_add_up_to_docs_count (nodup_order Format.eq_dec)
           Sample.docs_broader TXT).
  simpl. apply Subseq_take, Subseq_skip, Subseq_take, Subseq_nil.
Defined.

(** ** Documents of the L view *)

Lemma filter_enumerate_map {X Y : Type} (f : X -> Y) (P : Z -> bool)
  (l : list X) :
  forall a,
    map snd (filter (fun '(i, _) => P i) (enumerate_from a (map f l)))
    = map f (map snd (filter (fun '(i, _) => P i) (enumerate_from a l))).
Proof.
  induction l as [|x l IH]; intros a; [reflexivity|].
  cbn [map enumerate_from filter]. destruct (P a); cbn [map snd];
    rewrite IH; reflexivity.
Qed.

(** X18: for the L view a slice with a unit step yields the documents of the
    full iteration at the positions from [start] up to [stop], in order,
    when every shard holds as many records as the catalog counts. *)
Theorem l_view_unit_step_slice :
  forall (disk : string -> list (string * Txt.t)) (start stop : Z)
         (file_paths : list (string * Z)),
    (forall p c, In (p, c) file_paths ->
                 Z.of_nat (List.length (disk p)) = c) ->
    getitem_l_docs disk start stop 1 file_paths
    = spec_every_step LDoc.t (iter_l_docs disk file_paths) start stop 1.
Proof.
  intros disk start stop file_paths H.
  unfold getitem_l_docs, iter_l_docs, getitem_records, spec_every_step,
    enumerate, _combine_l_docs.
  rewrite (slice_records_from Txt.t disk TXT eq_refl start stop file_paths H 0).
  assert (E : forall l : list (Z * LDoc.t),
             filter (fun '(i, _) =>
                       (start <=? i) && (i <? stop)
                       && ((i - start) mod 1 =? 0)) l
             = filter (fun '(i, _) => in_slice start stop 1 i) l)
    by (intros l; apply filter_ext; intros [i x]; symmetry;
        apply in_slice_spec).
  rewrite E. symmetry.
  apply (filter_enumerate_map _ (in_slice start stop 1)).
Qed.

Lemma txt_disk_counts_consistent :
  forall p c, In (p, c) Sample.files ->
              Z.of_nat (List.length (txt_disk p)) = c.
Proof.
  intros p c H. unfold txt_disk. rewrite length_map.
  apply sample_counts_consistent, H.
Qed.

Lemma l_view_unit_step_slice_witness :
  getitem_l_docs txt_disk 2 4 1 Sample.files
  = spec_every_step LDoc.t (iter_l_docs txt_disk Sample.files) 2 4 1.
Proof.
  apply (l_view_unit_step_slice txt_disk 2 4 Sample.files).
  exact txt_disk_counts_consistent.
Defined.

(** ** The language filter of the lookup *)

(** X19: the lookup refuses the identifiers, before any shard is opened, exactly
    when the reader is restricted to a language and one of the identifiers
    is of another language. *)
Theorem docstore_rejects_other_languages :
  forall (docs : ClueWeb22Docs) (format_type : ClueWeb22Format)
         (doc_ids : list DocId.t),
    docstore_file_paths docs format_type doc_ids = None
    <-> exists l d,
          _language docs = Some l
          /\ In d doc_ids
          /\ DocId.language d <> Language.id l.
Proof.
  intros docs format_type doc_ids. unfold docstore_file_paths.
  destruct (_language docs) as [l|].
  - destruct (filter _ doc_ids) as [|d invalid] eqn:E; cbn [List.length].
    + split; [discriminate|]. intros (l' & d & Hl & Hd & Hne).
      inversion Hl; subst l'.
      assert (Hin : In d (filter
                (fun d => str_neq (DocId.language d) (Language.id l)) doc_ids))
        by (apply filter_In; split; [exact Hd|apply str_neq_true; exact Hne]).
      rewrite E in Hin. contradiction.
    + split; [intros _|reflexivity].
      assert (Hin : In d (filter
                (fun d => str_neq (DocId.language d) (Language.id l)) doc_ids))
        by (rewrite E; left; reflexivity).
      apply filter_In in Hin. destruct Hin as [Hd Hne].
      exists l, d. repeat split; [exact Hd|apply str_neq_true; exact Hne].
  - cbn. split; [discriminate|]. intros (l & d & Hl & _). discriminate.
Qed.

(** ** Registration *)

Lemma two_views_order (order : SetOrder ClueWeb22Subset) :
  iter order [A; L] = [A; L] \/ iter order [A; L] = [L; A].
Proof.
  pose proof (iter_NoDup order [A; L]) as Hnd.
  pose proof (iter_In order [A; L]) as Hin.
  destruct (iter order [A; L]) as [|x [|y [|z l]]].
  - exfalso. apply (Hin A). left. reflexivity.
  - exfalso.
    assert (HA : In A [x]) by (apply Hin; left; reflexivity).
    assert (HL : In L [x]) by (apply Hin; right; left; reflexivity).
    destruct HA as [HA|[]]. destruct HL as [HL|[]]. congruence.
  - assert (Hx : In x [A; L]) by (apply Hin; left; reflexivity).
    assert (Hy : In y [A; L]) by (apply Hin; right; left; reflexivity).
    inversion Hnd as [|? ? Hnx _]; subst.
    destruct Hx as [<-|[<-|[]]]; destruct Hy as [<-|[<-|[]]]; auto;
      exfalso; apply Hnx; left; reflexivity.
  - exfalso.
    assert (Hx : In x [A; L]) by (apply Hin; left; reflexivity).
    assert (Hy : In y [A; L]) by (apply Hin; right; left; reflexivity).
    assert (Hz : In z [A; L])
      by (apply Hin; right; right; left; reflexivity).
    inversion Hnd as [|? ? Hnx Hnd']; subst.
    inversion Hnd' as [|? ? Hny _]; subst.
    destruct Hx as [<-|[<-|[]]]; destruct Hy as [<-|[<-|[]]];
      destruct Hz as [<-|[<-|[]]];
      solve [apply Hnx; simpl; auto | apply Hny; simpl; auto].
Qed.

Lemma register_unfold (order : SetOrder ClueWeb22Subset) :
  register order false
  = sequence
      (Some ("clueweb22", None)
       :: app (register_view "b" B B)
            (flat_map
               (fun subset_view =>
                  register_view ("b" ++ "/as-" ++ Subset.tag subset_view)
                    B subset_view)
               (iter order [A; L]))).
Proof.
  unfold register. cbn [Subset.all flat_map Subset.hide Subset.tag].
  rewrite app_nil_r. reflexivity.
Qed.

Ltac find_in_list :=
  repeat first [left; reflexivity | right].

(** X22: [register] runs to its end: every reader it registers is registered
    under the identifier its [docs_namespace] gives, belongs to a subset
    that is not hidden and views it as one of its subset views; and every
    such combination of subset, view and optional language is registered. *)
Theorem register_ids_are_docs_namespaces :
  forall order : SetOrder ClueWeb22Subset,
    exists calls,
      register order false = Some calls
      /\ (forall id d,
            In (id, Some d) calls ->
            id = docs_namespace d
            /\ arg_name d = "clueweb22"
            /\ Subset.hide (arg_subset d) = false
            /\ In (arg_subset_view d) (Subset.subset_views (arg_subset d)))
      /\ (forall subset subset_view language,
            Subset.hide subset = false ->
            In subset_view (Subset.subset_views subset) ->
            In (docs_namespace
                  (mkDocsArgs "clueweb22" subset subset_view language),
                Some (mkDocsArgs "clueweb22" subset subset_view language))
              calls).
Proof.
  intros order. rewrite register_unfold.
  destruct (two_views_order order) as [E|E]; rewrite E; clear E;
    (eexists; split; [vm_compute; reflexivity|]); split.
  1,3: intros id d Hin; cbn [In] in Hin;
    repeat (destruct Hin as [Hin|Hin];
            [inversion Hin; subst; clear Hin; vm_compute; auto 10|]);
    contradiction.
  all: intros subset subset_view language Hhide Hview;
    destruct subset; try discriminate;
    destruct subset_view, language as [[]|]; vm_compute; find_in_list.
Qed.

(** X23: [register] never registers an identifier twice, and registers nothing
    when ["clueweb22"] is in the registry already. *)
Theorem register_ids_distinct :
  forall order : SetOrder ClueWeb22Subset,
    register order true = Some []
    /\ exists calls,
         register order false = Some calls
         /\ NoDup (map fst calls)
         /\ List.length calls = 37%nat.
Proof.
  intros order. split; [reflexivity|]. rewrite register_unfold.
  destruct (two_views_order order) as [E|E]; rewrite E; clear E;
    (eexists; split; [vm_compute; reflexivity|]); (split; [|reflexivity]).
  all: match goal with
       | |- NoDup ?l =>
           assert (Hn : nodup string_dec l = l) by (vm_compute; reflexivity);
           rewrite <- Hn; apply NoDup_nodup
       end.
Qed.

(** ** The version file *)

Lemma int_str (n : Z) : 0 <= n -> PyStr.int (PyStr.str n) = Some n.
Proof. intros H. exact (int_fmt 0 n H). Qed.




(** ** Rows of the record-count catalog *)

(** X25: a row of the counts file of a language and stream that names a file of
    that stream as [ClueWeb22FileId.path] names it, followed by a count in
    decimal, is read as the identifier of that file and that count. *)
Theorem counts_row_of_file_id :
  forall (f : FileId.t) (count : Z),
    PyStr.contains_char "-" (FileId.language f) = false ->
    PyStr.contains_char "/" (FileId.language f) = false ->
    0 <= FileId.stream f <= 99 ->
    0 <= FileId.subdirectory f <= 99 ->
    0 <= FileId.file f ->
    0 <= count ->
    counts_row
      (FileId.language f ++ PyStr.fmt 2 (FileId.stream f) ++ "_counts.csv")
      [PyStr.path_name (FileId.path f); PyStr.str count]
    = Some (f, count).
Proof.
  intros [language stream subdirectory file] count.
  cbn [FileId.language FileId.stream FileId.subdirectory FileId.file].
  intros Hdash Hsep Hs Hd Hf Hc.
  unfold counts_row, FileId.path.
  cbn [FileId.language FileId.stream FileId.subdirectory FileId.file].
  rewrite (id_path_name language stream subdirectory file Hsep).
  rewrite <- (str_app_assoc language (PyStr.fmt 2 stream) "_counts.csv").
  rewrite endswith_suffix. cbn [negb].
  change (-11) with (- Z.of_nat 11). change (-2) with (- Z.of_nat 2).
  rewrite (slice_drop_suffix _ "_counts.csv" 11) by (try reflexivity; lia).
  rewrite (slice_drop_suffix language _ 2) by (try apply fmt2_length; lia).
  rewrite (slice_keep_suffix language _ 2) by (try apply fmt2_length; lia).
  rewrite int_fmt by lia.
  replace (language ++ PyStr.fmt 2 stream ++ PyStr.fmt 2 subdirectory
           ++ String "-" (PyStr.fmt 2 file))%string
    with (((language ++ PyStr.fmt 2 stream) ++ PyStr.fmt 2 subdirectory)
          ++ String "-" (PyStr.fmt 2 file))%string
    by (rewrite !str_app_assoc; reflexivity).
  rewrite split_app_sep.
  rewrite (split_no_sep "-" ((language ++ PyStr.fmt 2 stream)
                             ++ PyStr.fmt 2 subdirectory))
    by (rewrite !contains_char_app, Hdash, !fmt_no_dash by lia; reflexivity).
  rewrite (split_no_sep "-" (PyStr.fmt 2 file)) by (apply fmt_no_dash; lia).
  cbn [app].
  rewrite (slice_keep_suffix (language ++ PyStr.fmt 2 stream) _ 2)
    by (try apply fmt2_length; lia).
  rewrite !int_fmt by lia. rewrite int_str by lia. reflexivity.
Qed.

Lemma counts_row_witness :
  counts_row
    (FileId.language (FileId.mk "zh_chs" 3 45 7)
     ++ PyStr.fmt 2 (FileId.stream (FileId.mk "zh_chs" 3 45 7))
     ++ "_counts.csv")
    [PyStr.path_name (FileId.path (FileId.mk "zh_chs" 3 45 7)); PyStr.str 12345]
  = Some (FileId.mk "zh_chs" 3 45 7, 12345).
Proof.
  apply (counts_row_of_file_id (FileId.mk "zh_chs" 3 45 7) 12345);
    try reflexivity; cbn; lia.
Defined.

(** ** The paths of the Chinese OUTLINK shards *)

Lemma replace_from_digits (old new d rest : string) (o : ascii) (old' : string) :
  old = String o old' -> PyStr.is_digit o = false ->
  PyStr.all_digits d = true ->
  PyStr.replace_from old new 0 (d ++ rest)
  = (d ++ PyStr.replace_from old new 0 rest)%string.
Proof.
  intros -> Ho. induction d as [|c d IH]; intros Hd; [reflexivity|].
  cbn [PyStr.all_digits] in Hd. apply andb_true_iff in Hd.
  destruct Hd as [Hc Hd].
  cbn [append PyStr.replace_from String.prefix].
  destruct (ascii_dec o c) as [->|_]; [congruence|].
  rewrite (IH Hd). reflexivity.
Qed.

Lemma replace_from_dir (new rest : string) (c : ascii) :
  PyStr.is_digit c = true ->
  PyStr.replace_from "zh_chs/zh_chs" new 0 ("/zh_chs" ++ String c rest)
  = ("/zh_chs" ++ PyStr.replace_from "zh_chs/zh_chs" new 0 (String c rest))%string.
Proof.
  intros Hc. destruct (digit_not_special c Hc) as (_ & _ & _ & Hsep & _).
  apply Ascii.eqb_neq in Hsep.
  cbn [append]. cbn [PyStr.replace_from String.prefix].
  repeat match goal with
         | |- context [ascii_dec ?a ?b] =>
             lazymatch b with
             | c => destruct (ascii_dec a c) as [E|_]; [congruence|]
             | _ => let r := eval vm_compute in (if ascii_dec a b then true else false) in
                    lazymatch r with
                    | true => destruct (ascii_dec a b) as [_|E]; [|exfalso; apply E; reflexivity]
                    | false => destruct (ascii_dec a b) as [E|_]; [discriminate E|]
                    end
             end
         end.
  reflexivity.
Qed.

Lemma replace_from_first_digit (old new d rest : string) :
  PyStr.all_digits d = true -> d <> "" ->
  exists c r, (d ++ rest)%string = String c r /\ PyStr.is_digit c = true.
Proof.
  intros Hd Hne. destruct d as [|c d]; [congruence|].
  cbn [PyStr.all_digits] in Hd. apply andb_true_iff in Hd.
  exists c, (d ++ rest)%string. split; [reflexivity|apply Hd].
Qed.

Lemma endswith_sep_last_digit (s : string) :
  PyStr.last_is_digit s = true -> PyStr.endswith "/" s = false.
Proof.
  unfold PyStr.endswith. change (String.length "/") with 1%nat.
  induction s as [|c r IH]; [discriminate|].
  destruct r as [|c' r'].
  - cbn. intros Hc. destruct (digit_not_special c Hc) as (_ & _ & _ & Hsep & _).
    rewrite Hsep. reflexivity.
  - intros H. cbn [PyStr.last_is_digit] in H. specialize (IH H).
    cbn [String.length] in *.
    replace (S (S (String.length r')) - 1)%nat
      with (S (String.length r')) by lia.
    replace (S (String.length r') - 1)%nat
      with (String.length r') in IH by lia.
    cbn [PyStr.drop]. apply andb_false_iff in IH.
    apply andb_false_iff. destruct IH as [IH|IH]; [left; exact IH|].
    cbn in IH. discriminate.
Qed.

Lemma path_join2_plain (a b : string) :
  PyStr.startswith "/" b = false -> a <> "" ->
  PyStr.endswith "/" a = false ->
  PyStr.path_join2 a b = (a ++ "/" ++ b)%string.
Proof.
  intros Hb Ha He. unfold PyStr.path_join2. rewrite Hb, He.
  destruct (String.eqb_spec a ""); [congruence|reflexivity].
Qed.

Lemma prefix_self_app (a b : string) : String.prefix a (a ++ b) = true.
Proof.
  induction a as [|c a IH]; [apply prefix_nil|].
  cbn [append String.prefix]. destruct (ascii_dec c c); [exact IH|congruence].
Qed.

Lemma replace_from_match (old new rest : string) :
  old <> "" ->
  PyStr.replace_from old new 0 (old ++ rest)
  = (new ++ PyStr.replace_from old new 0 rest)%string.
Proof.
  intros Hne. destruct old as [|o old']; [congruence|].
  change (String o old' ++ rest)%string with (String o (old' ++ rest)).
  cbn [PyStr.replace_from].
  change (String o (old' ++ rest)) with (String o old' ++ rest)%string.
  rewrite prefix_self_app.
  replace (String.length (String o old') - 1)%nat with (String.length old')
    by (cbn; lia).
  rewrite replace_from_skip. reflexivity.
Qed.

Lemma replace_from_dir_digits (new d rest : string) :
  PyStr.all_digits d = true -> d <> "" ->
  PyStr.replace_from "zh_chs/zh_chs" new 0 ("/zh_chs" ++ d ++ rest)
  = ("/zh_chs" ++ d
     ++ PyStr.replace_from "zh_chs/zh_chs" new 0 rest)%string.
Proof.
  intros Hd Hne.
  destruct (replace_from_first_digit "" "" d rest Hd Hne) as (c & r & E & Hc).
  rewrite E, (replace_from_dir new r c Hc), <- E.
  rewrite (replace_from_digits "zh_chs/zh_chs" new d rest "z" "h_chs/zh_chs")
    by (auto; reflexivity).
  reflexivity.
Qed.

Lemma fmt_digits (w : nat) (n : Z) :
  0 <= n -> PyStr.all_digits (PyStr.fmt w n) = true /\ PyStr.fmt w n <> "".
Proof. intros H. destruct (fmt_all_digits w n H) as (H1 & H2 & _). auto. Qed.

Lemma last_is_digit_app_r (a b : string) :
  PyStr.last_is_digit b = true -> PyStr.last_is_digit (a ++ b) = true.
Proof.
  intros H. rewrite last_is_digit_app; [exact H|].
  apply last_is_digit_not_nil, H.
Qed.

Lemma id_path_chinese (stream subdirectory file : Z) :
  id_path "zh_chs" stream subdirectory file
  = ("zh_chs/zh_chs" ++ PyStr.fmt 2 stream
     ++ "/zh_chs" ++ PyStr.fmt 2 stream ++ PyStr.fmt 2 subdirectory
     ++ "/zh_chs" ++ PyStr.fmt 2 stream ++ PyStr.fmt 2 subdirectory
     ++ "-" ++ PyStr.fmt 2 file)%string.
Proof.
  unfold id_path, PyStr.path_join. cbn [fold_left].
  destruct (fmt_any 2 stream) as (_ & Hs & _).
  destruct (fmt_any 2 subdirectory) as (_ & Hd & _).
  rewrite (path_join2_plain "zh_chs") by (try reflexivity; discriminate).
  rewrite (path_join2_plain ("zh_chs" ++ "/" ++ "zh_chs" ++ PyStr.fmt 2 stream)).
  - rewrite path_join2_plain.
    + rewrite !str_app_assoc. reflexivity.
    + reflexivity.
    + discriminate.
    + apply endswith_sep_last_digit. rewrite !str_app_assoc.
      repeat first [assumption | apply last_is_digit_app_r].
  - reflexivity.
  - discriminate.
  - apply endswith_sep_last_digit.
    repeat first [assumption | apply last_is_digit_app_r].
Qed.

Lemma contains_char_join2 (c : ascii) (a b : string) :
  Ascii.eqb "/" c = false ->
  PyStr.contains_char c a = false -> PyStr.contains_char c b = false ->
  PyStr.contains_char c (PyStr.path_join2 a b) = false.
Proof.
  intros Hc Ha Hb. unfold PyStr.path_join2.
  destruct (PyStr.startswith "/" b); [exact Hb|].
  destruct (String.eqb a "" || PyStr.endswith "/" a);
    rewrite !contains_char_app, Ha, Hb; [reflexivity|].
  cbn [PyStr.contains_char]. rewrite Hc. reflexivity.
Qed.

Lemma id_path_no_underscore (language : string) (stream subdirectory file : Z) :
  PyStr.contains_char "_" language = false ->
  0 <= stream -> 0 <= subdirectory -> 0 <= file ->
  PyStr.contains_char "_" (id_path language stream subdirectory file) = false.
Proof.
  intros Hl Hs Hd Hf.
  assert (Hfmt : forall n, 0 <= n ->
                           PyStr.contains_char "_" (PyStr.fmt 2 n) = false).
  { intros n Hn. apply all_digits_no_char; [reflexivity|].
    apply fmt_digits, Hn. }
  unfold id_path, PyStr.path_join. cbn [fold_left].
  repeat apply contains_char_join2; try reflexivity; try exact Hl;
    rewrite ?contains_char_app, ?Hl, ?Hfmt by assumption; reflexivity.
Qed.

(** X27: the only paths [_fix_path] changes are those of the Chinese OUTLINK
    shards: there the stream directory [zh_chs<ss>] becomes [zh<ss>] while
    the language directory, the subdirectory and the file name keep
    [zh_chs]; the paths of the other languages and of the other formats are
    left as they are. *)
Theorem fix_path_changes_chinese_outlink_only :
  forall stream subdirectory file,
    0 <= stream -> 0 <= subdirectory -> 0 <= file ->
    _fix_path (id_path "zh_chs" stream subdirectory file) OUTLINK
    = ("zh_chs/zh" ++ PyStr.fmt 2 stream
       ++ "/zh_chs" ++ PyStr.fmt 2 stream ++ PyStr.fmt 2 subdirectory
       ++ "/zh_chs" ++ PyStr.fmt 2 stream ++ PyStr.fmt 2 subdirectory
       ++ "-" ++ PyStr.fmt 2 file)%string
    /\ (forall language,
          language <> ZH ->
          _fix_path (id_path (Language.id language) stream subdirectory file)
            OUTLINK
          = id_path (Language.id language) stream subdirectory file)
    /\ (forall path format_type,
          format_type <> OUTLINK -> _fix_path path format_type = path).
Proof.
  intros stream subdirectory file Hs Hd Hf.
  destruct (fmt_digits 2 stream Hs) as [Hs1 Hs2].
  destruct (fmt_digits 2 subdirectory Hd) as [Hd1 Hd2].
  destruct (fmt_digits 2 file Hf) as [Hf1 Hf2].
  split; [|split].
  - rewrite id_path_chinese. unfold _fix_path.
    replace (Format.eqb OUTLINK OUTLINK) with true by reflexivity.
    replace (PyStr.contains_char "_" _) with true by reflexivity.
    cbn [andb]. unfold PyStr.replace.
    rewrite replace_from_match by discriminate.
    rewrite (replace_from_digits "zh_chs/zh_chs" "zh_chs/zh" _ _ "z"
               "h_chs/zh_chs") by (auto; reflexivity).
    rewrite replace_from_dir_digits by assumption.
    rewrite (replace_from_digits "zh_chs/zh_chs" "zh_chs/zh" _ _ "z"
               "h_chs/zh_chs") by (auto; reflexivity).
    rewrite replace_from_dir_digits by assumption.
    rewrite (replace_from_digits "zh_chs/zh_chs" "zh_chs/zh" _ _ "z"
               "h_chs/zh_chs") by (auto; reflexivity).
    change ("-" ++ PyStr.fmt 2 file)%string with (String "-" (PyStr.fmt 2 file)).
    cbn [PyStr.replace_from String.prefix].
    destruct (ascii_dec "z" "-") as [E|_]; [discriminate E|].
    rewrite <- (str_app_nil_r (PyStr.fmt 2 file)) at 1.
    rewrite (replace_from_digits "zh_chs/zh_chs" "zh_chs/zh" _ _ "z"
               "h_chs/zh_chs") by (auto; reflexivity).
    cbn [PyStr.replace_from]. rewrite str_app_nil_r. reflexivity.
  - intros language Hl. unfold _fix_path.
    rewrite id_path_no_underscore by (auto; destruct language; auto; congruence).
    rewrite andb_false_r. reflexivity.
  - intros path format_type Hne. unfold _fix_path.
    destruct format_type; try reflexivity. congruence.
Qed.

Lemma fix_path_witness :
  _fix_path (id_path "zh_chs" 0 0 0) OUTLINK
  = ("zh_chs/zh" ++ PyStr.fmt 2 0
     ++ "/zh_chs" ++ PyStr.fmt 2 0 ++ PyStr.fmt 2 0
     ++ "/zh_chs" ++ PyStr.fmt 2 0 ++ PyStr.fmt 2 0
     ++ "-" ++ PyStr.fmt 2 0)%string
  /\ (forall language,
        language <> ZH ->
        _fix_path (id_path (Language.id language) 0 0 0) OUTLINK
        = id_path (Language.id language) 0 0 0)
  /\ (forall path format_type,
        format_type <> OUTLINK -> _fix_path path format_type = path).
Proof.
  apply (fix_path_changes_chinese_outlink_only 0 0 0); lia.
Defined.

(** ** Subsets and their views *)

(** X28: a subset is one of its own views; each of its views needs only formats
    the subset has, and has no view the subset lacks; and the diff formats
    of a subset are its formats that none of its other views has. *)
Theorem subset_views_are_sound :
  forall subset,
    In subset (Subset.subset_views subset)
    /\ (forall view,
          In view (Subset.subset_views subset) ->
          incl (Subset.formats view) (Subset.formats subset)
          /\ incl (Subset.subset_views view) (Subset.subset_views subset))
    /\ (forall format_type,
          In format_type (Subset.diff_formats subset)
          <-> In format_type (Subset.formats subset)
              /\ forall view,
                   In view (Subset.subset_views subset) -> view <> subset ->
                   ~ In format_type (Subset.formats view)).
Proof.
  intros subset. split; [destruct subset; vm_compute; auto|]. split.
  - intros view Hview.
    destruct subset, view; vm_compute in Hview;
      try (exfalso; intuition discriminate);
      split; intros x Hx; vm_compute in Hx |- *; tauto.
  - intros format_type. split.
    + intros H. split.
      * destruct subset, format_type; vm_compute in H |- *;
          intuition discriminate.
      * intros view Hview Hne Hf.
        destruct subset, view; try congruence;
        destruct format_type; vm_compute in H, Hview, Hf;
          intuition discriminate.
    + intros [Hf Hviews].
      destruct subset.
      * destruct format_type; vm_compute in Hf |- *; intuition discriminate.
      * destruct format_type; vm_compute in Hf |- *;
          try (intuition discriminate).
        exfalso. apply (Hviews L); [vm_compute; auto|discriminate|].
        vm_compute. auto.
      * exfalso. apply (Hviews A); [vm_compute; auto|discriminate|].
        destruct format_type; vm_compute in Hf |- *; intuition discriminate.
Qed.

Lemma subset_views_witness :
  incl (Subset.formats L) (Subset.formats B)
  /\ incl (Subset.subset_views L) (Subset.subset_views B).
Proof.
  apply (proj1 (proj2 (subset_views_are_sound B)) L).
  vm_compute. auto.
Defined.

(** ** File identifiers from paths *)

Lemma endswith_no_sep (c : ascii) (s : string) :
  PyStr.contains_char c s = false ->
  PyStr.endswith (String c "") s = false.
Proof.
  intros H. destruct (PyStr.endswith (String c "") s) eqn:E; [|reflexivity].
  apply endswith_app in E. destruct E as (a & ->).
  rewrite contains_char_app in H. cbn in H.
  rewrite Ascii.eqb_refl, orb_true_r in H. discriminate.
Qed.

Lemma startswith_sep_no_sep (s t : string) :
  s <> "" -> PyStr.contains_char "/" s = false ->
  PyStr.startswith "/" (s ++ t) = false.
Proof.
  intros Hne H. destruct s as [|c r]; [congruence|].
  cbn [PyStr.contains_char] in H. apply orb_false_iff in H.
  destruct H as [Hc _]. apply Ascii.eqb_neq in Hc.
  unfold PyStr.startswith. cbn [append String.prefix].
  destruct (ascii_dec "/" c); [congruence|reflexivity].
Qed.

Lemma id_path_explicit (language : string) (stream subdirectory file : Z) :
  language <> "" -> PyStr.contains_char "/" language = false ->
  id_path language stream subdirectory file
  = (language
     ++ String "/" ((language ++ PyStr.fmt 2 stream)
     ++ String "/" (((language ++ PyStr.fmt 2 stream)
                      ++ PyStr.fmt 2 subdirectory)
     ++ String "/" (((language ++ PyStr.fmt 2 stream)
                      ++ PyStr.fmt 2 subdirectory)
                    ++ String "-" (PyStr.fmt 2 file)))))%string.
Proof.
  intros Hne Hsep. unfold id_path, PyStr.path_join. cbn [fold_left].
  destruct (fmt_any 2 stream) as (_ & Hs & _).
  destruct (fmt_any 2 subdirectory) as (_ & Hd & _).
  rewrite (path_join2_plain language);
    [|apply startswith_sep_no_sep; assumption|exact Hne
     |apply (endswith_no_sep "/"), Hsep].
  rewrite (path_join2_plain (language ++ "/" ++ language ++ PyStr.fmt 2 stream)).
  - rewrite path_join2_plain.
    + rewrite !str_app_assoc. reflexivity.
    + rewrite !str_app_assoc. apply startswith_sep_no_sep; assumption.
    + destruct language; [congruence|discriminate].
    + apply endswith_sep_last_digit. rewrite !str_app_assoc.
      repeat first [assumption | apply last_is_digit_app_r].
  - rewrite !str_app_assoc. apply startswith_sep_no_sep; assumption.
  - destruct language; [congruence|discriminate].
  - apply endswith_sep_last_digit.
    repeat first [assumption | apply last_is_digit_app_r].
Qed.

Lemma fmt_no_char (c : ascii) (w : nat) (n : Z) :
  PyStr.is_digit c = false -> 0 <= n ->
  PyStr.contains_char c (PyStr.fmt w n) = false.
Proof.
  intros Hc Hn. apply all_digits_no_char; [exact Hc|]. apply fmt_digits, Hn.
Qed.

(** X26: [ClueWeb22FileId.from_path] gives back the identifier from the parts of
    its [path], whatever directories come before them and whether or not an
    extension that starts with a dot follows, for a language without [/],
    [-] and [.] and a stream and subdirectory of two digits. *)
Theorem from_path_of_path :
  forall (f : FileId.t) (root : list string) (extension : string),
    FileId.language f <> "" ->
    PyStr.contains_char "/" (FileId.language f) = false ->
    PyStr.contains_char "-" (FileId.language f) = false ->
    PyStr.contains_char "." (FileId.language f) = false ->
    0 <= FileId.stream f <= 99 ->
    0 <= FileId.subdirectory f <= 99 ->
    0 <= FileId.file f ->
    PyStr.contains_char "/" extension = false ->
    extension = "" \/ PyStr.startswith "." extension = true ->
    FileId_from_path
      (root ++ PyStr.split "/" (FileId.path f ++ extension))%list
    = Some f.
Proof.
  intros [language stream subdirectory file] root extension.
  cbn [FileId.language FileId.stream FileId.subdirectory FileId.file].
  intros Hne Hsep Hdash Hdot Hs Hd Hf Hesep Hext.
  unfold FileId.path.
  cbn [FileId.language FileId.stream FileId.subdirectory FileId.file].
  rewrite (id_path_explicit language stream subdirectory file Hne Hsep).
  set (p2 := (language ++ PyStr.fmt 2 stream)%string).
  set (p3 := (p2 ++ PyStr.fmt 2 subdirectory)%string).
  set (p4 := (p3 ++ String "-" (PyStr.fmt 2 file))%string).
  assert (H2 : PyStr.contains_char "/" p2 = false)
    by (unfold p2; rewrite contains_char_app, Hsep, fmt_no_char by (auto; lia);
        reflexivity).
  assert (H3 : PyStr.contains_char "/" p3 = false)
    by (unfold p3; rewrite contains_char_app, H2, fmt_no_char by (auto; lia);
        reflexivity).
  assert (H4 : PyStr.contains_char "/" (p4 ++ extension) = false).
  { unfold p4. rewrite !contains_char_app, H3, Hesep.
    cbn [PyStr.contains_char].
    rewrite fmt_no_char by (auto; lia). reflexivity. }
  replace ((language ++ String "/" (p2 ++ String "/" (p3 ++ String "/" p4)))
           ++ extension)%string
    with (language ++ String "/" (p2 ++ String "/" (p3
            ++ String "/" (p4 ++ extension))))%string
    by (rewrite !str_app_assoc; cbn [append]; rewrite !str_app_assoc;
        cbn [append]; rewrite !str_app_assoc; reflexivity).
  rewrite !split_app_sep.
  rewrite (split_no_sep "/" language Hsep), (split_no_sep "/" p2 H2),
    (split_no_sep "/" p3 H3), (split_no_sep "/" _ H4).
  unfold FileId_from_path. rewrite rev_app_distr. cbn [rev app].
  change (-2) with (- Z.of_nat 2).
  assert (Hd4 : PyStr.contains_char "." p4 = false).
  { unfold p4, p3, p2. rewrite !contains_char_app, Hdot.
    cbn [PyStr.contains_char].
    rewrite !fmt_no_char by (auto; lia). reflexivity. }
  assert (Hstem : exists rest, PyStr.split "." (p4 ++ extension) = p4 :: rest).
  { destruct Hext as [->|Hext].
    - exists []. rewrite str_app_nil_r. apply split_no_sep, Hd4.
    - apply prefix_app in Hext. destruct Hext as (e & ->).
      change ("." ++ e)%string with (String "." e).
      rewrite split_app_sep, (split_no_sep "." p4 Hd4).
      exists (PyStr.split "." e). reflexivity. }
  destruct Hstem as (rest & ->).
  assert (Hparts : PyStr.split "-" p4 = [p3; PyStr.fmt 2 file]).
  { unfold p4. rewrite split_app_sep.
    rewrite (split_no_sep "-" p3)
      by (unfold p3, p2; rewrite !contains_char_app, Hdash, !fmt_no_dash by lia;
          reflexivity).
    rewrite (split_no_sep "-" (PyStr.fmt 2 file)) by (apply fmt_no_dash; lia).
    reflexivity. }
  rewrite Hparts.
  assert (E3 : PyStr.slice (Some (- Z.of_nat 2)) None p3
               = PyStr.fmt 2 subdirectory)
    by (apply slice_keep_suffix; [apply fmt2_length|]; lia).
  assert (E2 : PyStr.slice (Some (- Z.of_nat 2)) None p2 = PyStr.fmt 2 stream)
    by (apply slice_keep_suffix; [apply fmt2_length|]; lia).
  rewrite E2, E3, !int_fmt by lia. reflexivity.
Qed.

Lemma from_path_witness :
  FileId_from_path
    (["/"; "data"; "html"]
     ++ PyStr.split "/" (FileId.path (FileId.mk "ja" 0 9 57) ++ ".warc.gz"))%list
  = Some (FileId.mk "ja" 0 9 57).
Proof.
  apply (from_path_of_path (FileId.mk "ja" 0 9 57) ["/"; "data"; "html"]
           ".warc.gz");
    try reflexivity; try discriminate; try (cbn; lia).
Defined.

(** ** Malformed identifiers in a lookup *)

Lemma typed_doc_ids_none (doc_ids : list string) :
  typed_doc_ids doc_ids = None
  <-> exists s, In s doc_ids /\ DocId.from_string s = None.
Proof.
  induction doc_ids as [|s rest IH]; cbn [typed_doc_ids].
  - split; [discriminate|]. intros (s & [] & _).
  - destruct (DocId.from_string s) as [d|] eqn:E.
    + destruct (typed_doc_ids rest) as [ds|].
      * split; [discriminate|]. intros (x & [<-|Hx] & Hn); [congruence|].
        assert (H : Some ds = None) by (apply IH; exists x; auto).
        discriminate.
      * split; [intros _|reflexivity].
        destruct (proj1 IH eq_refl) as (x & Hx & Hn).
        exists x. split; [right; exact Hx|exact Hn].
    + split; [intros _|reflexivity]. exists s. split; [left; reflexivity|exact E].
Qed.

(** X20: a lookup fails as a whole, before any shard is opened, exactly when one
    of the requested identifiers is not accepted by the parser. *)
Theorem get_many_rejects_malformed_ids :
  forall (R : Type) (disk : string -> list (string * R))
         (ids_order : SetOrder DocId.t) (names_order : SetOrder string)
         (docs : ClueWeb22Docs) (format_type : ClueWeb22Format)
         (doc_ids : list string),
    get_many_events R disk ids_order names_order docs format_type doc_ids
    = None
    <-> exists s, In s doc_ids /\ DocId.from_string s = None.
Proof.
  intros. rewrite <- typed_doc_ids_none. unfold get_many_events.
  destruct (typed_doc_ids doc_ids) as [ids|]; [|split; reflexivity].
  destruct (docstore_file_paths docs format_type (iter ids_order ids));
    split; discriminate.
Qed.

(** ** Shards opened by the full iteration *)


